(** * DriveGuard AI: the event-detection core of the video analysis backend

    A shallow embedding of [backend/analysis/main_v2.py] and
    [backend/analysis/enhanced_proximity_detection.py], and the properties
    of the sampling, hysteresis, merge, distance, time-to-collision and
    speed-aggregation code.

    Conventions of the embedding.
    - A Python [float] is an exact rational [Q]: every finite float is a
      rational, and the arithmetic is taken without rounding error, with
      one exception.  Where the source compares a difference of two time
      stamps with a threshold -- the finalize pass of
      [run_close_encounters], the duration test of the turn state machine
      and the duration filter of [run_bus_lane_color] -- a rounding error
      of one unit in the last place decides the comparison for ordinary
      videos ([1.3 - 1.1 < 0.2] and [4.4 - 2.4 > 2.0] in binary64).  The
      time stamps of these loops and their differences are therefore
      rounded to the nearest binary64 number ([Py.fl], [Py.fsub]).
      [float('inf')] is a constructor of its own ([ExtQ]).  Equalities
      between computed floats are stated with [==].
    - A Python [int] is a [Z].
    - Image processing (decoding, optical flow, colour masks, the object
      detector and its tracker) is a black box: a [Variable] of the section
      that uses it, so every statement holds for all its possible outputs.
    - An exception is a value of [Result]. *)

From Stdlib Require Import ZArith QArith Qround Qabs Qpower Lqa Lia.
From stdpp Require Import base option list sorting strings gmap.

Open Scope Q_scope.

(** * Part I: definitions *)

(** ** Python and numpy primitives *)

Module Py.

Definition Qltb (x y : Q) : bool := negb (Qle_bool y x).
Definition Qleb (x y : Q) : bool := Qle_bool x y.

(** [max(a, b)] and [min(a, b)]: the first argument wins a tie. *)
Definition max (a b : Q) : Q := if Qltb a b then b else a.
Definition min (a b : Q) : Q := if Qltb b a then b else a.

(** [np.clip(x, lo, hi)] is [minimum(maximum(x, lo), hi)]. *)
Definition clip (x lo hi : Q) : Q := min (max x lo) hi.

(** [round(x)]: to the nearest integer, a tie goes to the even one. *)
Definition round (x : Q) : Z :=
  let f := Qfloor x in
  match Qcompare (x - inject_Z f) (1 # 2) with
  | Lt => f
  | Gt => (f + 1)%Z
  | Eq => if Z.even f then f else (f + 1)%Z
  end.

(** [round(x, ndigits)] for a float: the nearest multiple of
    [10^-ndigits]. *)
Definition round_n (x : Q) (ndigits : positive) : Q :=
  let scale := inject_Z (Z.pow 10 (Zpos ndigits)) in
  inject_Z (round (x * scale)) / scale.

(** [int(x)] for a float: truncation toward zero. *)
Definition int (x : Q) : Z := Z.quot (Qnum x) (Zpos (Qden x)).

(** Binary64, the format of a Python [float]: a sign, a mantissa of 53
    bits and an exponent that is at least -1022.  [pow2 e] is [2^e] and
    [ilog2 x] the exponent of a positive [x]: the [e] with
    [2^e <= x < 2^(e+1)]. *)
Definition pow2 (e : Z) : Q := 2 ^ e.

Definition ilog2 (x : Q) : Z :=
  let k := (Z.log2 (Qnum x) - Z.log2 (Zpos (Qden x)))%Z in
  if Qleb (pow2 k) x then k else (k - 1)%Z.

(** The binary64 number nearest to a positive real [x]: the nearest
    multiple of the unit in the last place of its binade, a tie going to
    the even mantissa.  (Below [2^-1022] the unit is that of the
    subnormal numbers.  Overflow is left out: no time stamp comes near
    [2^1024].) *)
Definition fl_pos (x : Q) : Q :=
  let e := Z.max (ilog2 x) (-1022) in
  let ulp := pow2 (e - 52) in
  inject_Z (round (x / ulp)) * ulp.

(** [fl x]: the float that a real [x] is rounded to, and so the float
    that a decimal literal or the result of [round(t, 2)] denotes. *)
Definition fl (x : Q) : Q :=
  if Qeq_bool x 0 then 0
  else if Qltb x 0 then - fl_pos (- x)
  else fl_pos x.

(** [a - b] between the floats that [a] and [b] denote: two floats, or
    the decimals that [round(t, 2)] returned for them.  (Rounding a
    float again leaves it as it is.) *)
Definition fsub (a b : Q) : Q := fl (fl a - fl b).

Arguments pow2 : simpl never.
Arguments fl_pos : simpl never.
Arguments fl : simpl never.
Arguments fsub : simpl never.

(** [x or d] for a float: [d] replaces a zero. *)
Definition or_default (x d : Q) : Q := if Qeq_bool x 0 then d else x.

(** A float that may be [float('inf')]. *)
Inductive ExtQ : Type :=
| Fin (q : Q)
| Inf.

(** [a < b] between a possibly infinite and a finite float. *)
Definition ext_ltb (a : ExtQ) (b : Q) : bool :=
  match a with
  | Fin q => Qltb q b
  | Inf => false
  end.

(** [b < a] between a finite and a possibly infinite float. *)
Definition lt_extb (b : Q) (a : ExtQ) : bool :=
  match a with
  | Fin q => Qltb b q
  | Inf => true
  end.

Definition is_inf (a : ExtQ) : bool :=
  match a with
  | Fin _ => false
  | Inf => true
  end.

(** Exceptions and the results of fallible code. *)
Inductive exn : Type :=
| RuntimeError (msg : string)
| TypeError (msg : string)
| ZeroDivisionError.

Inductive Result (A : Type) : Type :=
| Return (a : A)
| Raise (e : exn).
Arguments Return {A} a.
Arguments Raise {A} e.

Definition bind {A B : Type} (m : Result A) (k : A -> Result B) : Result B :=
  match m with
  | Return a => k a
  | Raise e => Raise e
  end.

(** [a / b] where the source does not guard the divisor. *)
Definition div (a b : Q) : Result Q :=
  if Qeq_bool b 0 then Raise ZeroDivisionError else Return (a / b).

(** Sorting, for [np.median] and [np.percentile]. *)
Fixpoint insert_sorted (x : Q) (l : list Q) : list Q :=
  match l with
  | [] => [x]
  | y :: l' => if Qleb x y then x :: l else y :: insert_sorted x l'
  end.

Fixpoint sort (l : list Q) : list Q :=
  match l with
  | [] => []
  | x :: l' => insert_sorted x (sort l')
  end.

Definition sum (l : list Q) : Q := foldr Qplus 0 l.

(** [np.mean(a)] of a non-empty array. *)
Definition mean (l : list Q) : Q := sum l / inject_Z (Z.of_nat (length l)).

(** [np.percentile(a, p)], linear interpolation between the two closest
    ranks of the sorted array. *)
Definition percentile (a : list Q) (p : Q) : Q :=
  let s := sort a in
  let n := length s in
  let pos := p / 100 * inject_Z (Z.of_nat (n - 1)) in
  let lo := Z.to_nat (Qfloor pos) in
  let hi := Nat.min (lo + 1) (n - 1) in
  let frac := pos - inject_Z (Z.of_nat lo) in
  nth lo s 0 + frac * (nth hi s 0 - nth lo s 0).

(** [np.median(a)]: the middle element of the sorted array, or the mean of
    the two middle ones. *)
Definition median (a : list Q) : Q :=
  let s := sort a in
  let n := length s in
  if Nat.even n
  then (nth (n / 2 - 1) s 0 + nth (n / 2) s 0) / 2
  else nth (n / 2) s 0.

(** [int(np.argmax(a))]: the index of the first maximum. *)
Fixpoint argmax_from (best : Q) (besti i : nat) (l : list Q) : nat :=
  match l with
  | [] => besti
  | x :: l' =>
      if Qltb best x then argmax_from x i (S i) l'
      else argmax_from best besti (S i) l'
  end.

Definition argmax (l : list Q) : nat :=
  match l with
  | [] => 0%nat
  | x :: l' => argmax_from x 0 1 l'
  end.

(** [max(l)] of a non-empty list. *)
Definition max_list (l : list Q) : Q :=
  match l with
  | [] => 0
  | x :: l' => foldl max x l'
  end.

(** [slope, _ = np.polyfit(x, y, 1)]: the slope of the least-squares line
    through the points, in closed form.  (numpy solves the same
    least-squares problem; the closed form is its solution whenever the
    abscissas are not all equal.) *)
Definition polyfit_slope (xs ys : list Q) : Q :=
  let n := inject_Z (Z.of_nat (length xs)) in
  let sx := sum xs in
  let sy := sum ys in
  let sxy := sum (zip_with Qmult xs ys) in
  let sxx := sum (zip_with Qmult xs xs) in
  (n * sxy - sx * sy) / (n * sxx - sx * sx).

Definition polyfit_intercept (xs ys : list Q) : Q :=
  let n := inject_Z (Z.of_nat (length xs)) in
  (sum ys - polyfit_slope xs ys * sum xs) / n.

(** [d.append(x)] on a [deque(maxlen=n)]: the oldest entry leaves a full
    deque. *)
Definition deque_append {A : Type} (maxlen : nat) (d : list A) (x : A) : list A :=
  let d' := d ++ [x] in
  drop (length d' - maxlen) d'.

(** [l[-k:]] for [0 < k <= len(l)]: the last [k] entries. *)
Definition last_n {A : Type} (k : nat) (l : list A) : list A :=
  drop (length l - k) l.

(** [l[s:e]] for [0 <= s]. *)
Definition slice {A : Type} (l : list A) (s e : nat) : list A :=
  take (e - s) (drop s l).

(** [np.cumsum(a)] *)
Fixpoint cumsum_from (acc : Q) (a : list Q) : list Q :=
  match a with
  | [] => []
  | x :: a' => (acc + x) :: cumsum_from (acc + x) a'
  end.

Definition cumsum (a : list Q) : list Q := cumsum_from 0 a.

(** [np.average(a, weights=w)] for weights whose sum is not zero. *)
Definition average (a w : list Q) : Q := sum (zip_with Qmult a w) / sum w.

End Py.

#[global] Instance Result_bind : MBind Py.Result := fun A B k m => Py.bind m k.
#[global] Instance Result_ret : MRet Py.Result := fun A a => Py.Return a.

Infix "<?" := Py.Qltb : Q_scope.
Infix "<=?" := Py.Qleb : Q_scope.

(** ** The video source *)

Module Cv2.

(** [cv2.VideoCapture(path)].  [stream] holds the frames that successive
    [cap.read()] calls return before the first [(False, None)]; a capture
    that could not be opened has [isOpened = false]. *)
Record VideoCapture (frame : Type) : Type := {
  path : string;
  isOpened : bool;
  CAP_PROP_FPS : Q;
  CAP_PROP_FRAME_COUNT : Q;
  CAP_PROP_FRAME_WIDTH : Q;
  CAP_PROP_FRAME_HEIGHT : Q;
  CAP_PROP_POS_MSEC : Q;
  stream : list frame
}.
Arguments path {frame} _.
Arguments isOpened {frame} _.
Arguments CAP_PROP_FPS {frame} _.
Arguments CAP_PROP_FRAME_COUNT {frame} _.
Arguments CAP_PROP_FRAME_WIDTH {frame} _.
Arguments CAP_PROP_FRAME_HEIGHT {frame} _.
Arguments CAP_PROP_POS_MSEC {frame} _.
Arguments stream {frame} _.

(** [cap.get(cv2.CAP_PROP_FPS) or 30.0] *)
Definition fps_or_30 {frame : Type} (cap : VideoCapture frame) : Q :=
  Py.or_default (CAP_PROP_FPS cap) 30.

End Cv2.

(** ** Values of the result dictionaries *)

(** The values stored under the keys of a result dictionary: a flag, a
    number, a string, or a list of windows, each window a dictionary of
    floats ([List[Dict[str, float]]]). *)
Inductive JSON : Type :=
| JBool (b : bool)
| JNum (q : Q)
| JStr (s : string)
| JList (l : list (list (string * Q))).

(** [len(v)]: defined for strings and lists, a [TypeError] for the
    others. *)
Definition py_len (v : JSON) : Py.Result nat :=
  match v with
  | JList l => Py.Return (length l)
  | JStr s => Py.Return (String.length s)
  | JBool _ | JNum _ => Py.Raise (Py.TypeError "object has no len()")
  end.

(** [d.setdefault(k, v)] *)
Definition setdefault (k : string) (v : JSON) (d : gmap string JSON) : gmap string JSON :=
  match d !! k with
  | Some _ => d
  | None => <[k := v]> d
  end.

(** [d.get(k, v)] *)
Definition dict_get (k : string) (v : JSON) (d : gmap string JSON) : JSON :=
  default v (d !! k).

(** ** [main_v2.py] *)

Module MainV2.
Import Cv2.

(** [max(1, int(round(fps / HZ)))]: the sampling step of
    [run_traffic_signal_summary], [run_close_encounters], [run_turn_count]
    and [run_lane_change_count]. *)
Definition sampling_step (fps hz : Q) : Z := Z.max 1 (Py.round (fps / hz)).

(** [max(1, int(fps / 5))]: the sampling step of
    [calculate_average_speed]. *)
Definition sample_rate (fps : Q) : Z := Z.max 1 (Py.int (fps / 5)).

(** [i / fps], the time stamp of the frame of index [i] in
    [run_close_encounters], [run_turn_count] and [run_bus_lane_color]: a
    float division. *)
Definition frame_time (fps : Q) (idx : Z) : Q := Py.fl (inject_Z idx / fps).

(** [_duration_seconds]: the frame count over the frame rate, [0.0] for
    a source that cannot be opened or reports no frames. *)
Definition _duration_seconds {frame : Type} (cap : VideoCapture frame) : Py.Result Q :=
  if negb (isOpened cap) then mret 0.0
  else
    let fps := fps_or_30 cap in
    let n := Py.or_default (CAP_PROP_FRAME_COUNT cap) 0 in
    if 0 <? n then Py.div n fps else mret 0.0.

(** *** Traffic signal *)

Definition TARGET_WIDTH_TS : Z := 800.
Definition PROCESS_HZ_TS : Q := 8.0.

Definition _postprocess_smoother (dur_sec : Q) (out_json : gmap string JSON)
  : Py.Result (gmap string JSON) :=
  let out_json := setdefault "traffic_violation_windows" (JList []) out_json in
  n ← py_len (dict_get "traffic_violation_windows" (JList []) out_json);
  mret (<["violation" := JBool (0 <? n)%nat]> out_json).

Section TrafficSignal.
Context {frame : Type}.

(** The [while True] loop over the frames after the first one.  The body
    after the sampling test is empty: nothing is appended to
    [violations]. *)
Fixpoint ts_scan (step : Z) (frames : list frame) (idx : Z)
    (violations : list (list (string * Q))) : Z * list (list (string * Q)) :=
  match frames with
  | [] => (idx, violations)
  | _ :: rest =>
      let idx := (idx + 1)%Z in
      if negb (idx mod step =? 0)%Z
      then ts_scan step rest idx violations
      else ts_scan step rest idx violations
  end.

Definition run_traffic_signal_summary (cap : VideoCapture frame)
  : Py.Result (gmap string JSON) :=
  if negb (isOpened cap)
  then Py.Raise (Py.RuntimeError ("Could not open video: " ++ path cap))
  else
    let fps := fps_or_30 cap in
    let step := sampling_step fps PROCESS_HZ_TS in
    let violations := [] in
    let '(dur_sec, violations) :=
      match stream cap with
      | [] => (0.0, violations)
      | first :: rest =>
          let '(idx, violations) := ts_scan step rest 0 violations in
          let total_frames := Py.or_default (CAP_PROP_FRAME_COUNT cap) 0 in
          (if 0 <? total_frames
           then total_frames / fps
           else Py.or_default (CAP_PROP_POS_MSEC cap) 0.0 / 1000.0,
           violations)
      end in
    let out : gmap string JSON := {[ "violations"%string := JList violations ]} in
    _postprocess_smoother (Py.round_n dur_sec 3) out.

End TrafficSignal.

(** *** Close encounters *)

Definition PROC_HZ_CE : Q := 8.0.
Definition EMA_A : Q := 0.25.
Definition BASE_SEC : Q := 1.5.
Definition ENTER_K : Q := 0.18.
Definition EXIT_K : Q := 0.10.
Definition DERIV_MIN : Q := 0.04.
Definition MIN_BOX_H : Q := 0.14.
Definition MERGE_GAP : Q := 2.0.

(** [cur_event] while the state is ["in_event"]: it has no [end_time]
    yet. *)
Record OpenEvent : Type := {
  o_start_time : Q;
  o_peak_time : Q;
  o_peak_score : Q;
  o_where : string;
  o_max_box_height_norm : Q
}.

(** An event of the [events] list. *)
Record Event : Type := {
  start_time : Q;
  peak_time : Q;
  peak_score : Q;
  where_ : string;
  max_box_height_norm : Q;
  end_time : Q
}.

(** [cur_event["end_time"] = t_end] *)
Definition close_event (o : OpenEvent) (t_end : Q) : Event :=
  {| start_time := o_start_time o;
     peak_time := o_peak_time o;
     peak_score := o_peak_score o;
     where_ := o_where o;
     max_box_height_norm := o_max_box_height_norm o;
     end_time := t_end |}.

Inductive State : Type := idle | in_event.

(** What one sampled frame contributes to the hysteresis machine. *)
Record Signal : Type := {
  t : Q;
  fused : Q;
  d1 : Q;
  peak_band : nat;
  peak_box_h : Q;
  enter_thr : Q;
  exit_thr : Q
}.

Record Machine : Type := {
  state : State;
  cur_event : option OpenEvent;
  events : list Event
}.

Definition band_name (peak_band : nat) : string :=
  nth peak_band ["left"; "center"; "right"]%string ""%string.

(** The [if state == "idle": ... else: ...] block of the frame loop. *)
Definition hysteresis (m : Machine) (s : Signal) : Machine :=
  let box_ok := MIN_BOX_H * 0.9 <=? peak_box_h s in
  match state m, cur_event m with
  | idle, _ =>
      if (enter_thr s <=? fused s) && (DERIV_MIN <=? d1 s) && box_ok
      then {| state := in_event;
              cur_event := Some {| o_start_time := Py.round_n (t s) 2;
                                   o_peak_time := Py.round_n (t s) 2;
                                   o_peak_score := Py.round_n (fused s) 3;
                                   o_where := band_name (peak_band s);
                                   o_max_box_height_norm := Py.round_n (peak_box_h s) 3 |};
              events := events m |}
      else m
  | in_event, Some cur =>
      let cur :=
        if o_peak_score cur <? fused s
        then {| o_start_time := o_start_time cur;
                o_peak_time := Py.round_n (t s) 2;
                o_peak_score := Py.round_n (fused s) 3;
                o_where := band_name (peak_band s);
                o_max_box_height_norm := Py.round_n (peak_box_h s) 3 |}
        else cur in
      if fused s <=? exit_thr s
      then {| state := idle;
              cur_event := None;
              events := events m ++ [close_event cur (Py.round_n (t s) 2)] |}
      else {| state := in_event; cur_event := Some cur; events := events m |}
  | in_event, None => m (* no such state: [cur_event] is set on entry *)
  end.

(** The per-band running values: [vals[bi]], the deque [bases[bi]] and
    [ema[bi]]. *)
Record Band : Type := {
  vals : list Q;
  bases : list Q;
  ema : Q
}.

(** [max(3, int(BASE_SEC * PROC_HZ_CE))], the [maxlen] of [bases[bi]]. *)
Definition BASE_LEN : nat := Nat.max 3 (Z.to_nat (Py.int (BASE_SEC * PROC_HZ_CE))).

(** One round of [for bi, (x0, y0, x1, y1) in enumerate(bands_px)], from
    the band's [hmax] and [exp_med]. *)
Definition band_update (b : Band) (hmax exp_med : Q) : Band :=
  let score := Py.max hmax 0.0 + 1.0 * Py.max exp_med 0.0 in
  let ema' :=
    match vals b with
    | [] => score
    | _ => EMA_A * score + (1 - EMA_A) * ema b
    end in
  {| vals := vals b ++ [ema'];
     bases := Py.deque_append BASE_LEN (bases b) ema';
     ema := ema' |}.

(** The fused score, its derivative and the thresholds of one sampled
    frame; [bands] are the bands after [band_update], [band_box_h] the
    three [hmax], [ntimes] is [len(times)]. *)
Definition frame_signal (bands : list Band) (band_box_h : list Q)
    (ntimes : nat) (t_now : Q) : Signal :=
  let band_scores := map ema bands in
  let medians :=
    map (fun b => if (3 <=? length (bases b))%nat
                  then Py.median (bases b) else 0.0) bands in
  let fused_now := Py.max_list band_scores in
  let fused_prev :=
    if (ntimes <? 2)%nat then fused_now
    else Py.max_list (map (fun b => nth (length (vals b) - 2) (vals b) 0) bands) in
  let pb := Py.argmax band_scores in
  {| t := t_now;
     fused := fused_now;
     d1 := fused_now - fused_prev;
     peak_band := pb;
     peak_box_h := nth pb band_box_h 0;
     enter_thr := Py.median medians + ENTER_K;
     exit_thr := Py.median medians + EXIT_K |}.

(** [if state == "in_event" and cur_event: ...] after the loop;
    [last_t] is [times[-1]]. *)
Definition force_close (m : Machine) (last_t : Q) : list Event :=
  match state m, cur_event m with
  | in_event, Some cur => events m ++ [close_event cur (Py.round_n last_t 2)]
  | _, _ => events m
  end.

(** [final]: the events with [(e["end_time"] - e["start_time"]) >= 0.2].
    The two times are the floats that [round(t, 2)] returned, and [0.2]
    is the float of that literal. *)
Definition final_events (events : list Event) : list Event :=
  List.filter (fun e => Py.fl 0.2 <=? Py.fsub (end_time e) (start_time e)) events.

(** The body of the merge branch: [merged[-1]] takes the later event's
    peak when it is strictly higher, and its [end_time] in any case. *)
Definition absorb (m e : Event) : Event :=
  let m :=
    if peak_score m <? peak_score e
    then {| start_time := start_time m;
            peak_time := peak_time e;
            peak_score := peak_score e;
            where_ := where_ e;
            max_box_height_norm := max_box_height_norm e;
            end_time := end_time m |}
    else m in
  {| start_time := start_time m;
     peak_time := peak_time m;
     peak_score := peak_score m;
     where_ := where_ m;
     max_box_height_norm := max_box_height_norm m;
     end_time := end_time e |}.

(** One round of [for e in final[1:]]; the test is
    [(e["start_time"] - merged[-1]["end_time"]) <= MERGE_GAP] between
    floats. *)
Definition merge_step (merged : list Event) (e : Event) : list Event :=
  match last merged with
  | Some m =>
      if Py.fsub (start_time e) (end_time m) <=? Py.fl MERGE_GAP
      then <[(length merged - 1)%nat := absorb m e]> merged
      else merged ++ [e]
  | None => merged ++ [e] (* no such round: [merged] starts with [final[0]] *)
  end.

Definition merge_events (final : list Event) : list Event :=
  match final with
  | [] => []
  | e0 :: rest => foldl merge_step [e0] rest
  end.

Record Encounters : Type := {
  close_encounters : list Event;
  event_count : nat;
  note : option string
}.

Section CloseEncounters.
Context {frame : Type}.

(** The module flag set by [from ultralytics import YOLO]. *)
Variable _HAS_YOLO : bool.

(** The detector, the band geometry and [_expansion_score], as one
    black box: from the frames handed to the tracker so far (the first
    frame [f0], which fixes the geometry, then the sampled ones; the
    last of them is [prev_gray]) and the current frame, the pair
    [(hmax, exp_med)] of band [bi]. *)
Variable band_observation : list frame -> frame -> nat -> Q * Q.

Record Loop : Type := {
  bands : list Band;
  times : list Q;
  machine : Machine;
  seen : list frame;
  i : Z
}.

Definition loop_init (f0 : frame) : Loop :=
  {| bands := replicate 3 {| vals := []; bases := []; ema := 0.0 |};
     times := [];
     machine := {| state := idle; cur_event := None; events := [] |};
     seen := [f0];
     i := 0 |}.

(** The body of the frame loop after the sampling test, for the frame
    [fr] of index [idx]. *)
Definition ce_sample (fps : Q) (st : Loop) (idx : Z) (fr : frame) : Loop :=
  let t_now := frame_time fps idx in
  let times' := times st ++ [t_now] in
  let obs := map (band_observation (seen st) fr) [0; 1; 2]%nat in
  let bands' := zip_with (fun b o => band_update b (fst o) (snd o)) (bands st) obs in
  let s := frame_signal bands' (map fst obs) (length times') t_now in
  {| bands := bands'; times := times'; machine := hysteresis (machine st) s;
     seen := seen st ++ [fr]; i := idx |}.

(** One round of the [while True] frame loop:
    [i += 1; if i % step != 0: continue], then the body. *)
Definition ce_frame (fps : Q) (step : Z) (st : Loop) (fr : frame) : Loop :=
  let i' := (i st + 1)%Z in
  if negb (i' mod step =? 0)%Z
  then {| bands := bands st; times := times st; machine := machine st;
          seen := seen st; i := i' |}
  else ce_sample fps st i' fr.

Definition run_close_encounters (cap : VideoCapture frame) : Py.Result Encounters :=
  if negb _HAS_YOLO
  then Py.Return {| close_encounters := []; event_count := 0;
                    note := Some "ultralytics not installed"%string |}
  else if negb (isOpened cap)
  then Py.Raise (Py.RuntimeError "Could not open video")
  else
    let fps := fps_or_30 cap in
    let step := sampling_step fps PROC_HZ_CE in
    match stream cap with
    | [] => Py.Return {| close_encounters := []; event_count := 0; note := None |}
    | f0 :: rest =>
        let st := foldl (ce_frame fps step) (loop_init f0) rest in
        let events := force_close (machine st) (default 0 (last (times st))) in
        let merged := merge_events (final_events events) in
        Py.Return {| close_encounters := merged; event_count := length merged;
                     note := None |}
    end.

End CloseEncounters.

(** *** Average speed *)

Definition min_speed : Q := 0.0.
Definition max_speed : Q := 150.0.

(** The speed sample of one frame pair, from the non-empty array
    [valid_flows] of positive flow magnitudes. *)
Definition frame_speed (valid_flows : list Q) (meters_per_pixel fps : Q)
    (sample_rate : Z) : Q :=
  let flow_magnitude := Py.percentile valid_flows 75 in
  let speed_mps := flow_magnitude * meters_per_pixel * (fps / inject_Z sample_rate) in
  let speed_kmph := speed_mps * 3.6 in
  Py.clip speed_kmph min_speed max_speed.

(** The part of [calculate_average_speed] after [cap.release()]. *)
Definition aggregate_speeds (all_frame_speeds_kmph : list Q) : Q :=
  match all_frame_speeds_kmph with
  | [] => 0.0
  | _ =>
      let speeds_array := all_frame_speeds_kmph in
      let q1 := Py.percentile speeds_array 25 in
      let q3 := Py.percentile speeds_array 75 in
      let iqr := q3 - q1 in
      let lower_bound := Py.max min_speed (q1 - 1.5 * iqr) in
      let upper_bound := Py.min max_speed (q3 + 1.5 * iqr) in
      let filtered_speeds :=
        List.filter (fun s => (lower_bound <=? s) && (s <=? upper_bound)) speeds_array in
      let filtered_speeds :=
        match filtered_speeds with
        | [] => speeds_array
        | _ => filtered_speeds
        end in
      Py.mean filtered_speeds
  end.

Section AverageSpeed.
Context {frame : Type}.

(** [frame.shape[0]] *)
Variable shape0 : frame -> Z.
(** [gray[a:b, :].size] *)
Variable roi_size : frame -> Z -> Z -> Z.
(** [cv2.calcOpticalFlowFarneback] between rows [a:b] of two frames and
    the magnitude [sqrt(fx**2 + fy**2)] of every flow vector; [None]
    when the flow is [None]. *)
Variable flow_magnitudes : frame -> frame -> Z -> Z -> option (list Q).

Record SpeedLoop : Type := {
  frame_count : Z;
  prev_gray_frame : option frame;
  all_frame_speeds_kmph : list Q
}.

(** The body of the frame loop after the sampling test, for the frame
    [fr] of index [fc]. *)
Definition speed_sample (meters_per_pixel roi_top roi_bottom fps : Q) (rate : Z)
    (st : SpeedLoop) (fc : Z) (fr : frame) : SpeedLoop :=
  let skip prev := {| frame_count := fc; prev_gray_frame := prev;
                      all_frame_speeds_kmph := all_frame_speeds_kmph st |} in
  match prev_gray_frame st with
  | None => skip (Some fr)
  | Some prev =>
      let h := shape0 fr in
      let roi_start_y := Py.int (inject_Z h * roi_top) in
      let roi_end_y := Py.int (inject_Z h * roi_bottom) in
      if (roi_size prev roi_start_y roi_end_y =? 0)%Z
         || (roi_size fr roi_start_y roi_end_y =? 0)%Z
      then skip (Some prev)
      else
        match flow_magnitudes prev fr roi_start_y roi_end_y with
        | Some magnitude =>
            let valid_flows := List.filter (fun m => 0 <? m) magnitude in
            if (0 <? length valid_flows)%nat
            then {| frame_count := fc; prev_gray_frame := Some fr;
                    all_frame_speeds_kmph :=
                      all_frame_speeds_kmph st
                        ++ [frame_speed valid_flows meters_per_pixel fps rate] |}
            else skip (Some fr)
        | None => skip (Some fr)
        end
  end.

(** One round of the [while True] frame loop:
    [frame_count += 1; if frame_count % sample_rate != 0: continue], then
    the body. *)
Definition speed_frame (meters_per_pixel roi_top roi_bottom fps : Q) (rate : Z)
    (st : SpeedLoop) (fr : frame) : SpeedLoop :=
  let fc := (frame_count st + 1)%Z in
  if negb (fc mod rate =? 0)%Z
  then {| frame_count := fc; prev_gray_frame := prev_gray_frame st;
          all_frame_speeds_kmph := all_frame_speeds_kmph st |}
  else speed_sample meters_per_pixel roi_top roi_bottom fps rate st fc fr.

Definition calculate_average_speed (cap : VideoCapture frame)
    (meters_per_pixel roi_top roi_bottom : Q) : Q :=
  if negb (isOpened cap) then 0.0
  else
    let fps := fps_or_30 cap in
    let rate := sample_rate fps in
    let st := foldl (speed_frame meters_per_pixel roi_top roi_bottom fps rate)
                    {| frame_count := 0; prev_gray_frame := None;
                       all_frame_speeds_kmph := [] |}
                    (stream cap) in
    aggregate_speeds (all_frame_speeds_kmph st).

End AverageSpeed.

(** *** Turn count and lane-change count *)

Definition PROCESS_HZ_TURN : Q := 10.0.
Definition PROCESS_HZ_LC : Q := 8.0.

Record TurnCount : Type := {
  turn_count : Z;
  left : Z;
  right : Z
}.

Definition no_turns : TurnCount := {| turn_count := 0; left := 0; right := 0 |}.

Section Turns.
Context {frame : Type}.

(** The feature matching and the turn state machine of [run_turn_count],
    and the flow scoring and counting of [run_lane_change_count]: all
    that follows the first [cap.read()], from the first frame, the
    remaining ones, [fps] and [step].  The two entry points are written
    over any such scan; the scans of the source are [scan_turns] and
    [scan_lane_changes] below. *)
Variable turn_scan : frame -> list frame -> Q -> Z -> TurnCount.
Variable lane_change_scan : frame -> list frame -> Q -> Z -> TurnCount.

Definition run_turn_count (cap : VideoCapture frame) : Py.Result TurnCount :=
  if negb (isOpened cap) then Py.Return no_turns
  else
    let fps := fps_or_30 cap in
    let step := sampling_step fps PROCESS_HZ_TURN in
    match stream cap with
    | [] => Py.Return no_turns
    | f0 :: rest => Py.Return (turn_scan f0 rest fps step)
    end.

Definition run_lane_change_count (cap : VideoCapture frame) : Py.Result TurnCount :=
  if negb (isOpened cap) then Py.Return no_turns
  else
    let fps := fps_or_30 cap in
    let step := sampling_step fps PROCESS_HZ_LC in
    match stream cap with
    | [] => Py.Return no_turns
    | f0 :: rest => Py.Return (lane_change_scan f0 rest fps step)
    end.

End Turns.

(** *** The turn state machine *)

Definition ANGLE_THRESH_DEG : Q := 25.0.
Definition OMEGA_THRESH_DPS : Q := 8.0.
Definition SMOOTH_WIN : Z := 5.
Definition ARM_FRAMES : nat := 6.
Definition RELEASE_FRAMES : nat := 6.
Definition MIN_TURN_SEC : Q := 0.7.

(** [y[i]] is the median of the entries of [x] at most [k // 2] places
    away from [i]. *)
Definition _median_filter (x : list Q) (k : Z) : list Q :=
  if (k <=? 1)%Z then x
  else
    let r := Z.to_nat (k / 2) in
    imap (fun i _ =>
            let s := (i - r)%nat in
            let e := Nat.min (length x) (i + r + 1) in
            Py.median (Py.slice x s e)) x.

Inductive Direction : Type := dir_left | dir_right.

Definition direction_eqb (a b : Direction) : bool :=
  match a, b with
  | dir_left, dir_left | dir_right, dir_right => true
  | _, _ => false
  end.

(** ["right" if w >= 0 else "left"] *)
Definition direction_of (w : Q) : Direction :=
  if 0 <=? w then dir_right else dir_left.

(** [state]; [direction], [start_i] and [start_heading] are set while
    it is ["turning"]. *)
Inductive TurnState : Type :=
| turn_idle
| turning (direction : Direction) (start_i : nat) (start_heading : Q).

Record TurnLoop : Type := {
  turn_state : TurnState;
  arm : list bool;
  rel : list bool;
  turn_events : list Direction
}.

Definition turn_init : TurnLoop :=
  {| turn_state := turn_idle; arm := []; rel := []; turn_events := [] |}.

(** One round of [for i in range(len(times))].  The deque [arm] is full
    only from the sixth round after it was cleared, so
    [i - ARM_FRAMES + 1] is not negative where it is used. *)
Definition turn_step (omega_s heading times : list Q) (st : TurnLoop) (i : nat)
  : TurnLoop :=
  let w := nth i omega_s 0 in
  let turning_now := OMEGA_THRESH_DPS <=? Qabs w in
  let arm' := Py.deque_append ARM_FRAMES (arm st) turning_now in
  match turn_state st with
  | turn_idle =>
      if (length arm' =? ARM_FRAMES)%nat && forallb id arm'
      then
        let start_i := (i + 1 - ARM_FRAMES)%nat in
        let direction := direction_of (Py.median (Py.slice omega_s start_i (i + 1))) in
        {| turn_state := turning direction start_i (nth start_i heading 0);
           arm := arm'; rel := []; turn_events := turn_events st |}
      else {| turn_state := turn_idle; arm := arm'; rel := rel st;
              turn_events := turn_events st |}
  | turning direction start_i start_heading =>
      let same_dir := direction_eqb direction (direction_of w) in
      let rel' := Py.deque_append RELEASE_FRAMES (rel st)
                    (negb turning_now || negb same_dir) in
      let delta := (nth i heading 0 - start_heading)
                   * (match direction with dir_right => 1 | dir_left => -1 end) in
      let long_enough :=
        Py.fl MIN_TURN_SEC <=? Py.fsub (nth i times 0) (nth start_i times 0) in
      if ((length rel' =? RELEASE_FRAMES)%nat && forallb id rel')
         || ((ANGLE_THRESH_DEG <=? delta) && long_enough)
      then {| turn_state := turn_idle; arm := []; rel := [];
              turn_events := turn_events st ++ [direction] |}
      else {| turn_state := turning direction start_i start_heading;
              arm := arm'; rel := rel'; turn_events := turn_events st |}
  end.

(** [sum(1 for e in events if e == d)] *)
Definition count_direction (d : Direction) (events : list Direction) : Z :=
  Z.of_nat (length (List.filter (direction_eqb d) events)).

(** [times]: [t_idx += step; times.append(t_idx / fps)] stamps the
    [k]-th accepted rotation [(k + 1) * step / fps]. *)
Definition turn_times (n : nat) (fps : Q) (step : Z) : list Q :=
  map (fun k => frame_time fps (Z.of_nat (k + 1) * step)) (seq 0 n).

(** The part of [run_turn_count] after [cap.release()], from the
    rotation angles [angles_deg] of the accepted frame pairs.  ([fps] is
    not zero and [step >= 1], so no division is by zero.) *)
Definition count_turns (angles_deg : list Q) (fps : Q) (step : Z) : TurnCount :=
  if (length angles_deg <? 3)%nat then no_turns
  else
    let times := turn_times (length angles_deg) fps step in
    let eff_hz := fps / inject_Z step in
    let omega := map (fun a => a * eff_hz) angles_deg in
    let omega_s := _median_filter omega SMOOTH_WIN in
    let heading := Py.cumsum (map (fun w => w / eff_hz) omega_s) in
    let st := foldl (turn_step omega_s heading times) turn_init (seq 0 (length times)) in
    let events := turn_events st in
    {| turn_count := Z.of_nat (length events);
       left := count_direction dir_left events;
       right := count_direction dir_right events |}.

Section TurnFrames.
Context {frame : Type}.

(** The ORB key points of the ROIs of two frames, their ratio-tested
    matches and [cv2.estimateAffinePartial2D]: from the first frame of
    the video, which fixes the ROI, the key frame ([kp0], [des0]) and the
    current frame, [degrees(theta)] of the estimated map, or [None] when
    a descriptor is missing, fewer than 6 key points or good matches are
    found, or no map is estimated. *)
Variable rotation_deg : frame -> frame -> frame -> option Q.

Record TurnFrames : Type := {
  t_key : frame;
  t_angles_deg : list Q;
  t_frame_idx : Z
}.

(** The body of the frame loop after the sampling test: every path ends
    with [kp0, des0 = kp1, des1]. *)
Definition turn_sample (f0 : frame) (st : TurnFrames) (idx : Z) (fr : frame)
  : TurnFrames :=
  {| t_key := fr;
     t_angles_deg :=
       match rotation_deg f0 (t_key st) fr with
       | Some theta_deg => t_angles_deg st ++ [theta_deg]
       | None => t_angles_deg st
       end;
     t_frame_idx := idx |}.

(** One round of the [while True] frame loop:
    [frame_idx += 1; if frame_idx % step != 0: continue], then the
    body. *)
Definition turn_frame (f0 : frame) (step : Z) (st : TurnFrames) (fr : frame)
  : TurnFrames :=
  let idx := (t_frame_idx st + 1)%Z in
  if negb (idx mod step =? 0)%Z
  then {| t_key := t_key st; t_angles_deg := t_angles_deg st; t_frame_idx := idx |}
  else turn_sample f0 st idx fr.

(** [run_turn_count] after the first [cap.read()]. *)
Definition scan_turns (f0 : frame) (rest : list frame) (fps : Q) (step : Z)
  : TurnCount :=
  let st := foldl (turn_frame f0 step)
                  {| t_key := f0; t_angles_deg := []; t_frame_idx := 0 |} rest in
  count_turns (t_angles_deg st) fps step.

End TurnFrames.

(** *** The lane-change state machine *)

Definition EMA_ALPHA_LC : Q := 0.12.
Definition ENTER_THR_LC : Q := 0.50.
Definition EXIT_THR_LC : Q := 0.30.
Definition MIN_TURN_SEC_LC : Q := 1.0.

(** The score of one sampled frame.  [motion] is [None] when no flow
    vector is stronger than [MAG_THRESH_LC], else [np.sum(m) / m.size],
    [np.mean(u[m])] and [np.mean(v[m])]. *)
Definition lane_score (motion : option (Q * Q * Q)) : Q :=
  match motion with
  | Some (motion_coverage, mean_u, mean_v) =>
      let mean_horizontal := mean_u in
      let mean_vertical := Qabs mean_v in
      if (0.10 <? motion_coverage)
         && (mean_vertical * 1.2 <? Qabs mean_horizontal)
         && (0.8 <? Qabs mean_horizontal)
      then mean_horizontal / (mean_vertical + 0.000001)
      else 0.0
  | None => 0.0
  end.

Record LaneLoop : Type := {
  lc_ema : Q;
  lc_turning : bool;
  turn_dir : Z;
  right_count : Z;
  left_count : Z;
  frames_in_turn : Z
}.

Definition lane_init : LaneLoop :=
  {| lc_ema := 0.0; lc_turning := false; turn_dir := 0; right_count := 0;
     left_count := 0; frames_in_turn := 0 |}.

(** [(right_count, left_count)] after a manoeuvre ends: it counts when
    it lasted [MIN_TURN_SEC_LC].  ([fps / step] is not zero.) *)
Definition count_manoeuvre (fps : Q) (step : Z) (st : LaneLoop) : Z * Z :=
  let dur_sec := inject_Z (frames_in_turn st) / (fps / inject_Z step) in
  if MIN_TURN_SEC_LC <=? dur_sec
  then if (0 <? turn_dir st)%Z
       then ((right_count st + 1)%Z, left_count st)
       else (right_count st, (left_count st + 1)%Z)
  else (right_count st, left_count st).

(** The state update of one sampled frame, from its score. *)
Definition lane_step (fps : Q) (step : Z) (st : LaneLoop) (score : Q) : LaneLoop :=
  let ema := EMA_ALPHA_LC * score + (1.0 - EMA_ALPHA_LC) * lc_ema st in
  let abs_ema := Qabs ema in
  let dir_now := if 0 <=? ema then 1%Z else (-1)%Z in
  if negb (lc_turning st)
  then
    if ENTER_THR_LC <=? abs_ema
    then {| lc_ema := ema; lc_turning := true; turn_dir := dir_now;
            right_count := right_count st; left_count := left_count st;
            frames_in_turn := 1 |}
    else {| lc_ema := ema; lc_turning := false; turn_dir := turn_dir st;
            right_count := right_count st; left_count := left_count st;
            frames_in_turn := frames_in_turn st |}
  else
    if (EXIT_THR_LC <=? abs_ema) && (dir_now =? turn_dir st)%Z
    then {| lc_ema := ema; lc_turning := true; turn_dir := turn_dir st;
            right_count := right_count st; left_count := left_count st;
            frames_in_turn := (frames_in_turn st + 1)%Z |}
    else
      let '(r, l) := count_manoeuvre fps step st in
      {| lc_ema := ema; lc_turning := false; turn_dir := 0;
         right_count := r; left_count := l; frames_in_turn := 0 |}.

(** The counting of [run_lane_change_count], from the motion of the
    sampled frames: the loop, then the manoeuvre still open at the end
    of the video. *)
Definition count_lane_changes (motions : list (option (Q * Q * Q))) (fps : Q) (step : Z)
  : TurnCount :=
  let st := foldl (lane_step fps step) lane_init (map lane_score motions) in
  let '(r, l) := if lc_turning st then count_manoeuvre fps step st
                 else (right_count st, left_count st) in
  {| turn_count := (l + r)%Z; left := l; right := r |}.

Section LaneFrames.
Context {frame : Type}.

(** [cv2.calcOpticalFlowFarneback] between the ROIs of the previous
    sampled frame and the current one (the first frame of the video fixes
    the ROI) and its summary: [None] when no flow vector is stronger
    than [MAG_THRESH_LC], else the coverage and the two means. *)
Variable lateral_flow : frame -> frame -> frame -> option (Q * Q * Q).

Record LaneFrames : Type := {
  l_prev : frame;
  l_motions : list (option (Q * Q * Q));
  l_frame_idx : Z
}.

(** The flow of the frame loop's body after the sampling test; it ends
    with [prev = cur]. *)
Definition lane_sample (f0 : frame) (st : LaneFrames) (idx : Z) (fr : frame)
  : LaneFrames :=
  {| l_prev := fr;
     l_motions := l_motions st ++ [lateral_flow f0 (l_prev st) fr];
     l_frame_idx := idx |}.

(** One round of the [while True] frame loop:
    [frame_idx += 1; if frame_idx % step != 0: continue], then the
    body. *)
Definition lane_frame (f0 : frame) (step : Z) (st : LaneFrames) (fr : frame)
  : LaneFrames :=
  let idx := (l_frame_idx st + 1)%Z in
  if negb (idx mod step =? 0)%Z
  then {| l_prev := l_prev st; l_motions := l_motions st; l_frame_idx := idx |}
  else lane_sample f0 st idx fr.

(** [run_lane_change_count] after the first [cap.read()]. *)
Definition scan_lane_changes (f0 : frame) (rest : list frame) (fps : Q) (step : Z)
  : TurnCount :=
  let st := foldl (lane_frame f0 step)
                  {| l_prev := f0; l_motions := []; l_frame_idx := 0 |} rest in
  count_lane_changes (l_motions st) fps step.

End LaneFrames.

(** *** Bus-lane colour *)

Definition ROI_WIDTH_FRAC : Q := 0.22.
Definition ROI_HEIGHT_FRAC : Q := 0.18.
Definition ROI_BOTTOM_GAP : Q := 0.04.
Definition MIN_RED_COVERAGE : Q := 0.12.
Definition BUFFER_SIZE_FRAMES : nat := 12.
Definition MIN_DURATION_SEC : Q := 1.0.

Definition _get_roi_rect (h w : Z) : Z * Z * Z * Z :=
  let roi_w := Py.int (inject_Z w * ROI_WIDTH_FRAC) in
  let roi_h := Py.int (inject_Z h * ROI_HEIGHT_FRAC) in
  let cx := (w / 2)%Z in
  let x1 := Z.max 0 (cx - roi_w / 2) in
  let x2 := Z.min w (cx + roi_w / 2) in
  let y2 := Py.int (inject_Z h * (1.0 - ROI_BOTTOM_GAP)) in
  let y1 := Z.max 0 (y2 - roi_h) in
  (x1, y1, x2, y2).

(** An entry of [ranges]: ["end_time"] is absent until the window
    closes. *)
Record Range : Type := {
  r_start_time : Q;
  r_end_time : option Q
}.

Record BusLoop : Type := {
  buffer : list bool;
  violation_active : bool;
  ranges : list Range;
  frame_idx : Z
}.

Definition bus_init : BusLoop :=
  {| buffer := []; violation_active := false; ranges := []; frame_idx := 0 |}.

(** [if "end_time" not in ranges[-1]: ranges[-1]["end_time"] = end_t] *)
Definition set_end_if_absent (ranges : list Range) (end_t : Q) : list Range :=
  match last ranges with
  | Some r =>
      match r_end_time r with
      | None => <[(length ranges - 1)%nat :=
                   {| r_start_time := r_start_time r; r_end_time := Some end_t |}]> ranges
      | Some _ => ranges
      end
  | None => ranges
  end.

(** One round of the frame loop, from the frame's [on_bus_lane] flag. *)
Definition bus_step (fps : Q) (st : BusLoop) (on_bus_lane : bool) : BusLoop :=
  let idx := (frame_idx st + 1)%Z in
  let buf := Py.deque_append BUFFER_SIZE_FRAMES (buffer st) on_bus_lane in
  let '(rs, active) :=
    if negb (violation_active st)
       && (length buf =? BUFFER_SIZE_FRAMES)%nat && forallb id buf
    then (ranges st ++ [{| r_start_time := frame_time fps idx; r_end_time := None |}], true)
    else (ranges st, violation_active st) in
  let '(rs, active) :=
    if active && (length buf =? BUFFER_SIZE_FRAMES)%nat && negb (existsb id buf)
    then (set_end_if_absent rs (frame_time fps idx), false)
    else (rs, active) in
  {| buffer := buf; violation_active := active; ranges := rs; frame_idx := idx |}.

(** The ranges once the stream has ended: an open window is closed at the
    last frame. *)
Definition bus_close (fps : Q) (st : BusLoop) : list Range :=
  if violation_active st
  then set_end_if_absent (ranges st) (frame_time fps (frame_idx st))
  else ranges st.

(** [final]: the closed windows with
    [(r["end_time"] - r["start_time"]) >= MIN_DURATION_SEC], a comparison
    between floats. *)
Fixpoint bus_final (ranges : list Range) : list (Q * Q) :=
  match ranges with
  | [] => []
  | r :: rest =>
      match r_end_time r with
      | Some e =>
          if Py.fl MIN_DURATION_SEC <=? Py.fsub e (r_start_time r)
          then (Py.round_n (r_start_time r) 2, Py.round_n e 2) :: bus_final rest
          else bus_final rest
      | None => bus_final rest
      end
  end.

Record BusLane : Type := {
  violation_detected : bool;
  violation_ranges : list (Q * Q)
}.

Section BusLaneColor.
Context {frame : Type}.

(** [_red_mask_hsv] on the ROI of a frame and the share of its non-zero
    pixels: [count_nonzero(mask) / (mask.size + 1e-6)]. *)
Variable red_coverage : frame -> Z * Z * Z * Z -> Q.

Definition on_bus_lane (roi : Z * Z * Z * Z) (fr : frame) : bool :=
  MIN_RED_COVERAGE <=? red_coverage fr roi.

Definition run_bus_lane_color (cap : VideoCapture frame) : Py.Result BusLane :=
  if negb (isOpened cap)
  then Py.Return {| violation_detected := false; violation_ranges := [] |}
  else
    let fps := fps_or_30 cap in
    let w := Py.int (CAP_PROP_FRAME_WIDTH cap) in
    let h := Py.int (CAP_PROP_FRAME_HEIGHT cap) in
    let roi := _get_roi_rect h w in
    let st := foldl (bus_step fps) bus_init (map (on_bus_lane roi) (stream cap)) in
    let final := bus_final (bus_close fps st) in
    Py.Return {| violation_detected := match final with [] => false | _ => true end;
                 violation_ranges := final |}.

End BusLaneColor.

End MainV2.

(** ** [enhanced_proximity_detection.py] *)

Module EnhancedProximity.
Import Cv2.

Definition DANGEROUS_DISTANCE_M : Q := 15.0.
Definition CRITICAL_DISTANCE_M : Q := 8.0.
Definition TTC_THRESHOLD_SEC : Q := 4.0.
Definition MIN_TRACK_FRAMES : nat := 5.
Definition MIN_BOX_HEIGHT_RATIO : Q := 0.20.

(** The fields of [self] that the detector reads. *)
Record Detector : Type := {
  fps : Q;
  width : Z;
  height : Z;
  focal_length : Q
}.

(** [EnhancedProximityDetector.__init__].  [np.tan(np.radians(90 / 2))]
    is 1. *)
Definition init {frame : Type} (cap : VideoCapture frame) : Py.Result Detector :=
  if negb (isOpened cap)
  then Py.Raise (Py.RuntimeError ("Cannot open video: " ++ path cap))
  else
    let w := Py.int (CAP_PROP_FRAME_WIDTH cap) in
    Py.Return {| fps := fps_or_30 cap;
                 width := w;
                 height := Py.int (CAP_PROP_FRAME_HEIGHT cap);
                 focal_length := inject_Z w / (2 * 1) |}.

Definition Box : Type := Z * Z * Z * Z.

Definition real_heights : gmap string Q :=
  list_to_map [("car", 1.5); ("truck", 3.0); ("bus", 3.5);
               ("motorcycle", 1.2); ("bicycle", 1.5)]%string.

Definition estimate_distance (self : Detector) (box : Box) (vehicle_class : string) : Q :=
  let '(x1, y1, x2, y2) := box in
  let box_height_px := (y2 - y1)%Z in
  if (box_height_px <=? 0)%Z then 100.0
  else
    let real_height := default 1.5 (real_heights !! vehicle_class) in
    let distance := (real_height * focal_length self) / inject_Z box_height_px in
    let y_center := inject_Z (y1 + y2) / 2 in
    let horizon_y := inject_Z (height self) * 0.45 in
    let distance := if y_center <? horizon_y then distance * 1.5 else distance in
    Py.clip distance 1.0 100.0.

(** An entry of a track's [history]. *)
Record Sample : Type := {
  time : Q;
  distance : Q;
  box : Box;
  box_height : Z;
  center_x : Q;
  center_y : Q;
  class : string;
  is_frontal : bool
}.

Definition calculate_ttc (track_history : list Sample) : Py.ExtQ :=
  if (length track_history <? 3)%nat then Py.Inf
  else
    let recent := Py.last_n (Nat.min 5 (length track_history)) track_history in
    let distances := map distance recent in
    let times := map time recent in
    if (length times <? 2)%nat then Py.Inf
    else
      let time_diffs := map (fun x => x - nth 0 times 0) times in
      if (length time_diffs <? 2)%nat then Py.Inf
      else
        let slope := Py.polyfit_slope time_diffs distances in
        if -0.1 <=? slope then Py.Inf
        else
          let current_distance := default 0 (last distances) in
          Py.Fin (current_distance / Qabs slope).

Definition is_lateral_movement (self : Detector) (track_history : list Sample) : bool :=
  if (length track_history <? 3)%nat then false
  else
    let recent := Py.last_n (Nat.min 5 (length track_history)) track_history in
    let x_positions := map center_x recent in
    let x_movement := Qabs (default 0 (last x_positions) - nth 0 x_positions 0) in
    inject_Z (width self) * 0.3 <? x_movement.

(** A value of [vehicle_tracks]; the keys ['peak_time'],
    ['peak_distance'] and ['ttc'] are absent until the first danger
    peak. *)
Record Track : Type := {
  history : list Sample;
  first_frame : Z;
  last_frame : Z;
  min_distance : Py.ExtQ;
  max_danger_score : Q;
  is_dangerous : bool;
  peak_time : option Q;
  peak_distance : option Q;
  ttc : option Q
}.

(** The [defaultdict] factory. *)
Definition new_track : Track :=
  {| history := []; first_frame := 0; last_frame := 0; min_distance := Py.Inf;
     max_danger_score := 0.0; is_dangerous := false;
     peak_time := None; peak_distance := None; ttc := None |}.

(** [vehicle_tracks]: a dictionary in insertion order. *)
Definition Tracks : Type := list (Z * Track).

Fixpoint get_track (track_id : Z) (tracks : Tracks) : Track :=
  match tracks with
  | [] => new_track
  | (k, tr) :: rest => if (k =? track_id)%Z then tr else get_track track_id rest
  end.

Fixpoint set_track (track_id : Z) (tr : Track) (tracks : Tracks) : Tracks :=
  match tracks with
  | [] => [(track_id, tr)]
  | (k, old) :: rest =>
      if (k =? track_id)%Z then (k, tr) :: rest
      else (k, old) :: set_track track_id tr rest
  end.

(** One entry of [results[0].boxes]: the class name, [box.xyxy[0]] after
    [map(int, ...)] and [box.id]. *)
Record Detection : Type := {
  cls_name : string;
  xyxy : Box;
  id : option Z
}.

Definition vehicle_classes : list string := ["car"; "truck"; "bus"; "motorcycle"]%string.

(** The block under [if len(history) >= self.MIN_TRACK_FRAMES], for the
    track [tr] whose history already holds the current sample. *)
Definition evaluate_danger (self : Detector) (tr : Track) (time_sec dist : Q)
    (box_h : Z) (frontal : bool) : Py.Result Track :=
  let ttc_now := calculate_ttc (history tr) in
  let is_lateral := is_lateral_movement self (history tr) in
  let is_close := dist <? DANGEROUS_DISTANCE_M in
  let is_critical := dist <? CRITICAL_DISTANCE_M in
  let is_approaching := Py.ext_ltb ttc_now TTC_THRESHOLD_SEC in
  if is_close && frontal && (is_approaching || is_critical) && negb is_lateral
  then
    let distance_factor := 1.0 / Py.max dist 0.5 in
    let ttc_factor :=
      match ttc_now with
      | Py.Fin q => 1.0 / Py.max q 0.5
      | Py.Inf => 0.5
      end in
    box_factor ← Py.div (inject_Z box_h) (inject_Z (height self));
    let danger_score := distance_factor * 0.5 + ttc_factor * 0.3 + box_factor * 0.2 in
    if max_danger_score tr <? danger_score
    then mret {| history := history tr; first_frame := first_frame tr;
                 last_frame := last_frame tr; min_distance := min_distance tr;
                 max_danger_score := danger_score;
                 is_dangerous := true;
                 peak_time := Some time_sec;
                 peak_distance := Some dist;
                 ttc := Some match ttc_now with Py.Fin q => q | Py.Inf => 0 end |}
    else mret tr
  else mret tr.

(** The track after the current sample is appended and the frame numbers
    and the minimum distance are updated. *)
Definition record_sample (tr : Track) (frame_idx : Z) (s : Sample) : Track :=
  {| history := history tr ++ [s];
     first_frame := if (first_frame tr =? 0)%Z then frame_idx else first_frame tr;
     last_frame := frame_idx;
     min_distance := if Py.lt_extb (distance s) (min_distance tr)
                     then Py.Fin (distance s) else min_distance tr;
     max_danger_score := max_danger_score tr;
     is_dangerous := is_dangerous tr;
     peak_time := peak_time tr;
     peak_distance := peak_distance tr;
     ttc := ttc tr |}.

(** One round of [for box in results[0].boxes]. *)
Definition observe (self : Detector) (frame_idx : Z) (time_sec : Q)
    (vehicle_tracks : Tracks) (d : Detection) : Py.Result Tracks :=
  if negb (bool_decide (cls_name d ∈ vehicle_classes)) then mret vehicle_tracks
  else
    let '(x1, y1, x2, y2) := xyxy d in
    let box_h := (y2 - y1)%Z in
    if inject_Z box_h <? inject_Z (height self) * MIN_BOX_HEIGHT_RATIO
    then mret vehicle_tracks
    else
      match id d with
      | None => mret vehicle_tracks
      | Some track_id =>
          let dist := estimate_distance self (x1, y1, x2, y2) (cls_name d) in
          let cx := inject_Z (x1 + x2) / 2 in
          let cy := inject_Z (y1 + y2) / 2 in
          let frontal := (inject_Z (width self) * 0.3 <? cx)
                         && (cx <? inject_Z (width self) * 0.7) in
          let track_data :=
            {| time := time_sec; distance := dist; box := (x1, y1, x2, y2);
               box_height := box_h; center_x := cx; center_y := cy;
               class := cls_name d; is_frontal := frontal |} in
          let tr := record_sample (get_track track_id vehicle_tracks) frame_idx track_data in
          tr ← (if (MIN_TRACK_FRAMES <=? length (history tr))%nat
                then evaluate_danger self tr time_sec dist box_h frontal
                else mret tr);
          mret (set_track track_id tr vehicle_tracks)
      end.

(** [for x in xs: acc = f(acc, x)] in the [Result] monad. *)
Fixpoint foldM {A B : Type} (f : A -> B -> Py.Result A) (acc : A) (xs : list B)
  : Py.Result A :=
  match xs with
  | [] => mret acc
  | x :: rest => acc' ← f acc x; foldM f acc' rest
  end.

(** A close-encounter record of the result. *)
Record Encounter : Type := {
  start_time : Q;
  end_time : Q;
  e_peak_time : Q;
  peak_score : Q;
  where_ : string;
  max_box_height_norm : Q;
  min_distance_m : Py.ExtQ;
  ttc_sec : Q
}.

Definition round_ext (x : Py.ExtQ) (n : positive) : Py.ExtQ :=
  match x with
  | Py.Fin q => Py.Fin (Py.round_n q n)
  | Py.Inf => Py.Inf
  end.

(** One round of [for track_id, track_data in vehicle_tracks.items()]:
    the encounter of a dangerous track, if any. *)
Definition to_encounter (self : Detector) (track_data : Track)
  : Py.Result (option Encounter) :=
  if negb (is_dangerous track_data) then mret None
  else
    let h := history track_data in
    if (length h <? MIN_TRACK_FRAMES)%nat then mret None
    else
      let avg_x := Py.mean (map center_x h) in
      let location :=
        if avg_x <? inject_Z (width self) * 0.33 then "left"%string
        else if inject_Z (width self) * 0.67 <? avg_x then "right"%string
        else "center"%string in
      let score := Py.min (max_danger_score track_data) 1.0 in
      let t0 := default 0 (time <$> head h) in
      let max_h := foldr Z.max (default 0%Z (box_height <$> head h)) (map box_height h) in
      norm ← Py.div (inject_Z max_h) (inject_Z (height self));
      mret (Some {| start_time := Py.round_n t0 2;
                    end_time := Py.round_n (default 0 (time <$> last h)) 2;
                    e_peak_time := Py.round_n (default t0 (peak_time track_data)) 2;
                    peak_score := Py.round_n score 3;
                    where_ := location;
                    max_box_height_norm := Py.round_n norm 3;
                    min_distance_m := round_ext (min_distance track_data) 2;
                    ttc_sec := Py.round_n (default 0 (ttc track_data)) 2 |}).

Record Encounters : Type := {
  close_encounters : list Encounter;
  event_count : nat;
  method : option string;
  error : option string
}.

Section Detect.
Context {frame : Type}.

(** The module flag set by [from ultralytics import YOLO]. *)
Variable HAS_YOLO : bool.

(** [model.track(frame, persist=True, ...)]: the boxes of the current
    frame, given the frames the tracker has seen before. *)
Variable model_track : list frame -> frame -> list Detection.

Record Loop : Type := {
  vehicle_tracks : Tracks;
  tracked : list frame;
  frame_idx : Z
}.

(** One round of the [while True] frame loop. *)
Definition detect_frame (self : Detector) (st : Loop) (fr : frame) : Py.Result Loop :=
  let idx := (frame_idx st + 1)%Z in
  let time_sec := inject_Z idx / fps self in
  if negb (idx mod 2 =? 0)%Z
  then mret {| vehicle_tracks := vehicle_tracks st; tracked := tracked st;
               frame_idx := idx |}
  else
    tracks ← foldM (observe self idx time_sec) (vehicle_tracks st)
                   (model_track (tracked st) fr);
    mret {| vehicle_tracks := tracks; tracked := tracked st ++ [fr]; frame_idx := idx |}.

Fixpoint collect (self : Detector) (tracks : Tracks) : Py.Result (list Encounter) :=
  match tracks with
  | [] => mret []
  | (_, track_data) :: rest =>
      enc ← to_encounter self track_data;
      encs ← collect self rest;
      mret (match enc with Some e => e :: encs | None => encs end)
  end.

Definition detect_encounters (self : Detector) (frames : list frame)
  : Py.Result Encounters :=
  st ← foldM (detect_frame self)
             {| vehicle_tracks := []; tracked := []; frame_idx := 0 |} frames;
  encs ← collect self (vehicle_tracks st);
  mret {| close_encounters := encs; event_count := length encs;
          method := Some "enhanced_proximity_v2"%string; error := None |}.

Definition detect_close_encounters_enhanced (cap : VideoCapture frame)
  : Py.Result Encounters :=
  if negb HAS_YOLO
  then mret {| close_encounters := []; event_count := 0; method := None;
               error := Some "YOLO not available"%string |}
  else
    detector ← init cap;
    detect_encounters detector (stream cap).

End Detect.

End EnhancedProximity.

(** ** [enhanced_speed_detection.py] *)

Module EnhancedSpeed.
Import Cv2.

(** The fields of [self] that the detector reads. *)
Record Detector : Type := {
  fps : Q;
  width : Z;
  height : Z
}.

(** [EnhancedSpeedDetector.__init__] *)
Definition init {frame : Type} (cap : VideoCapture frame) : Py.Result Detector :=
  if negb (isOpened cap)
  then Py.Raise (Py.RuntimeError ("Cannot open video: " ++ path cap))
  else Py.Return {| fps := fps_or_30 cap;
                    width := Py.int (CAP_PROP_FRAME_WIDTH cap);
                    height := Py.int (CAP_PROP_FRAME_HEIGHT cap) |}.

Definition estimate_scale (self : Detector) : Q := 0.65.

(** [y_position] is a numpy float, so with a frame height of zero
    [y_norm] is [nan] or an infinity of the sign of [y_position]: only a
    negative infinity is below 0.5. *)
Definition estimate_scale_dynamic (self : Detector) (y_position : Q) : Q :=
  if (height self =? 0)%Z
  then if y_position <? 0 then 1.0 else 0.40
  else
    let y_norm := y_position / inject_Z (height self) in
    if y_norm <? 0.5 then 1.0
    else if y_norm <? 0.7 then 0.65
    else 0.40.

(** What a tracked frame pair with at least five inliers yields:
    [len(inliers)], [np.median(inliers[:, 1])] and
    [np.mean([p[1] for p in good_new])]. *)
Record Motion : Type := {
  n_inliers : nat;
  avg_displacement_y : Q;
  avg_y_position : Q
}.

(** The speed and the confidence that such a pair appends to [speeds]
    and [confidences], if any. *)
Definition ego_sample (self : Detector) (m : Motion) : option (Q * Q) :=
  if Qabs (avg_displacement_y m) <? 0.5 then None
  else
    let scale_factor := estimate_scale_dynamic self (avg_y_position m) in
    let pixels_per_second := Qabs (avg_displacement_y m) * fps self / 3 in
    let meters_per_second := pixels_per_second * scale_factor in
    let kmh := meters_per_second * 3.6 in
    let inlier_conf := Py.min (inject_Z (Z.of_nat (n_inliers m)) / 50.0) 1.0 in
    let displacement_conf := Py.min (Qabs (avg_displacement_y m) / 10.0) 1.0 in
    let confidence := inlier_conf * 0.6 + displacement_conf * 0.4 in
    if (0 <=? kmh) && (kmh <=? 150) then Some (kmh, confidence) else None.

(** [3 <= s <= 150] *)
Definition reasonable (sc : Q * Q) : bool := (3 <=? fst sc) && (fst sc <=? 150).

(** The part of [method_ego_motion] after [self.cap.release()];
    [valid_frames] is [len(speeds)]. *)
Definition ego_aggregate (samples : list (Q * Q)) : Q * Q :=
  let speeds := map fst samples in
  match speeds with
  | [] => (0.0, 0.0)
  | _ =>
      if (length speeds <? 3)%nat then (0.0, 0.0)
      else
        let reasonable_speeds := map fst (List.filter reasonable samples) in
        let reasonable_confidences := map snd (List.filter reasonable samples) in
        match reasonable_speeds with
        | [] => (0.0, 0.0)
        | _ =>
            let '(weighted_speed, avg_confidence) :=
              if 0 <? Py.sum reasonable_confidences
              then (Py.average reasonable_speeds reasonable_confidences,
                    Py.mean reasonable_confidences)
              else (Py.median reasonable_speeds, 0.5) in
            let q1 := Py.percentile reasonable_speeds 25 in
            let q3 := Py.percentile reasonable_speeds 75 in
            let iqr := q3 - q1 in
            let lower_bound := q1 - 1.5 * iqr in
            let upper_bound := q3 + 1.5 * iqr in
            let filtered_speeds :=
              List.filter (fun s => (lower_bound <=? s) && (s <=? upper_bound))
                          reasonable_speeds in
            let final_speed :=
              if (3 <=? length filtered_speeds)%nat
              then Py.median filtered_speeds
              else weighted_speed in
            (final_speed, avg_confidence)
        end
  end.

Record SpeedResult : Type := {
  average_speed_kmh : Q;
  confidence : Q;
  method : string;
  successful : bool
}.

Section Detect.
Context {frame : Type}.

(** The feature tracking of [method_ego_motion]: [None] when it returns
    before the loop (no first frame, no feature to track), else the
    motions of the frame pairs that reach the speed computation. *)
Variable ego_motions : VideoCapture frame -> option (list Motion).

Definition method_ego_motion (self : Detector) (cap : VideoCapture frame) : Q * Q :=
  match ego_motions cap with
  | None => (0.0, 0.0)
  | Some motions => ego_aggregate (omap (ego_sample self) motions)
  end.

Definition detect_speed (self : Detector) (cap : VideoCapture frame) : SpeedResult :=
  let '(speed, conf) := method_ego_motion self cap in
  {| average_speed_kmh := Py.round_n speed 2;
     confidence := Py.round_n conf 2;
     method := "enhanced_ego_motion";
     successful := 0.3 <? conf |}.

Definition estimate_speed_multimethod (cap : VideoCapture frame) : Py.Result SpeedResult :=
  detector ← init cap;
  mret (detect_speed detector cap).

End Detect.

End EnhancedSpeed.

(** ** [driving_score_calculator.py] *)

Module DrivingScore.

(** [metrics.get(k, 0)] *)
Definition metric (k : string) (metrics : gmap string Z) : Z :=
  default 0%Z (metrics !! k).

Record Scores : Type := {
  safety_score : Z;
  compliance_score : Z;
  efficiency_score : Z;
  overall_driving_score : Z
}.

Definition calculate_driving_score (metrics : gmap string Z) : Scores :=
  let safety_deductions := (metric "close_encounters" metrics * 8)%Z in
  let safety_score := Z.max 0 (100 - safety_deductions) in
  let traffic_violation_deductions := (metric "traffic_violations" metrics * 40)%Z in
  let bus_lane_deductions := (metric "bus_lane_violations" metrics * 30)%Z in
  let compliance_score :=
    Z.max 0 (100 - traffic_violation_deductions - bus_lane_deductions) in
  let efficiency_deductions := inject_Z (metric "lane_changes" metrics) * 0.5 in
  let efficiency_score := Py.max 0 (100 - efficiency_deductions) in
  let overall_score :=
    inject_Z safety_score * 0.5 + inject_Z compliance_score * 0.3
    + efficiency_score * 0.2 in
  {| safety_score := safety_score;
     compliance_score := compliance_score;
     efficiency_score := Py.round efficiency_score;
     overall_driving_score := Py.round overall_score |}.

(** The values that [calculate_score_from_analysis] reads from the
    analysis of a video; [None] is a missing key. *)
Record AnalysisData : Type := {
  event_count : option Z;
  violation : option bool;
  violation_detected : option bool;
  turn_count : option Z
}.

Definition calculate_score_from_analysis (analysis_data : AnalysisData) : Scores :=
  let metrics : gmap string Z :=
    {[ "close_encounters"%string := default 0%Z (event_count analysis_data);
       "traffic_violations"%string :=
         if default false (violation analysis_data) then 1%Z else 0%Z;
       "bus_lane_violations"%string :=
         if default false (violation_detected analysis_data) then 1%Z else 0%Z;
       "lane_changes"%string := default 0%Z (turn_count analysis_data) ]} in
  calculate_driving_score metrics.

Record Category : Type := {
  category : string;
  description : string;
  color : string
}.

Definition get_score_category (overall_score : Z) : Category :=
  if (90 <=? overall_score)%Z
  then {| category := "Excellent";
          description := "Outstanding performance exceeding safety standards";
          color := "green" |}
  else if (75 <=? overall_score)%Z
  then {| category := "Good";
          description := "Good performance with minor improvement opportunities";
          color := "amber" |}
  else {| category := "Needs Improvement";
          description := "Performance requires attention and safety improvements";
          color := "red" |}.

End DrivingScore.

(** ** [main_v2.py]: the analysis of a video *)

Module Analyze.
Import Cv2.

(** [x or []] and the truth value of a JSON value. *)
Definition truthy (v : JSON) : bool :=
  match v with
  | JBool b => b
  | JNum q => negb (Qeq_bool q 0)
  | JStr s => negb (String.eqb s "")
  | JList l => match l with [] => false | _ => true end
  end.

Definition compute_safety_violation (traffic_windows : JSON) (bus_ranges : list (Q * Q))
    (close_count : Z) : Py.Result Z :=
  n ← py_len (if truthy traffic_windows then traffic_windows else JList []);
  let tv := if (0 <? n)%nat then 1%Z else 0%Z in
  let ilu := if (0 <? length bus_ranges)%nat then 1%Z else 0%Z in
  mret (tv + ilu)%Z.

(** The calibration of a video that has none in the file. *)
Definition default_calibration : gmap string Q :=
  {[ "meters_per_pixel"%string := 0.05; "roi_top"%string := 0.6;
     "roi_bottom"%string := 0.9 ]}.

Definition videos_with_custom_calibration : list string :=
  ["Dashcam004.mp4"; "speed-highway.mp4"]%string.

Record VideoMetadata : Type := {
  duration_seconds : Q;
  fps : Q;
  frame_count : Z;
  width : Z;
  height : Z
}.

(** [close_enc]: the result of the enhanced detector or of
    [run_close_encounters]. *)
Inductive CloseEncounters : Type :=
| Enhanced (r : EnhancedProximity.Encounters)
| Standard (r : MainV2.Encounters).

(** [close_enc.get('event_count', 0)] *)
Definition event_count (close_enc : CloseEncounters) : Z :=
  match close_enc with
  | Enhanced r => Z.of_nat (EnhancedProximity.event_count r)
  | Standard r => Z.of_nat (MainV2.event_count r)
  end.

Record DrivingScores : Type := {
  overall_score : Z;
  safety_score : Z;
  compliance_score : Z;
  efficiency_score : Z;
  category : string;
  category_description : string;
  category_color : string;
  metrics_used : gmap string Z
}.

Record Analysis : Type := {
  video_filename : string;
  video_metadata : VideoMetadata;
  average_speed_kmph : Q;
  safety_violation : Z;
  traffic_signal_summary : gmap string JSON;
  close_encounters : CloseEncounters;
  turn_changes_orb : MainV2.TurnCount;
  lane_change_count : MainV2.TurnCount;
  illegal_way_bus_lane : MainV2.BusLane;
  driving_scores : DrivingScores
}.

(** An entry of [all_results]. *)
Inductive BatchEntry : Type :=
| Analysed (result : Analysis)
| Failed (error : string).

(** [str(e)] *)
Definition str (e : Py.exn) : string :=
  match e with
  | Py.RuntimeError msg | Py.TypeError msg => msg
  | Py.ZeroDivisionError => "float division by zero"
  end.

Section AnalyzeVideo.
Context {frame : Type}.

(** The module flags set by the imports of the enhanced detectors and of
    [ultralytics]. *)
Variables HAS_ENHANCED_SPEED HAS_ENHANCED_PROXIMITY HAS_YOLO _HAS_YOLO : bool.

(** The image processing of the analyses. *)
Variable ego_motions : VideoCapture frame -> option (list EnhancedSpeed.Motion).
Variable shape0 : frame -> Z.
Variable roi_size : frame -> Z -> Z -> Z.
Variable flow_magnitudes : frame -> frame -> Z -> Z -> option (list Q).
Variable model_track : list frame -> frame -> list EnhancedProximity.Detection.
Variable band_observation : list frame -> frame -> nat -> Q * Q.
Variables turn_scan lane_change_scan : frame -> list frame -> Q -> Z -> MainV2.TurnCount.
Variable red_coverage : frame -> Z * Z * Z * Z -> Q.

(** [analyze_video]; [cap] is the file at [video_path], which every
    analysis opens anew. *)
Definition analyze_video (cap : VideoCapture frame) (video_filename : string)
    (calibrations : gmap string (gmap string Q)) : Py.Result Analysis :=
  let calib := default default_calibration (calibrations !! video_filename) in
  let fps := fps_or_30 cap in
  let frame_count := Py.int (CAP_PROP_FRAME_COUNT cap) in
  let duration_seconds := if 0 <? fps then inject_Z frame_count / fps else 0 in
  let width := Py.int (CAP_PROP_FRAME_WIDTH cap) in
  let height := Py.int (CAP_PROP_FRAME_HEIGHT cap) in
  let use_calibrated_method :=
    bool_decide (video_filename ∈ videos_with_custom_calibration)
    && bool_decide (is_Some (calib !! "meters_per_pixel"%string)) in
  let standard_speed :=
    MainV2.calculate_average_speed shape0 roi_size flow_magnitudes cap
      (default 0.05 (calib !! "meters_per_pixel"%string))
      (default 0.6 (calib !! "roi_top"%string))
      (default 0.9 (calib !! "roi_bottom"%string)) in
  avg_speed ←
    (if HAS_ENHANCED_SPEED && negb use_calibrated_method
     then
       speed_result ← EnhancedSpeed.estimate_speed_multimethod ego_motions cap;
       if negb (EnhancedSpeed.successful speed_result)
       then Py.Return standard_speed
       else Py.Return (EnhancedSpeed.average_speed_kmh speed_result)
     else Py.Return standard_speed);
  traffic_sig ← MainV2.run_traffic_signal_summary cap;
  close_enc ←
    (if HAS_ENHANCED_PROXIMITY
     then r ← EnhancedProximity.detect_close_encounters_enhanced HAS_YOLO model_track cap;
          mret (Enhanced r)
     else r ← MainV2.run_close_encounters _HAS_YOLO band_observation cap;
          mret (Standard r));
  turns_orb ← MainV2.run_turn_count turn_scan cap;
  lane_chg ← MainV2.run_lane_change_count lane_change_scan cap;
  bus_color ← MainV2.run_bus_lane_color red_coverage cap;
  safety_violation ←
    compute_safety_violation
      (dict_get "traffic_violation_windows" (JList []) traffic_sig)
      (MainV2.violation_ranges bus_color)
      (event_count close_enc);
  let metrics : gmap string Z :=
    {[ "close_encounters"%string := event_count close_enc;
       "traffic_violations"%string :=
         if truthy (dict_get "violation" (JBool false) traffic_sig) then 1%Z else 0%Z;
       "bus_lane_violations"%string :=
         if MainV2.violation_detected bus_color then 1%Z else 0%Z;
       "lane_changes"%string := MainV2.turn_count lane_chg ]} in
  let scores := DrivingScore.calculate_driving_score metrics in
  let category := DrivingScore.get_score_category (DrivingScore.overall_driving_score scores) in
  mret {| video_filename := video_filename;
          video_metadata :=
            {| duration_seconds := Py.round_n duration_seconds 2;
               fps := Py.round_n fps 2;
               frame_count := frame_count;
               width := width;
               height := height |};
          average_speed_kmph := Py.round_n avg_speed 2;
          safety_violation := safety_violation;
          traffic_signal_summary := traffic_sig;
          close_encounters := close_enc;
          turn_changes_orb := turns_orb;
          lane_change_count := lane_chg;
          illegal_way_bus_lane := bus_color;
          driving_scores :=
            {| overall_score := DrivingScore.overall_driving_score scores;
               safety_score := DrivingScore.safety_score scores;
               compliance_score := DrivingScore.compliance_score scores;
               efficiency_score := DrivingScore.efficiency_score scores;
               category := DrivingScore.category category;
               category_description := DrivingScore.description category;
               category_color := DrivingScore.color category;
               metrics_used := metrics |} |}.

(** The loop of [main_batch_process] over the videos found, each with
    its file name: a video whose analysis raises is recorded as
    failed. *)
Definition main_batch_process (video_files : list (string * VideoCapture frame))
    (calibrations : gmap string (gmap string Q)) : gmap string BatchEntry :=
  foldl (fun all_results video =>
           let '(video_filename, cap) := video in
           match analyze_video cap video_filename calibrations with
           | Py.Return result => <[video_filename := Analysed result]> all_results
           | Py.Raise e => <[video_filename := Failed (str e)]> all_results
           end)
        ∅ video_files.

End AnalyzeVideo.

End Analyze.

(** ** The predicates and the sample data of the statements *)

(** The four target rates of the loops that sample with [round]. *)
Definition rounded_rates : list Q :=
  [MainV2.PROCESS_HZ_TS; MainV2.PROC_HZ_CE; MainV2.PROCESS_HZ_TURN; MainV2.PROCESS_HZ_LC].

(** The frames that a loop which starts with
    [idx += 1; if idx % step != 0: continue] works on, each with its
    index: the frames are counted from 1, and those whose index is a
    multiple of [step] are kept. *)
Definition sampled {A : Type} (step : Z) (frames : list A) : list (Z * A) :=
  List.filter (fun p => (fst p mod step =? 0)%Z)
              (imap (fun k fr => (Z.of_nat (S k), fr)) frames).

(** A loop body run on the sampled frames only. *)
Definition on_samples {A S : Type} (body : S -> Z -> A -> S) (init : S)
    (samples : list (Z * A)) : S :=
  foldl (fun st p => body st (fst p) (snd p)) init samples.

(** A clip of ten frames that reports no frame rate; frame [k] is the
    number [k]. *)
Definition unrated_clip : Cv2.VideoCapture Q :=
  {| Cv2.path := "a.mp4"; Cv2.isOpened := true; Cv2.CAP_PROP_FPS := 0;
     Cv2.CAP_PROP_FRAME_COUNT := 10; Cv2.CAP_PROP_FRAME_WIDTH := 640;
     Cv2.CAP_PROP_FRAME_HEIGHT := 480; Cv2.CAP_PROP_POS_MSEC := 0;
     Cv2.stream := [0; 1; 2; 3; 4; 5; 6; 7; 8; 9] |}.

(** The buffer is full and every entry of it is [b]. *)
Definition unanimous (b : bool) (buf : list bool) : Prop :=
  length buf = MainV2.BUFFER_SIZE_FRAMES /\ Forall (fun x => x = b) buf.

(** The entry of [ranges] of a closed window, and of one still open. *)
Definition closed_range (w : Q * Q) : MainV2.Range :=
  {| MainV2.r_start_time := fst w; MainV2.r_end_time := Some (snd w) |}.
Definition open_range (s : Q) : MainV2.Range :=
  {| MainV2.r_start_time := s; MainV2.r_end_time := None |}.

(** The bus-lane loop at a frame: [ranges] holds closed windows, and
    after them an open one exactly while a violation is active. *)
Definition bus_shape (st : MainV2.BusLoop) : Prop :=
  exists ws,
    if MainV2.violation_active st
    then exists s, MainV2.ranges st = map closed_range ws ++ [open_range s]
    else MainV2.ranges st = map closed_range ws.

(** No [BUFFER_SIZE_FRAMES] consecutive flags are all true. *)
Definition no_full_run (flags : list bool) : Prop :=
  forall k, (k + MainV2.BUFFER_SIZE_FRAMES <= length flags)%nat ->
            In false (take MainV2.BUFFER_SIZE_FRAMES (drop k flags)).

(** The windows of [ranges] once the video has ended at time [t_end],
    where a window still open is closed. *)
Definition windows_at (t_end : Q) (ranges : list MainV2.Range) : list (Q * Q) :=
  map (fun r => (MainV2.r_start_time r, default t_end (MainV2.r_end_time r))) ranges.

(** A window lasts [MIN_DURATION_SEC]; the difference is taken between
    floats. *)
Definition long_enough (w : Q * Q) : bool :=
  Py.fl MainV2.MIN_DURATION_SEC <=? Py.fsub (snd w) (fst w).

(** The result of [run_bus_lane_color] for the windows [ws]: those that
    last [MIN_DURATION_SEC], their times rounded to two digits. *)
Definition reported (ws : list (Q * Q)) : MainV2.BusLane :=
  let final := map (fun w => (Py.round_n (fst w) 2, Py.round_n (snd w) 2))
                   (List.filter long_enough ws) in
  {| MainV2.violation_detected := match final with [] => false | _ => true end;
     MainV2.violation_ranges := final |}.

(** A clip of 57 frames at 30 frames per second; the lane under the car
    is red in the first 45. *)
Definition bus_clip : Cv2.VideoCapture Q :=
  {| Cv2.path := "bus.mp4"; Cv2.isOpened := true; Cv2.CAP_PROP_FPS := 30;
     Cv2.CAP_PROP_FRAME_COUNT := 57; Cv2.CAP_PROP_FRAME_WIDTH := 1280;
     Cv2.CAP_PROP_FRAME_HEIGHT := 720; Cv2.CAP_PROP_POS_MSEC := 0;
     Cv2.stream := replicate 45 0.5 ++ replicate 12 0 |}.

(** [e["end_time"] - e["start_time"] < 0.2], the difference and the
    comparison taken between floats: the event is dropped. *)
Definition short (e : MainV2.Event) : Prop :=
  Py.fsub (MainV2.end_time e) (MainV2.start_time e) < Py.fl 0.2.

(** [e["start_time"] - m["end_time"] <= MERGE_GAP], between floats: [e]
    starts within the merge gap of the end of [m]. *)
Definition within_gap (m e : MainV2.Event) : Prop :=
  Py.fsub (MainV2.start_time e) (MainV2.end_time m) <= Py.fl MainV2.MERGE_GAP.

(** No event starts within the merge gap of the end of the event before
    it. *)
Fixpoint separated (evs : list MainV2.Event) : Prop :=
  match evs with
  | a :: (b :: _) as rest => ~ within_gap a b /\ separated rest
  | _ => True
  end.

(** [start_time <= peak_time <= end_time] *)
Definition ordered (e : MainV2.Event) : Prop :=
  MainV2.start_time e <= MainV2.peak_time e <= MainV2.end_time e.

(** [a] has ended when [b] starts. *)
Definition before (a b : MainV2.Event) : Prop :=
  MainV2.end_time a <= MainV2.start_time b.

(** Every event is ordered and ends before the later ones start. *)
Definition chronological (evs : list MainV2.Event) : Prop :=
  Forall ordered evs /\ StronglySorted before evs.

(** The machine after the samples up to rounded time [now]: the closed
    events are chronological and end by [now]; an open event starts after
    they end and has its peak by [now]. *)
Definition machine_inv (m : MainV2.Machine) (now : Q) : Prop :=
  chronological (MainV2.events m) /\
  Forall (fun e => MainV2.end_time e <= now) (MainV2.events m) /\
  match MainV2.state m, MainV2.cur_event m with
  | MainV2.in_event, Some cur =>
      Forall (fun e => MainV2.end_time e <= MainV2.o_start_time cur) (MainV2.events m) /\
      MainV2.o_start_time cur <= MainV2.o_peak_time cur <= now
  | _, _ => True
  end.

(** The machine before the first sample. *)
Definition idle_machine : MainV2.Machine :=
  {| MainV2.state := MainV2.idle; MainV2.cur_event := None; MainV2.events := [] |}.

(** The loop after some frames: no sample yet and the machine untouched,
    or the machine up to date with the last sample time, which is not
    after the time of the current frame. *)
Definition loop_inv {frame : Type} (fps : Q) (st : @MainV2.Loop frame) : Prop :=
  match last (MainV2.times st) with
  | None => MainV2.machine st = idle_machine
  | Some t_last =>
      machine_inv (MainV2.machine st) (Py.round_n t_last 2) /\
      t_last <= MainV2.frame_time fps (MainV2.i st)
  end.

(** The sum of the squared residuals of the line [a * x + b]. *)
Definition sse (xs ys : list Q) (a b : Q) : Q :=
  Py.sum (zip_with (fun x y => (y - (a * x + b)) * (y - (a * x + b))) xs ys).

(** [time_diffs]: the times of the recent samples, counted from the first
    of them. *)
Definition recent_time_diffs (recent : list EnhancedProximity.Sample) : list Q :=
  let times := map EnhancedProximity.time recent in
  map (fun x => x - nth 0 times 0) times.

(** The slope that [calculate_ttc] fits: distance against the time since
    the first of the recent samples. *)
Definition closing_rate (recent : list EnhancedProximity.Sample) : Q :=
  Py.polyfit_slope (recent_time_diffs recent) (map EnhancedProximity.distance recent).

(** The danger criteria of a sample: near, frontal, approaching fast or
    critically near, and not moving laterally. *)
Definition danger_criteria (self : EnhancedProximity.Detector)
    (h : list EnhancedProximity.Sample) (dist : Q) (frontal : bool) : Prop :=
  dist < EnhancedProximity.DANGEROUS_DISTANCE_M /\
  frontal = true /\
  ((exists q, EnhancedProximity.calculate_ttc h = Py.Fin q
              /\ q < EnhancedProximity.TTC_THRESHOLD_SEC)
   \/ dist < EnhancedProximity.CRITICAL_DISTANCE_M) /\
  EnhancedProximity.is_lateral_movement self h = false.

(** The history entry that [observe] builds for a detection. *)
Definition sample_of (self : EnhancedProximity.Detector) (time_sec : Q)
    (d : EnhancedProximity.Detection) : EnhancedProximity.Sample :=
  let '(x1, y1, x2, y2) := EnhancedProximity.xyxy d in
  let cx := inject_Z (x1 + x2) / 2 in
  {| EnhancedProximity.time := time_sec;
     EnhancedProximity.distance :=
       EnhancedProximity.estimate_distance self (x1, y1, x2, y2) (EnhancedProximity.cls_name d);
     EnhancedProximity.box := (x1, y1, x2, y2);
     EnhancedProximity.box_height := (y2 - y1)%Z;
     EnhancedProximity.center_x := cx;
     EnhancedProximity.center_y := inject_Z (y1 + y2) / 2;
     EnhancedProximity.class := EnhancedProximity.cls_name d;
     EnhancedProximity.is_frontal :=
       (inject_Z (EnhancedProximity.width self) * 0.3 <? cx)
       && (cx <? inject_Z (EnhancedProximity.width self) * 0.7) |}.

(** What the danger evaluation writes to a track. *)
Definition danger_state (tr : EnhancedProximity.Track) : bool * Q * option Q * option Q * option Q :=
  (EnhancedProximity.is_dangerous tr, EnhancedProximity.max_danger_score tr,
   EnhancedProximity.peak_time tr, EnhancedProximity.peak_distance tr,
   EnhancedProximity.ttc tr).

(** A track approaching by 2 m per second, seen once a second. *)
Definition approaching_sample (time dist : Q) : EnhancedProximity.Sample :=
  {| EnhancedProximity.time := time; EnhancedProximity.distance := dist;
     EnhancedProximity.box := (600, 300, 700, 460)%Z; EnhancedProximity.box_height := 160;
     EnhancedProximity.center_x := 650; EnhancedProximity.center_y := 380;
     EnhancedProximity.class := "car"; EnhancedProximity.is_frontal := true |}.

(** Five samples of that track, from 20 m down to 12 m. *)
Definition approaching_history : list EnhancedProximity.Sample :=
  [approaching_sample 0 20; approaching_sample 1 18; approaching_sample 2 16;
   approaching_sample 3 14; approaching_sample 4 12].

(** The detections of track [tid] are all at [dist] metres. *)
Definition track_stays_at (self : EnhancedProximity.Detector) (tid : Z) (dist : Q)
    (dets : list EnhancedProximity.Detection) : Prop :=
  forall d, In d dets -> EnhancedProximity.id d = Some tid ->
    EnhancedProximity.estimate_distance self (EnhancedProximity.xyxy d)
      (EnhancedProximity.cls_name d) == dist.

(** A 1280x720 camera; a car tracked for four samples, then detected 6 m
    ahead in the middle of the frame. *)
Definition dashcam : EnhancedProximity.Detector :=
  {| EnhancedProximity.fps := 30; EnhancedProximity.width := 1280;
     EnhancedProximity.height := 720; EnhancedProximity.focal_length := 640 |}.

(** The track of that car after four samples. *)
Definition tracked_car : EnhancedProximity.Tracks :=
  [(7%Z, {| EnhancedProximity.history := take 4 approaching_history;
            EnhancedProximity.first_frame := 2; EnhancedProximity.last_frame := 8;
            EnhancedProximity.min_distance := Py.Fin 14;
            EnhancedProximity.max_danger_score := 0; EnhancedProximity.is_dangerous := false;
            EnhancedProximity.peak_time := None; EnhancedProximity.peak_distance := None;
            EnhancedProximity.ttc := None |})].

(** The detection of that car 6 m ahead. *)
Definition car_ahead : EnhancedProximity.Detection :=
  {| EnhancedProximity.cls_name := "car"; EnhancedProximity.xyxy := (600, 300, 700, 460)%Z;
     EnhancedProximity.id := Some 7%Z |}.

(** [start_time <= peak_time <= end_time] for an encounter of the enhanced
    detector. *)
Definition ordered_encounter (e : EnhancedProximity.Encounter) : Prop :=
  EnhancedProximity.start_time e <= EnhancedProximity.e_peak_time e
  <= EnhancedProximity.end_time e.

(** A track at time [now]: its first sample is not after its last one,
    which is not after [now], and a recorded peak time lies between
    them. *)
Definition track_inv (now : Q) (tr : EnhancedProximity.Track) : Prop :=
  match head (EnhancedProximity.history tr), last (EnhancedProximity.history tr) with
  | Some s0, Some sl =>
      EnhancedProximity.time s0 <= EnhancedProximity.time sl /\
      EnhancedProximity.time sl <= now /\
      (forall tp, EnhancedProximity.peak_time tr = Some tp ->
                  EnhancedProximity.time s0 <= tp <= EnhancedProximity.time sl)
  | _, _ => EnhancedProximity.peak_time tr = None
  end.

(** Every track of the dictionary is in order at time [now]. *)
Definition tracks_inv (now : Q) (tracks : EnhancedProximity.Tracks) : Prop :=
  Forall (fun p => track_inv now (snd p)) tracks.

(** The tracks are in order at the time of the frame the loop has
    reached. *)
Definition detect_inv {frame : Type} (self : EnhancedProximity.Detector)
    (st : @EnhancedProximity.Loop frame) : Prop :=
  tracks_inv (inject_Z (EnhancedProximity.frame_idx st) / EnhancedProximity.fps self)
             (EnhancedProximity.vehicle_tracks st).

(** A one-and-a-half-second drive at 8 frames per second during which a
    box fills the bands for two frames, and ten frames with a car 6 m
    ahead: each yields one event. *)
Definition short_drive : Cv2.VideoCapture Q :=
  {| Cv2.path := "drive.mp4"; Cv2.isOpened := true; Cv2.CAP_PROP_FPS := 8;
     Cv2.CAP_PROP_FRAME_COUNT := 12; Cv2.CAP_PROP_FRAME_WIDTH := 1280;
     Cv2.CAP_PROP_FRAME_HEIGHT := 720; Cv2.CAP_PROP_POS_MSEC := 0;
     Cv2.stream := [0; 0; 1; 1; 0; 0; 0; 0; 0; 0; 0; 0] |}.

(** A drive of two and a half seconds at 8 frames per second: a box
    fills the bands for one frame, then twice for three frames. *)
Definition busy_drive : Cv2.VideoCapture Q :=
  {| Cv2.path := "busy.mp4"; Cv2.isOpened := true; Cv2.CAP_PROP_FPS := 8;
     Cv2.CAP_PROP_FRAME_COUNT := 21; Cv2.CAP_PROP_FRAME_WIDTH := 1280;
     Cv2.CAP_PROP_FRAME_HEIGHT := 720; Cv2.CAP_PROP_POS_MSEC := 0;
     Cv2.stream := [0; 0; 0; 1; 0; 0; 0; 0; 1; 1; 1; 0; 0; 0; 0; 1; 1; 1; 0; 0; 0] |}.

(** A drive of three seconds at 5 frames per second: a box fills the
    bands for one frame, then twice for two frames. *)
Definition slow_drive : Cv2.VideoCapture Q :=
  {| Cv2.path := "slow.mp4"; Cv2.isOpened := true; Cv2.CAP_PROP_FPS := 5;
     Cv2.CAP_PROP_FRAME_COUNT := 16; Cv2.CAP_PROP_FRAME_WIDTH := 1280;
     Cv2.CAP_PROP_FRAME_HEIGHT := 720; Cv2.CAP_PROP_POS_MSEC := 0;
     Cv2.stream := [0; 0; 1; 0; 0; 0; 1; 1; 0; 0; 0; 1; 1; 0; 0; 0] |}.

(** The interpolation of [np.percentile] at the fractional rank [pos] of
    the sorted array [s]. *)
Definition interpolate (s : list Q) (pos : Q) : Q :=
  let lo := Z.to_nat (Qfloor pos) in
  let hi := Nat.min (lo + 1) (length s - 1) in
  nth lo s 0 + (pos - inject_Z (Z.of_nat lo)) * (nth hi s 0 - nth lo s 0).

(** A speed within the range [0, 150] km/h that the source calls
    realistic. *)
Definition plausible (v : Q) : Prop := 0 <= v <= 150.

(** The samples within the fences [q1 - 1.5 iqr] and [q3 + 1.5 iqr] of the
    interquartile range. *)
Definition survivors (samples : list Q) : list Q :=
  let q1 := Py.percentile samples 25 in
  let q3 := Py.percentile samples 75 in
  let iqr := q3 - q1 in
  List.filter (fun v => (q1 - 1.5 * iqr <=? v) && (v <=? q3 + 1.5 * iqr)) samples.

(** Four frames at 5 frames per second, each a flattened array of flow
    magnitudes. *)
Definition flow_clip : Cv2.VideoCapture (list Q) :=
  {| Cv2.path := "flow.mp4"; Cv2.isOpened := true; Cv2.CAP_PROP_FPS := 5;
     Cv2.CAP_PROP_FRAME_COUNT := 4; Cv2.CAP_PROP_FRAME_WIDTH := 640;
     Cv2.CAP_PROP_FRAME_HEIGHT := 480; Cv2.CAP_PROP_POS_MSEC := 0;
     Cv2.stream := [[0]; [1; 2; 0; 3]; [2; 2; 4; 0]; [0; 0; 1; 5]] |}.

(** * Part II: properties *)

(** ** The primitives on known values *)

Example round_half_to_even :
  Py.round 0.5 = 0%Z /\ Py.round 1.5 = 2%Z /\ Py.round 2.5 = 2%Z /\
  Py.round (-0.5) = 0%Z /\ Py.round (-1.5) = (-2)%Z /\ Py.round 3.75 = 4%Z.
Proof. repeat split. Qed.

Example round_two_digits :
  Py.round_n 0.375 2 == 0.38 /\ Py.round_n 0.125 2 == 0.12 /\ Py.round_n 0.4375 3 == 0.438.
Proof. repeat split. Qed.

Example int_truncates :
  Py.int 5.994 = 5%Z /\ Py.int (-5.994) = (-5)%Z /\ Py.int 0.9 = 0%Z.
Proof. repeat split. Qed.

Example percentile_interpolates :
  Py.percentile [4; 1; 3; 2] 75 == 3.25 /\ Py.percentile [3; 1; 2] 25 == 1.5 /\
  Py.percentile [7] 75 == 7.
Proof. repeat split. Qed.

Example median_middle :
  Py.median [3; 1; 2] == 2 /\ Py.median [4; 1; 3; 2] == 2.5.
Proof. repeat split. Qed.

Example argmax_first : Py.argmax [0.2; 0.5; 0.5] = 1%nat /\ Py.argmax [0.3; 0.3; 0.3] = 0%nat.
Proof. repeat split. Qed.

Example polyfit_line :
  Py.polyfit_slope [0; 1; 2; 3] [1; 3; 5; 7] == 2 /\
  Py.polyfit_intercept [0; 1; 2; 3] [1; 3; 5; 7] == 1.
Proof. repeat split. Qed.

Example deque_drops_oldest :
  Py.deque_append 3 [1; 2]%nat 3%nat = [1; 2; 3]%nat /\
  Py.deque_append 3 [1; 2; 3]%nat 4%nat = [2; 3; 4]%nat.
Proof. repeat split. Qed.

(** ** Comparisons, rounding and clipping *)

Lemma Qltb_spec (x y : Q) : reflect (x < y) (x <? y).
Proof.
  unfold Py.Qltb. destruct (Qle_bool y x) eqn:E; constructor.
  - apply Qle_bool_iff in E. lra.
  - apply Qnot_le_lt. intros Hle. apply Qle_bool_iff in Hle. congruence.
Qed.

Lemma Qleb_spec (x y : Q) : reflect (x <= y) (x <=? y).
Proof.
  unfold Py.Qleb. destruct (Qle_bool x y) eqn:E; constructor.
  - now apply Qle_bool_iff.
  - intros H. apply Qle_bool_iff in H. congruence.
Qed.

Lemma Qltb_true (x y : Q) : (x <? y) = true <-> x < y.
Proof. destruct (Qltb_spec x y); split; intros; auto; discriminate || contradiction. Qed.

Lemma Qleb_true (x y : Q) : (x <=? y) = true <-> x <= y.
Proof. destruct (Qleb_spec x y); split; intros; auto; discriminate || contradiction. Qed.

Ltac qcases :=
  repeat match goal with
    | |- context [?x <? ?y] => destruct (Qltb_spec x y)
    | |- context [?x <=? ?y] => destruct (Qleb_spec x y)
    | H : context [?x <? ?y] |- _ => destruct (Qltb_spec x y)
    | H : context [?x <=? ?y] |- _ => destruct (Qleb_spec x y)
    end.

Lemma max_ge_l (a b : Q) : a <= Py.max a b.
Proof. unfold Py.max. qcases; lra. Qed.

Lemma max_ge_r (a b : Q) : b <= Py.max a b.
Proof. unfold Py.max. qcases; lra. Qed.

Lemma max_cases (a b : Q) : Py.max a b = a \/ Py.max a b = b.
Proof. unfold Py.max. destruct (a <? b); auto. Qed.

Lemma clip_bounds (x lo hi : Q) : lo <= hi -> lo <= Py.clip x lo hi <= hi.
Proof. intros H. unfold Py.clip, Py.min, Py.max. qcases; lra. Qed.

Lemma clip_inside (x lo hi : Q) : lo <= x <= hi -> Py.clip x lo hi = x.
Proof. intros H. unfold Py.clip, Py.min, Py.max. qcases; try reflexivity; lra. Qed.

Lemma round_floor_cases (x : Q) :
  Py.round x = Qfloor x \/ Py.round x = (Qfloor x + 1)%Z.
Proof.
  unfold Py.round.
  destruct (Qcompare _ _); [destruct (Z.even _) | |]; auto.
Qed.

Lemma Qfloor_bounds (x : Q) : inject_Z (Qfloor x) <= x < inject_Z (Qfloor x) + 1.
Proof.
  split; [apply Qfloor_le |].
  pose proof (Qlt_floor x) as H. rewrite inject_Z_plus in H. exact H.
Qed.

(** [round] never moves a float by more than one half. *)
Lemma round_near (x : Q) : x - (1 # 2) <= inject_Z (Py.round x) <= x + (1 # 2).
Proof.
  pose proof (Qfloor_bounds x) as [Hlo Hhi].
  unfold Py.round.
  destruct (Qcompare (x - inject_Z (Qfloor x)) (1 # 2)) eqn:E.
  - apply Qeq_alt in E.
    destruct (Z.even _); [| rewrite inject_Z_plus; change (inject_Z 1) with 1]; lra.
  - apply Qlt_alt in E. lra.
  - apply Qgt_alt in E. rewrite inject_Z_plus. change (inject_Z 1) with 1. lra.
Qed.

Lemma round_mono (x y : Q) : x <= y -> (Py.round x <= Py.round y)%Z.
Proof.
  intros Hxy.
  pose proof (Qfloor_resp_le _ _ Hxy) as Hf.
  destruct (Z.eq_dec (Qfloor x) (Qfloor y)) as [Heq | Hne].
  - unfold Py.round. rewrite <- Heq.
    destruct (Qcompare (x - inject_Z (Qfloor x)) (1 # 2)) eqn:Ex;
      destruct (Qcompare (y - inject_Z (Qfloor x)) (1 # 2)) eqn:Ey;
      try (destruct (Z.even _)); try lia; exfalso;
      repeat match goal with
        | H : Qcompare _ _ = Eq |- _ => apply Qeq_alt in H
        | H : Qcompare _ _ = Lt |- _ => apply Qlt_alt in H
        | H : Qcompare _ _ = Gt |- _ => apply Qgt_alt in H
        end; lra.
  - destruct (round_floor_cases x) as [-> | ->], (round_floor_cases y) as [-> | ->]; lia.
Qed.

Lemma round_n_mono (x y : Q) (n : positive) :
  x <= y -> Py.round_n x n <= Py.round_n y n.
Proof.
  intros Hxy. unfold Py.round_n.
  assert (Hs : 0 < inject_Z (10 ^ Z.pos n)).
  { change 0 with (inject_Z 0). rewrite <- Zlt_Qlt. apply Z.pow_pos_nonneg; lia. }
  set (s := inject_Z (10 ^ Z.pos n)) in *.
  assert (Hr : (Py.round (x * s) <= Py.round (y * s))%Z).
  { apply round_mono. nra. }
  rewrite Zle_Qle in Hr.
  unfold Qdiv. apply Qmult_le_compat_r; [exact Hr |].
  apply Qlt_le_weak, Qinv_lt_0_compat, Hs.
Qed.

Lemma round_inject (z : Z) : Py.round (inject_Z z) = z.
Proof.
  unfold Py.round. rewrite Qfloor_Z.
  replace (Qcompare (inject_Z z - inject_Z z) (1 # 2)) with Lt; [reflexivity |].
  symmetry. apply -> Qlt_alt. lra.
Qed.

(** ** Binary64 *)

Lemma pow2_pos (e : Z) : 0 < Py.pow2 e.
Proof. apply Qpower_0_lt. reflexivity. Qed.

Lemma pow2_plus (a b : Z) : Py.pow2 (a + b) == Py.pow2 a * Py.pow2 b.
Proof. apply Qpower_plus. discriminate. Qed.

Lemma pow2_succ (e : Z) : Py.pow2 (e + 1) == 2 * Py.pow2 e.
Proof. rewrite pow2_plus. change (Py.pow2 1) with 2. ring. Qed.

Lemma pow2_mono (a b : Z) : (a <= b)%Z -> Py.pow2 a <= Py.pow2 b.
Proof. intros H. apply Qpower_le_compat_l; [exact H | discriminate]. Qed.

Lemma pow2_inject (n : Z) : (0 <= n)%Z -> Py.pow2 n == inject_Z (2 ^ n).
Proof. intros H. rewrite Zpower_Qpower by exact H. reflexivity. Qed.

Lemma log2_bounds (n : Z) :
  (0 < n)%Z -> Py.pow2 (Z.log2 n) <= inject_Z n < 2 * Py.pow2 (Z.log2 n).
Proof.
  intros Hn. pose proof (Z.log2_spec n Hn) as [Hlo Hhi].
  pose proof (Z.log2_nonneg n) as H0.
  rewrite <- pow2_succ, !pow2_inject by lia.
  rewrite <- Zle_Qle, <- Zlt_Qlt. unfold Z.succ in Hhi. lia.
Qed.

(** [Py.ilog2 x] is the exponent of a positive [x]. *)
Lemma ilog2_spec (x : Q) : 0 < x -> Py.pow2 (Py.ilog2 x) <= x < 2 * Py.pow2 (Py.ilog2 x).
Proof.
  intros Hx. destruct x as [n d].
  assert (Hn : (0 < n)%Z).
  { unfold Qlt in Hx. simpl in Hx. lia. }
  pose proof (log2_bounds n Hn) as [HA1 HA2].
  pose proof (log2_bounds (Zpos d) eq_refl) as [HB1 HB2].
  unfold Py.ilog2. cbv zeta. cbn [Qnum Qden].
  set (a := Z.log2 n) in *. set (b := Z.log2 (Zpos d)) in *.
  pose proof (pow2_pos a) as Ha. pose proof (pow2_pos b) as Hb.
  pose proof (pow2_pos (a - b)) as Hk.
  assert (HP : Py.pow2 (a - b) * Py.pow2 b == Py.pow2 a).
  { rewrite <- pow2_plus. replace (a - b + b)%Z with a by lia. reflexivity. }
  assert (HP' : Py.pow2 (a - b) == 2 * Py.pow2 (a - b - 1)).
  { rewrite <- pow2_succ. replace (a - b - 1 + 1)%Z with (a - b)%Z by lia. reflexivity. }
  assert (Hxd : (n # d) * inject_Z (Zpos d) == inject_Z n).
  { rewrite (Qmake_Qdiv n d). field. discriminate. }
  set (x := n # d) in *. set (N := inject_Z n) in *. set (D := inject_Z (Zpos d)) in *.
  set (A := Py.pow2 a) in *. set (B := Py.pow2 b) in *. set (P := Py.pow2 (a - b)) in *.
  set (P1 := Py.pow2 (a - b - 1)) in *.
  destruct (Qleb_spec P x) as [Hle | Hgt]; fold P; fold P1;
    clearbody x N D A B P P1;
    assert (H1 : x * B <= x * D) by (apply Qmult_le_l; lra);
    assert (H2 : x * D < x * (2 * B)) by (apply Qmult_lt_l; lra).
  - split; [exact Hle |]. apply (Qmult_lt_r _ _ B); [exact Hb | lra].
  - split; [| lra].
    assert (H3 : P * B == 2 * (P1 * B)) by (rewrite HP'; ring).
    apply Qlt_le_weak, (Qmult_lt_r _ _ B); [exact Hb | lra].
Qed.

Lemma ilog2_mono (x y : Q) : 0 < x -> x <= y -> (Py.ilog2 x <= Py.ilog2 y)%Z.
Proof.
  intros Hx Hxy.
  pose proof (ilog2_spec x Hx) as [Hlo _].
  pose proof (ilog2_spec y ltac:(lra)) as [_ Hhi].
  rewrite <- pow2_succ in Hhi.
  assert (H : Py.pow2 (Py.ilog2 x) < Py.pow2 (Py.ilog2 y + 1)) by lra.
  apply Qpower_lt_compat_l_inv in H; [lia | reflexivity].
Qed.

Lemma pow2_53 (e : Z) : Py.pow2 e == inject_Z (2 ^ 52) * Py.pow2 (e - 52).
Proof.
  rewrite <- pow2_inject by lia. rewrite <- pow2_plus.
  replace (52 + (e - 52))%Z with e by lia. reflexivity.
Qed.

(** The double nearest to a positive real lies in the binade of the
    real. *)
Lemma fl_pos_upper (x : Q) :
  0 < x -> Py.fl_pos x <= 2 * Py.pow2 (Z.max (Py.ilog2 x) (-1022)).
Proof.
  intros Hx. unfold Py.fl_pos.
  set (e := Z.max (Py.ilog2 x) (-1022)).
  pose proof (ilog2_spec x Hx) as [_ Hhi].
  pose proof (pow2_mono (Py.ilog2 x) e ltac:(lia)) as He.
  pose proof (pow2_pos (e - 52)) as Hu.
  pose proof (pow2_53 e) as H53.
  set (u := Py.pow2 (e - 52)) in *.
  assert (Hq : x / u <= inject_Z (2 * 2 ^ 52)).
  { apply Qle_shift_div_r; [exact Hu |]. rewrite inject_Z_mult.
    change (inject_Z 2) with 2. lra. }
  apply round_mono in Hq. rewrite round_inject in Hq.
  rewrite Zle_Qle, inject_Z_mult in Hq. change (inject_Z 2) with 2 in Hq.
  set (m := inject_Z (Py.round (x / u))) in *. nra.
Qed.

Lemma fl_pos_lower (x : Q) :
  0 < x -> (-1022 <= Py.ilog2 x)%Z -> Py.pow2 (Py.ilog2 x) <= Py.fl_pos x.
Proof.
  intros Hx Hn. unfold Py.fl_pos.
  replace (Z.max (Py.ilog2 x) (-1022)) with (Py.ilog2 x) by lia.
  set (e := Py.ilog2 x).
  pose proof (ilog2_spec x Hx) as [Hlo _]. fold e in Hlo.
  pose proof (pow2_pos (e - 52)) as Hu.
  pose proof (pow2_53 e) as H53.
  set (u := Py.pow2 (e - 52)) in *.
  assert (Hq : inject_Z (2 ^ 52) <= x / u).
  { apply Qle_shift_div_l; [exact Hu |]. lra. }
  apply round_mono in Hq. rewrite round_inject in Hq.
  rewrite Zle_Qle in Hq.
  set (m := inject_Z (Py.round (x / u))) in *. nra.
Qed.

Lemma fl_pos_nonneg (x : Q) : 0 < x -> 0 <= Py.fl_pos x.
Proof.
  intros Hx. unfold Py.fl_pos.
  set (u := Py.pow2 _). pose proof (pow2_pos (Z.max (Py.ilog2 x) (-1022) - 52)) as Hu.
  fold u in Hu.
  assert (Hq : inject_Z 0 <= x / u).
  { apply Qle_shift_div_l; [exact Hu |]. change (inject_Z 0) with 0. lra. }
  apply round_mono in Hq. rewrite round_inject in Hq. rewrite Zle_Qle in Hq.
  change (inject_Z 0) with 0 in Hq. nra.
Qed.

Lemma fl_pos_mono (x y : Q) : 0 < x -> x <= y -> Py.fl_pos x <= Py.fl_pos y.
Proof.
  intros Hx Hxy.
  pose proof (ilog2_mono x y Hx Hxy) as Hlog.
  destruct (Z.eq_dec (Z.max (Py.ilog2 x) (-1022)) (Z.max (Py.ilog2 y) (-1022))) as [Heq | Hne].
  - unfold Py.fl_pos. rewrite <- Heq.
    set (u := Py.pow2 _). pose proof (pow2_pos (Z.max (Py.ilog2 x) (-1022) - 52)) as Hu.
    fold u in Hu.
    assert (Hq : x / u <= y / u).
    { unfold Qdiv. apply Qmult_le_compat_r; [exact Hxy |].
      apply Qlt_le_weak, Qinv_lt_0_compat, Hu. }
    apply round_mono in Hq. rewrite Zle_Qle in Hq. nra.
  - pose proof (fl_pos_upper x Hx) as Hup.
    pose proof (fl_pos_lower y ltac:(lra) ltac:(lia)) as Hlow.
    rewrite <- pow2_succ in Hup.
    pose proof (pow2_mono (Z.max (Py.ilog2 x) (-1022) + 1) (Py.ilog2 y) ltac:(lia)).
    lra.
Qed.

Lemma fl_nonneg (x : Q) : 0 <= x -> 0 <= Py.fl x.
Proof.
  intros Hx. unfold Py.fl.
  destruct (Qeq_bool x 0) eqn:E; [apply Qle_refl |].
  apply Qeq_bool_neq in E.
  destruct (Qltb_spec x 0); [lra |]. apply fl_pos_nonneg. lra.
Qed.

Lemma fl_nonpos (x : Q) : x <= 0 -> Py.fl x <= 0.
Proof.
  intros Hx. unfold Py.fl.
  destruct (Qeq_bool x 0) eqn:E; [apply Qle_refl |].
  apply Qeq_bool_neq in E.
  destruct (Qltb_spec x 0); [| lra].
  pose proof (fl_pos_nonneg (- x) ltac:(lra)). lra.
Qed.

(** Rounding to the nearest double keeps the order. *)
Lemma fl_mono (x y : Q) : x <= y -> Py.fl x <= Py.fl y.
Proof.
  intros Hxy.
  destruct (Qlt_le_dec 0 x) as [Hx | Hx].
  - unfold Py.fl.
    destruct (Qeq_bool x 0) eqn:Ex; [apply Qeq_bool_iff in Ex; lra |].
    destruct (Qeq_bool y 0) eqn:Ey; [apply Qeq_bool_iff in Ey; lra |].
    destruct (Qltb_spec x 0); [lra |]. destruct (Qltb_spec y 0); [lra |].
    now apply fl_pos_mono.
  - destruct (Qlt_le_dec y 0) as [Hy | Hy].
    + unfold Py.fl.
      destruct (Qeq_bool x 0) eqn:Ex; [apply Qeq_bool_iff in Ex; lra |].
      destruct (Qeq_bool y 0) eqn:Ey; [apply Qeq_bool_iff in Ey; lra |].
      destruct (Qltb_spec x 0); [| lra]. destruct (Qltb_spec y 0); [| lra].
      pose proof (fl_pos_mono (- y) (- x) ltac:(lra) ltac:(lra)). lra.
    + pose proof (fl_nonpos x Hx). pose proof (fl_nonneg y Hy). lra.
Qed.

Lemma fl_comp (x y : Q) : x == y -> Py.fl x == Py.fl y.
Proof.
  intros H. apply Qle_antisym; apply fl_mono; lra.
Qed.

Lemma fl_pos_comp (x y : Q) : 0 < x -> x == y -> Py.fl_pos x == Py.fl_pos y.
Proof.
  intros Hx Hxy. apply Qle_antisym; apply fl_pos_mono; lra.
Qed.

(** Rounding moves a real of magnitude at most [2^k] by at most
    [2^(k-53)]. *)
Lemma fl_pos_near (x : Q) (k : Z) :
  0 < x -> x <= Py.pow2 k -> (-1022 <= k)%Z ->
  x - Py.pow2 (k - 53) <= Py.fl_pos x <= x + Py.pow2 (k - 53).
Proof.
  intros Hx Hk Hmin.
  pose proof (ilog2_spec x Hx) as [Hlo _].
  assert (He : (Z.max (Py.ilog2 x) (-1022) <= k)%Z).
  { assert (H : Py.pow2 (Py.ilog2 x) <= Py.pow2 k) by lra.
    apply Qpower_le_compat_l_inv in H; [lia | reflexivity]. }
  unfold Py.fl_pos. set (e := Z.max _ _) in *.
  pose proof (pow2_pos (e - 52)) as Hu.
  pose proof (pow2_mono (e - 53) (k - 53) ltac:(lia)) as Hm.
  assert (Hhalf : Py.pow2 (e - 52) == 2 * Py.pow2 (e - 53)).
  { rewrite <- pow2_succ. replace (e - 53 + 1)%Z with (e - 52)%Z by lia. reflexivity. }
  pose proof (round_near (x / Py.pow2 (e - 52))) as [Hr1 Hr2].
  assert (Hxu : x / Py.pow2 (e - 52) * Py.pow2 (e - 52) == x) by (field; lra).
  set (u := Py.pow2 (e - 52)) in *. set (q := x / u) in *.
  set (r := inject_Z (Py.round q)) in *.
  set (h := Py.pow2 (e - 53)) in *. set (p := Py.pow2 (k - 53)) in *.
  clearbody u q r h p.
  assert (H1 : 0 <= (r - q + (1 # 2)) * u) by (apply Qmult_le_0_compat; lra).
  assert (H2 : 0 <= (q + (1 # 2) - r) * u) by (apply Qmult_le_0_compat; lra).
  split; lra.
Qed.

Lemma fl_near (x : Q) (k : Z) :
  (-1022 <= k)%Z -> - Py.pow2 k <= x <= Py.pow2 k ->
  x - Py.pow2 (k - 53) <= Py.fl x <= x + Py.pow2 (k - 53).
Proof.
  intros Hmin [Hlo Hhi]. pose proof (pow2_pos (k - 53)) as Hp. unfold Py.fl.
  destruct (Qeq_bool x 0) eqn:E.
  - apply Qeq_bool_iff in E. lra.
  - apply Qeq_bool_neq in E. destruct (Qltb_spec x 0).
    + pose proof (fl_pos_near (- x) k ltac:(lra) ltac:(lra) Hmin). lra.
    + apply fl_pos_near; [lra | exact Hhi | exact Hmin].
Qed.

(** The difference of two time stamps of a video of at most a million
    seconds: the float is within [10^-9] of the real. *)
Lemma fsub_near (a b : Q) :
  0 <= a <= 1000000 -> 0 <= b <= 1000000 ->
  a - b - (1 # 1000000000) <= Py.fsub a b <= a - b + (1 # 1000000000).
Proof.
  intros Ha Hb.
  assert (H20 : Py.pow2 20 == 1048576) by reflexivity.
  assert (H21 : Py.pow2 21 == 2097152) by reflexivity.
  assert (H33 : Py.pow2 (20 - 53) == 1 # 8589934592) by reflexivity.
  assert (H32 : Py.pow2 (21 - 53) == 1 # 4294967296) by reflexivity.
  pose proof (fl_near a 20 ltac:(lia) ltac:(lra)) as Hfa.
  pose proof (fl_near b 20 ltac:(lia) ltac:(lra)) as Hfb.
  unfold Py.fsub.
  pose proof (fl_near (Py.fl a - Py.fl b) 21 ltac:(lia) ltac:(lra)) as Hd.
  lra.
Qed.

(** ** Frame sampling *)

Lemma round_ge_1 (x : Q) : 1 <= x -> (1 <= Py.round x)%Z.
Proof. intros H. change 1%Z with (Py.round 1). now apply round_mono. Qed.

Lemma or_default_zero (x d : Q) : x == 0 -> Py.or_default x d = d.
Proof.
  intros H. unfold Py.or_default.
  destruct (Qeq_bool x 0) eqn:E; [reflexivity |].
  apply Qeq_bool_neq in E. contradiction.
Qed.

Lemma or_default_nonzero (x d : Q) : ~ x == 0 -> Py.or_default x d = x.
Proof.
  intros H. unfold Py.or_default.
  destruct (Qeq_bool x 0) eqn:E; [| reflexivity].
  apply Qeq_bool_iff in E. contradiction.
Qed.

Lemma or_default_not_zero (x d : Q) : ~ d == 0 -> ~ Py.or_default x d == 0.
Proof.
  intros Hd. unfold Py.or_default.
  destruct (Qeq_bool x 0) eqn:E; [exact Hd |].
  now apply Qeq_bool_neq in E.
Qed.

Lemma rounded_rates_pos (hz : Q) : In hz rounded_rates -> 0 < hz.
Proof.
  unfold rounded_rates. simpl.
  intros [<- | [<- | [<- | [<- | []]]]]; reflexivity.
Qed.

Lemma sampled_snoc {A : Type} (step : Z) (frames : list A) (fr : A) :
  sampled step (frames ++ [fr])
  = sampled step frames
    ++ (if (Z.of_nat (S (length frames)) mod step =? 0)%Z
        then [(Z.of_nat (S (length frames)), fr)] else []).
Proof.
  unfold sampled. rewrite imap_app, List.filter_app. f_equal.
  cbn [imap List.filter fst]. rewrite Nat.add_0_r. reflexivity.
Qed.

(** A frame is sampled when its index, counted from 1, is a multiple of
    the step. *)
Lemma sampled_spec {A : Type} (step : Z) (frames : list A) (k : Z) (fr : A) :
  In (k, fr) (sampled step frames)
  <-> (1 <= k)%Z /\ frames !! Z.to_nat (k - 1) = Some fr /\ (k mod step = 0)%Z.
Proof.
  induction frames as [| x frames IH] using rev_ind.
  - cbn. split; [tauto |]. intros (_ & H & _). discriminate.
  - rewrite sampled_snoc, in_app_iff, IH. split.
    + intros [(Hk & Hl & Hm) | Hin].
      * split; [exact Hk |]. split; [| exact Hm].
        apply lookup_app_l_Some, Hl.
      * destruct (Z.eqb_spec (Z.of_nat (S (length frames)) mod step) 0) as [Hm | Hm];
          [| destruct Hin].
        destruct Hin as [[= <- <-] | []].
        split; [lia |]. split; [| exact Hm].
        replace (Z.to_nat (Z.of_nat (S (length frames)) - 1)) with (length frames) by lia.
        apply list_lookup_middle. reflexivity.
    + intros (Hk & Hl & Hm).
      apply lookup_app_Some in Hl as [Hl | [Hlen Hl]]; [left; auto |].
      right. apply list_lookup_singleton_Some in Hl as [Hz ->].
      assert (Hkeq : k = Z.of_nat (S (length frames))) by lia.
      subst k. rewrite Hm. left. reflexivity.
Qed.

Lemma on_samples_snoc {A S : Type} (body : S -> Z -> A -> S) (init : S)
    (samples : list (Z * A)) (k : Z) (fr : A) :
  on_samples body init (samples ++ [(k, fr)]) = body (on_samples body init samples) k fr.
Proof. unfold on_samples. rewrite foldl_snoc. reflexivity. Qed.

(** The traffic-signal loop does nothing with a frame, sampled or not:
    its step has no effect. *)
Lemma ts_scan_counts {frame : Type} (step : Z) (frames : list frame) (idx : Z)
    (violations : list (list (string * Q))) :
  MainV2.ts_scan step frames idx violations
  = ((idx + Z.of_nat (length frames))%Z, violations).
Proof.
  revert idx. induction frames as [| fr rest IH]; intros idx; cbn [MainV2.ts_scan length].
  - f_equal. lia.
  - destruct (negb _); rewrite IH; f_equal; lia.
Qed.

Section SampledLoops.
Context {frame : Type}.
Variable band_observation : list frame -> frame -> nat -> Q * Q.
Variable rotation_deg : frame -> frame -> frame -> option Q.
Variable lateral_flow : frame -> frame -> frame -> option (Q * Q * Q).
Variable shape0 : frame -> Z.
Variable roi_size : frame -> Z -> Z -> Z.
Variable flow_magnitudes : frame -> frame -> Z -> Z -> option (list Q).
Variable fps : Q.
Variable step : Z.

(** The close-encounter loop works on the sampled frames only. *)
Lemma ce_loop_sampled (f0 : frame) (frames : list frame) :
  let st := foldl (MainV2.ce_frame band_observation fps step) (MainV2.loop_init f0) frames in
  let st' := on_samples (MainV2.ce_sample band_observation fps) (MainV2.loop_init f0)
                        (sampled step frames) in
  MainV2.bands st = MainV2.bands st' /\ MainV2.times st = MainV2.times st' /\
  MainV2.machine st = MainV2.machine st' /\ MainV2.seen st = MainV2.seen st' /\
  MainV2.i st = Z.of_nat (length frames).
Proof.
  induction frames as [| fr frames IH] using rev_ind; [repeat split |].
  cbv zeta in *. rewrite foldl_snoc, sampled_snoc, length_app.
  destruct (Z.of_nat (S (length frames)) mod step =? 0)%Z eqn:E;
    [rewrite on_samples_snoc | rewrite app_nil_r];
    set (s := foldl _ _ frames) in *;
    set (s' := on_samples _ _ (sampled step frames)) in *;
    clearbody s s'; destruct IH as (Hb & Ht & Hm & Hs & Hi);
    unfold MainV2.ce_frame; rewrite Hi;
    replace (Z.of_nat (length frames) + 1)%Z with (Z.of_nat (S (length frames))) by lia;
    rewrite E; cbn [negb].
  - unfold MainV2.ce_sample. rewrite Hb, Ht, Hm, Hs.
    cbn [MainV2.bands MainV2.times MainV2.machine MainV2.seen MainV2.i length]. repeat split. lia.
  - cbn [MainV2.bands MainV2.times MainV2.machine MainV2.seen MainV2.i length].
    repeat split; try assumption. lia.
Qed.

(** What the body leaves in [times] and [seen]. *)
Lemma ce_samples_times (st : @MainV2.Loop frame) (samples : list (Z * frame)) :
  let st' := on_samples (MainV2.ce_sample band_observation fps) st samples in
  MainV2.times st' = MainV2.times st ++ map (fun p => MainV2.frame_time fps (fst p)) samples /\
  MainV2.seen st' = MainV2.seen st ++ map snd samples.
Proof.
  induction samples as [| [k fr] samples IH] using rev_ind.
  - cbn. rewrite !app_nil_r. split; reflexivity.
  - cbv zeta in *. destruct IH as [Ht Hs].
    rewrite on_samples_snoc, !map_app, !app_assoc, <- Ht, <- Hs. split; reflexivity.
Qed.

(** The speed loop works on the sampled frames only. *)
Lemma speed_loop_sampled (meters_per_pixel roi_top roi_bottom : Q) (frames : list frame) :
  let init := {| MainV2.frame_count := 0; MainV2.prev_gray_frame := None;
                 MainV2.all_frame_speeds_kmph := [] |} in
  let st := foldl (MainV2.speed_frame shape0 roi_size flow_magnitudes meters_per_pixel
                     roi_top roi_bottom fps step) init frames in
  let st' := on_samples (MainV2.speed_sample shape0 roi_size flow_magnitudes meters_per_pixel
                           roi_top roi_bottom fps step) init (sampled step frames) in
  MainV2.prev_gray_frame st = MainV2.prev_gray_frame st' /\
  MainV2.all_frame_speeds_kmph st = MainV2.all_frame_speeds_kmph st' /\
  MainV2.frame_count st = Z.of_nat (length frames).
Proof.
  induction frames as [| fr frames IH] using rev_ind; [repeat split |].
  cbv zeta in *. rewrite foldl_snoc, sampled_snoc, length_app.
  destruct (Z.of_nat (S (length frames)) mod step =? 0)%Z eqn:E;
    [rewrite on_samples_snoc | rewrite app_nil_r];
    set (s := foldl _ _ frames) in *;
    set (s' := on_samples _ _ (sampled step frames)) in *;
    clearbody s s'; destruct IH as (Hp & Ha & Hi);
    unfold MainV2.speed_frame; rewrite Hi;
    replace (Z.of_nat (length frames) + 1)%Z with (Z.of_nat (S (length frames))) by lia;
    rewrite E; cbn [negb].
  - unfold MainV2.speed_sample. rewrite Hp, Ha.
    assert (Hlen : Z.of_nat (S (length frames)) = Z.of_nat (length frames + length [fr]))
      by (cbn [length]; lia).
    destruct (MainV2.prev_gray_frame s') as [prev |]; [| repeat split; exact Hlen].
    destruct (_ || _); [repeat split; exact Hlen |].
    destruct (flow_magnitudes _ _ _ _); [| repeat split; exact Hlen].
    destruct (_ <? _)%nat; repeat split; exact Hlen.
  - cbn [MainV2.prev_gray_frame MainV2.all_frame_speeds_kmph MainV2.frame_count length].
    repeat split; try assumption. lia.
Qed.

(** The turn loop works on the sampled frames only. *)
Lemma turn_loop_sampled (f0 : frame) (frames : list frame) :
  let init := {| MainV2.t_key := f0; MainV2.t_angles_deg := []; MainV2.t_frame_idx := 0 |} in
  let st := foldl (MainV2.turn_frame rotation_deg f0 step) init frames in
  let st' := on_samples (MainV2.turn_sample rotation_deg f0) init (sampled step frames) in
  MainV2.t_key st = MainV2.t_key st' /\
  MainV2.t_angles_deg st = MainV2.t_angles_deg st' /\
  MainV2.t_frame_idx st = Z.of_nat (length frames).
Proof.
  induction frames as [| fr frames IH] using rev_ind; [repeat split |].
  cbv zeta in *. rewrite foldl_snoc, sampled_snoc, length_app.
  destruct (Z.of_nat (S (length frames)) mod step =? 0)%Z eqn:E;
    [rewrite on_samples_snoc | rewrite app_nil_r];
    set (s := foldl _ _ frames) in *;
    set (s' := on_samples _ _ (sampled step frames)) in *;
    clearbody s s'; destruct IH as (Hk & Ha & Hi);
    unfold MainV2.turn_frame; rewrite Hi;
    replace (Z.of_nat (length frames) + 1)%Z with (Z.of_nat (S (length frames))) by lia;
    rewrite E; cbn [negb].
  - unfold MainV2.turn_sample. rewrite Hk, Ha.
    cbn [MainV2.t_key MainV2.t_angles_deg MainV2.t_frame_idx length]. repeat split. lia.
  - cbn [MainV2.t_key MainV2.t_angles_deg MainV2.t_frame_idx length].
    repeat split; try assumption. lia.
Qed.

(** The lane-change loop works on the sampled frames only. *)
Lemma lane_loop_sampled (f0 : frame) (frames : list frame) :
  let init := {| MainV2.l_prev := f0; MainV2.l_motions := []; MainV2.l_frame_idx := 0 |} in
  let st := foldl (MainV2.lane_frame lateral_flow f0 step) init frames in
  let st' := on_samples (MainV2.lane_sample lateral_flow f0) init (sampled step frames) in
  MainV2.l_prev st = MainV2.l_prev st' /\
  MainV2.l_motions st = MainV2.l_motions st' /\
  MainV2.l_frame_idx st = Z.of_nat (length frames).
Proof.
  induction frames as [| fr frames IH] using rev_ind; [repeat split |].
  cbv zeta in *. rewrite foldl_snoc, sampled_snoc, length_app.
  destruct (Z.of_nat (S (length frames)) mod step =? 0)%Z eqn:E;
    [rewrite on_samples_snoc | rewrite app_nil_r];
    set (s := foldl _ _ frames) in *;
    set (s' := on_samples _ _ (sampled step frames)) in *;
    clearbody s s'; destruct IH as (Hk & Ha & Hi);
    unfold MainV2.lane_frame; rewrite Hi;
    replace (Z.of_nat (length frames) + 1)%Z with (Z.of_nat (S (length frames))) by lia;
    rewrite E; cbn [negb].
  - unfold MainV2.lane_sample. rewrite Hk, Ha.
    cbn [MainV2.l_prev MainV2.l_motions MainV2.l_frame_idx length]. repeat split. lia.
  - cbn [MainV2.l_prev MainV2.l_motions MainV2.l_frame_idx length].
    repeat split; try assumption. lia.
Qed.

(** Each sampled frame of the lane-change loop yields one motion, and
    each sampled frame of the turn loop at most one angle. *)
Lemma lane_samples_motions (f0 : frame) (samples : list (Z * frame)) :
  let init := {| MainV2.l_prev := f0; MainV2.l_motions := []; MainV2.l_frame_idx := 0 |} in
  length (MainV2.l_motions (on_samples (MainV2.lane_sample lateral_flow f0) init samples))
  = length samples.
Proof.
  induction samples as [| [k fr] samples IH] using rev_ind; [reflexivity |].
  cbv zeta in *. rewrite on_samples_snoc. cbn [MainV2.lane_sample MainV2.l_motions].
  rewrite !length_app, IH. reflexivity.
Qed.

Lemma turn_samples_angles (f0 : frame) (samples : list (Z * frame)) :
  let init := {| MainV2.t_key := f0; MainV2.t_angles_deg := []; MainV2.t_frame_idx := 0 |} in
  (length (MainV2.t_angles_deg (on_samples (MainV2.turn_sample rotation_deg f0) init samples))
   <= length samples)%nat.
Proof.
  induction samples as [| [k fr] samples IH] using rev_ind; [reflexivity |].
  cbv zeta in *. rewrite on_samples_snoc. cbn [MainV2.turn_sample MainV2.t_angles_deg].
  destruct (rotation_deg _ _ _); rewrite !length_app; cbn [length]; lia.
Qed.

End SampledLoops.

(** C6, as the source has it.  With [fps = cap.get(CAP_PROP_FPS) or 30.0]
    (so 30 when the capture reports 0), the traffic-signal,
    close-encounter, turn and lane-change extractors compute
    [step = max(1, round(fps / HZ))], which is at least 1 and equals
    [round(fps / HZ)] whenever [HZ <= fps]; the speed extractor computes
    [max(1, int(fps / 5))], a truncation, which is at least 1 as well.
    Each loop counts the frames it reads from 1 and works on those whose
    index is a multiple of its step, and on no other: the close-encounter
    loop (which reads its first frame before the loop) stamps them
    [idx / fps] and returns the events of its machine run on them; the
    turn loop estimates at most one rotation for each of them and the
    lane-change loop one motion, and both count on these; the speed loop
    aggregates the samples it takes on them.  The traffic-signal loop
    does nothing with a frame, so its step has no effect. *)
Theorem sampling_step_spec {frame : Type} (has_yolo : bool)
    (band_observation : list frame -> frame -> nat -> Q * Q)
    (rotation_deg : frame -> frame -> frame -> option Q)
    (lateral_flow : frame -> frame -> frame -> option (Q * Q * Q))
    (shape0 : frame -> Z) (roi_size : frame -> Z -> Z -> Z)
    (flow_magnitudes : frame -> frame -> Z -> Z -> option (list Q))
    (cap : Cv2.VideoCapture frame) (hz : Q) :
  In hz rounded_rates ->
  let fps := Cv2.fps_or_30 cap in
  let step := fun hz => Z.max 1 (Py.round (fps / hz)) in
  let rate := Z.max 1 (Py.int (fps / 5)) in
  (Cv2.CAP_PROP_FPS cap == 0 -> fps = 30) /\
  MainV2.sampling_step fps hz = step hz /\
  (1 <= step hz)%Z /\
  (hz <= fps -> step hz = Py.round (fps / hz)) /\
  MainV2.sample_rate fps = rate /\
  (1 <= rate)%Z /\
  (forall (s k : Z) (frames : list frame) (fr : frame),
     In (k, fr) (sampled s frames)
     <-> (1 <= k)%Z /\ frames !! Z.to_nat (k - 1) = Some fr /\ (k mod s = 0)%Z) /\
  (Cv2.isOpened cap = true -> forall f0 rest, Cv2.stream cap = f0 :: rest ->
     (has_yolo = true ->
        let samples := sampled (step MainV2.PROC_HZ_CE) rest in
        let st := on_samples (MainV2.ce_sample band_observation fps)
                             (MainV2.loop_init f0) samples in
        let merged :=
          MainV2.merge_events
            (MainV2.final_events
               (MainV2.force_close (MainV2.machine st)
                  (default 0 (last (MainV2.times st))))) in
        MainV2.times st = map (fun p => MainV2.frame_time fps (fst p)) samples /\
        MainV2.seen st = f0 :: map snd samples /\
        MainV2.run_close_encounters has_yolo band_observation cap
        = Py.Return {| MainV2.close_encounters := merged;
                       MainV2.event_count := length merged;
                       MainV2.note := None |}) /\
     (let samples := sampled (step MainV2.PROCESS_HZ_TURN) rest in
      let st := on_samples (MainV2.turn_sample rotation_deg f0)
                  {| MainV2.t_key := f0; MainV2.t_angles_deg := [];
                     MainV2.t_frame_idx := 0 |} samples in
      (length (MainV2.t_angles_deg st) <= length samples)%nat /\
      (forall turn_scan,
         MainV2.run_turn_count turn_scan cap
         = Py.Return (turn_scan f0 rest fps (step MainV2.PROCESS_HZ_TURN))) /\
      MainV2.run_turn_count (MainV2.scan_turns rotation_deg) cap
      = Py.Return (MainV2.count_turns (MainV2.t_angles_deg st) fps
                     (step MainV2.PROCESS_HZ_TURN))) /\
     (let samples := sampled (step MainV2.PROCESS_HZ_LC) rest in
      let st := on_samples (MainV2.lane_sample lateral_flow f0)
                  {| MainV2.l_prev := f0; MainV2.l_motions := [];
                     MainV2.l_frame_idx := 0 |} samples in
      length (MainV2.l_motions st) = length samples /\
      (forall lane_change_scan,
         MainV2.run_lane_change_count lane_change_scan cap
         = Py.Return (lane_change_scan f0 rest fps (step MainV2.PROCESS_HZ_LC))) /\
      MainV2.run_lane_change_count (MainV2.scan_lane_changes lateral_flow) cap
      = Py.Return (MainV2.count_lane_changes (MainV2.l_motions st) fps
                     (step MainV2.PROCESS_HZ_LC)))) /\
  (Cv2.isOpened cap = true ->
   forall meters_per_pixel roi_top roi_bottom,
     let st := on_samples (MainV2.speed_sample shape0 roi_size flow_magnitudes
                             meters_per_pixel roi_top roi_bottom fps rate)
                 {| MainV2.frame_count := 0; MainV2.prev_gray_frame := None;
                    MainV2.all_frame_speeds_kmph := [] |}
                 (sampled rate (Cv2.stream cap)) in
     MainV2.calculate_average_speed shape0 roi_size flow_magnitudes cap
       meters_per_pixel roi_top roi_bottom
     = MainV2.aggregate_speeds (MainV2.all_frame_speeds_kmph st)) /\
  (forall (s : Z) (frames : list frame) idx violations,
     MainV2.ts_scan s frames idx violations
     = ((idx + Z.of_nat (length frames))%Z, violations)).
Proof.
  intros Hin fps step rate. pose proof (rounded_rates_pos hz Hin) as Hpos.
  repeat apply conj.
  - intros H0. now apply or_default_zero.
  - reflexivity.
  - subst step. cbn beta. lia.
  - intros Hle. subst step. cbn beta.
    assert (H1 : 1 <= fps / hz).
    { apply Qle_shift_div_l; [exact Hpos | lra]. }
    apply round_ge_1 in H1. lia.
  - reflexivity.
  - subst rate. lia.
  - intros s k frames fr. apply sampled_spec.
  - intros Hopen f0 rest Hstream. repeat apply conj.
    + intros Hyolo samples st merged.
      destruct (ce_samples_times band_observation fps (MainV2.loop_init f0) samples)
        as [Ht Hs].
      fold st in Ht, Hs. split; [exact Ht |]. split; [exact Hs |].
      unfold MainV2.run_close_encounters. rewrite Hyolo, Hopen, Hstream. cbn [negb].
      destruct (ce_loop_sampled band_observation fps (step MainV2.PROC_HZ_CE) f0 rest)
        as (_ & Ht' & Hm' & _).
      fold samples in Ht', Hm'. fold st in Ht', Hm'.
      cbv zeta. fold fps. change (MainV2.sampling_step fps MainV2.PROC_HZ_CE)
        with (step MainV2.PROC_HZ_CE).
      rewrite Ht', Hm'. reflexivity.
    + apply turn_samples_angles.
    + intros turn_scan. unfold MainV2.run_turn_count. rewrite Hopen, Hstream. reflexivity.
    + unfold MainV2.run_turn_count. rewrite Hopen, Hstream. cbn [negb]. f_equal.
      unfold MainV2.scan_turns. fold fps.
      change (MainV2.sampling_step fps MainV2.PROCESS_HZ_TURN)
        with (step MainV2.PROCESS_HZ_TURN).
      destruct (turn_loop_sampled rotation_deg (step MainV2.PROCESS_HZ_TURN) f0 rest)
        as (_ & Ha & _).
      cbv zeta. rewrite Ha. reflexivity.
    + apply lane_samples_motions.
    + intros lane_change_scan. unfold MainV2.run_lane_change_count.
      rewrite Hopen, Hstream. reflexivity.
    + unfold MainV2.run_lane_change_count. rewrite Hopen, Hstream. cbn [negb]. f_equal.
      unfold MainV2.scan_lane_changes. fold fps.
      change (MainV2.sampling_step fps MainV2.PROCESS_HZ_LC)
        with (step MainV2.PROCESS_HZ_LC).
      destruct (lane_loop_sampled lateral_flow (step MainV2.PROCESS_HZ_LC) f0 rest)
        as (_ & Ha & _).
      cbv zeta. rewrite Ha. reflexivity.
  - intros Hopen meters_per_pixel roi_top roi_bottom st.
    unfold MainV2.calculate_average_speed. rewrite Hopen. cbn [negb]. fold fps.
    change (MainV2.sample_rate fps) with rate.
    destruct (speed_loop_sampled shape0 roi_size flow_magnitudes fps rate
                meters_per_pixel roi_top roi_bottom (Cv2.stream cap)) as (_ & Ha & _).
    cbv zeta. rewrite Ha. reflexivity.
  - intros s frames idx violations. apply ts_scan_counts.
Qed.

(** On a clip that reports no frame rate the rate is 30 and the
    close-encounter step is 4: of the nine frames after the first one,
    the fourth and the eighth are sampled.  (The event that opens at
    the eighth frame is closed at the same time stamp, and dropped.) *)
Lemma sampling_step_spec_witness :
  In MainV2.PROC_HZ_CE rounded_rates /\
  Cv2.fps_or_30 unrated_clip = 30 /\
  MainV2.sampling_step (Cv2.fps_or_30 unrated_clip) MainV2.PROC_HZ_CE = 4%Z /\
  sampled 4 (tail (Cv2.stream unrated_clip)) = [(4%Z, 4); (8%Z, 8)] /\
  MainV2.run_close_encounters true (fun _ fr _ => (fr, 0)) unrated_clip
  = Py.Return {| MainV2.close_encounters := []; MainV2.event_count := 0;
                 MainV2.note := None |}.
Proof.
  assert (Hin : In MainV2.PROC_HZ_CE rounded_rates) by (right; left; reflexivity).
  destruct (sampling_step_spec true (fun (_ : list Q) (fr : Q) (_ : nat) => (fr, 0))
              (fun _ _ _ => None) (fun _ _ _ => None) (fun _ => 0%Z) (fun _ _ _ => 0%Z)
              (fun _ _ _ _ => None) unrated_clip MainV2.PROC_HZ_CE Hin)
    as (Hfps & Hstep & _ & _ & _ & _ & _ & Hloops & _).
  split; [exact Hin |]. split; [apply Hfps; reflexivity |].
  split; [rewrite Hstep; reflexivity |]. split; [reflexivity |].
  destruct (Hloops eq_refl 0 (tail (Cv2.stream unrated_clip)) eq_refl) as [Hce _].
  destruct (Hce eq_refl) as (_ & _ & Hrun). rewrite Hrun. vm_compute. reflexivity.
Defined.

(** C6, as stated, fails on the speed loop: at the NTSC rate of 29.97
    frames per second and its target of 5 samples per second (below the
    native rate) the rounded step is [max(1, round(5.994)) = 6], and
    [calculate_average_speed] samples every 5th frame. *)
Lemma sample_rate_truncates :
  let fps := Py.or_default 29.97 30 in
  5 <= fps /\
  Z.max 1 (Py.round (fps / 5)) = 6%Z /\
  MainV2.sample_rate fps = 5%Z /\
  MainV2.sample_rate fps <> Z.max 1 (Py.round (fps / 5)).
Proof. vm_compute. repeat split; discriminate. Qed.

(** ** Traffic signal *)

Lemma ts_scan_violations {frame : Type} (step : Z) (frames : list frame) (idx : Z)
    (violations : list (list (string * Q))) :
  snd (MainV2.ts_scan step frames idx violations) = violations.
Proof.
  revert idx. induction frames as [| fr rest IH]; intros idx; simpl.
  - reflexivity.
  - destruct (negb _); apply IH.
Qed.

Lemma postprocess_windows (dur_sec : Q) (out_json : gmap string JSON)
    (ws : list (list (string * Q))) :
  out_json !! "traffic_violation_windows"%string = Some (JList ws) ->
  MainV2._postprocess_smoother dur_sec out_json
  = Py.Return (<["violation"%string := JBool (0 <? length ws)%nat]> out_json).
Proof.
  intros Hw. unfold MainV2._postprocess_smoother, setdefault, dict_get.
  rewrite Hw. simpl. rewrite Hw. reflexivity.
Qed.

(** C10.  The scan loop of [run_traffic_signal_summary] leaves
    [violations] as it found it; [_postprocess_smoother] sets ['violation']
    to true exactly when ['traffic_violation_windows'] is non-empty; and so
    for every video that opens the function returns a result whose
    ['violations'] and ['traffic_violation_windows'] are empty and whose
    ['violation'] flag is false. *)
Theorem traffic_signal_never_reports {frame : Type} (cap : Cv2.VideoCapture frame) :
  Cv2.isOpened cap = true ->
  (forall step frames idx vs, snd (MainV2.ts_scan (frame := frame) step frames idx vs) = vs) /\
  (forall dur out ws,
      out !! "traffic_violation_windows"%string = Some (JList ws) ->
      exists out',
        MainV2._postprocess_smoother dur out = Py.Return out' /\
        (out' !! "violation"%string = Some (JBool true) <-> ws <> []) /\
        (out' !! "violation"%string = Some (JBool false) <-> ws = [])) /\
  exists out,
    MainV2.run_traffic_signal_summary cap = Py.Return out /\
    out !! "violations"%string = Some (JList []) /\
    out !! "traffic_violation_windows"%string = Some (JList []) /\
    out !! "violation"%string = Some (JBool false).
Proof.
  intros Hopen. split; [| split].
  - intros. apply ts_scan_violations.
  - intros dur out ws Hw. eexists. split; [apply postprocess_windows; exact Hw |].
    rewrite lookup_insert_eq.
    destruct ws; cbn; split; split; intros; congruence.
  - unfold MainV2.run_traffic_signal_summary. rewrite Hopen. simpl.
    assert (Hv : forall (d : Q),
      exists out,
        MainV2._postprocess_smoother d {[ "violations"%string := JList [] ]} = Py.Return out /\
        out !! "violations"%string = Some (JList []) /\
        out !! "traffic_violation_windows"%string = Some (JList []) /\
        out !! "violation"%string = Some (JBool false)).
    { intros d. eexists. split; [reflexivity |]. repeat split. }
    destruct (Cv2.stream cap) as [| first rest].
    + apply Hv.
    + pose proof (ts_scan_violations
                    (MainV2.sampling_step (Cv2.fps_or_30 cap) MainV2.PROCESS_HZ_TS)
                    rest 0 []) as Hs.
      destruct (MainV2.ts_scan _ rest 0 []) as [idx vs]. simpl in Hs. subst vs.
      apply Hv.
Qed.

Lemma traffic_signal_never_reports_witness :
  exists out,
    MainV2.run_traffic_signal_summary
      {| Cv2.path := "a.mp4"; Cv2.isOpened := true; Cv2.CAP_PROP_FPS := 30;
         Cv2.CAP_PROP_FRAME_COUNT := 3; Cv2.CAP_PROP_FRAME_WIDTH := 640;
         Cv2.CAP_PROP_FRAME_HEIGHT := 480; Cv2.CAP_PROP_POS_MSEC := 100;
         Cv2.stream := [tt; tt; tt] |} = Py.Return out /\
    out !! "violation"%string = Some (JBool false).
Proof.
  destruct (traffic_signal_never_reports
              {| Cv2.path := "a.mp4"; Cv2.isOpened := true; Cv2.CAP_PROP_FPS := 30;
                 Cv2.CAP_PROP_FRAME_COUNT := 3; Cv2.CAP_PROP_FRAME_WIDTH := 640;
                 Cv2.CAP_PROP_FRAME_HEIGHT := 480; Cv2.CAP_PROP_POS_MSEC := 100;
                 Cv2.stream := [tt; tt; tt] |} eq_refl) as (_ & _ & out & Hrun & _ & _ & Hv).
  exists out. split; assumption.
Defined.

(** ** Entry points: a source that cannot be opened, a missing detector *)

Section EntryPoints.
Context {frame : Type}.
Variable band_observation : list frame -> frame -> nat -> Q * Q.
Variable model_track : list frame -> frame -> list EnhancedProximity.Detection.
Variables turn_scan lane_change_scan : frame -> list frame -> Q -> Z -> MainV2.TurnCount.
Variable red_coverage : frame -> Z * Z * Z * Z -> Q.
Variable shape0 : frame -> Z.
Variable roi_size : frame -> Z -> Z -> Z.
Variable flow_magnitudes : frame -> frame -> Z -> Z -> option (list Q).

(** C9, as the source has it.  On a path that cannot be opened as a video,
    [run_traffic_signal_summary] raises a [RuntimeError], and so do
    [run_close_encounters] and [detect_close_encounters_enhanced] when the
    detector package is present; [run_turn_count], [run_lane_change_count],
    [run_bus_lane_color] and [calculate_average_speed] return their zero
    result instead.  When the detector package is absent, both
    close-encounter entry points return an empty result with
    [event_count = 0] for every capture, opened or not. *)
Theorem entry_points_on_failure (cap : Cv2.VideoCapture frame) (mpp roi_top roi_bottom : Q) :
  Cv2.isOpened cap = false ->
  (exists msg, MainV2.run_traffic_signal_summary cap = Py.Raise (Py.RuntimeError msg)) /\
  (exists msg, MainV2.run_close_encounters true band_observation cap
               = Py.Raise (Py.RuntimeError msg)) /\
  (exists msg, EnhancedProximity.detect_close_encounters_enhanced true model_track cap
               = Py.Raise (Py.RuntimeError msg)) /\
  MainV2.run_turn_count turn_scan cap = Py.Return MainV2.no_turns /\
  MainV2.run_lane_change_count lane_change_scan cap = Py.Return MainV2.no_turns /\
  MainV2.run_bus_lane_color red_coverage cap
    = Py.Return {| MainV2.violation_detected := false; MainV2.violation_ranges := [] |} /\
  MainV2.calculate_average_speed shape0 roi_size flow_magnitudes cap mpp roi_top roi_bottom
    = 0.0 /\
  (forall cap' : Cv2.VideoCapture frame,
      exists r, MainV2.run_close_encounters false band_observation cap' = Py.Return r /\
                MainV2.close_encounters r = [] /\ MainV2.event_count r = 0%nat) /\
  (forall cap' : Cv2.VideoCapture frame,
      exists r, EnhancedProximity.detect_close_encounters_enhanced false model_track cap'
                = Py.Return r /\
                EnhancedProximity.close_encounters r = [] /\
                EnhancedProximity.event_count r = 0%nat).
Proof.
  intros Hclosed.
  unfold MainV2.run_traffic_signal_summary, MainV2.run_close_encounters,
    EnhancedProximity.detect_close_encounters_enhanced, EnhancedProximity.init,
    MainV2.run_turn_count, MainV2.run_lane_change_count, MainV2.run_bus_lane_color,
    MainV2.calculate_average_speed.
  rewrite Hclosed. cbn.
  repeat split; eauto.
Qed.

End EntryPoints.

Lemma entry_points_on_failure_witness :
  MainV2.run_turn_count (fun (_ : unit) _ _ _ => MainV2.no_turns)
    {| Cv2.path := "missing.mp4"; Cv2.isOpened := false; Cv2.CAP_PROP_FPS := 0;
       Cv2.CAP_PROP_FRAME_COUNT := 0; Cv2.CAP_PROP_FRAME_WIDTH := 0;
       Cv2.CAP_PROP_FRAME_HEIGHT := 0; Cv2.CAP_PROP_POS_MSEC := 0;
       Cv2.stream := [] |} = Py.Return MainV2.no_turns.
Proof.
  apply (entry_points_on_failure (frame := unit)
           (fun _ _ _ => (0, 0)) (fun _ _ => []) (fun _ _ _ _ => MainV2.no_turns)
           (fun _ _ _ _ => MainV2.no_turns) (fun _ _ => 0) (fun _ => 0%Z)
           (fun _ _ _ => 0%Z) (fun _ _ _ _ => None)
           {| Cv2.path := "missing.mp4"; Cv2.isOpened := false; Cv2.CAP_PROP_FPS := 0;
              Cv2.CAP_PROP_FRAME_COUNT := 0; Cv2.CAP_PROP_FRAME_WIDTH := 0;
              Cv2.CAP_PROP_FRAME_HEIGHT := 0; Cv2.CAP_PROP_POS_MSEC := 0;
              Cv2.stream := [] |} 0.05 0.6 0.9 eq_refl).
Defined.

(** C9, as stated, fails on [run_turn_count]: on a capture that cannot be
    opened it returns the zero result and raises nothing. *)
Lemma turn_count_swallows_open_failure :
  let cap := {| Cv2.path := "missing.mp4"; Cv2.isOpened := false; Cv2.CAP_PROP_FPS := 0;
                Cv2.CAP_PROP_FRAME_COUNT := 0; Cv2.CAP_PROP_FRAME_WIDTH := 0;
                Cv2.CAP_PROP_FRAME_HEIGHT := 0; Cv2.CAP_PROP_POS_MSEC := 0;
                Cv2.stream := @nil unit |} in
  Cv2.isOpened cap = false /\
  ~ exists e, MainV2.run_turn_count (fun _ _ _ _ => MainV2.no_turns) cap = Py.Raise e.
Proof. split; [reflexivity |]. intros [e He]. discriminate He. Qed.

(** ** Bus-lane colour: the unanimous buffer *)

Lemma forallb_id_Forall (l : list bool) :
  forallb id l = true <-> Forall (fun x => x = true) l.
Proof.
  induction l as [| x l IH]; simpl.
  - split; [constructor | reflexivity].
  - rewrite andb_true_iff, IH, Forall_cons. reflexivity.
Qed.

Lemma existsb_id_Forall (l : list bool) :
  existsb id l = false <-> Forall (fun x => x = false) l.
Proof.
  induction l as [| x l IH]; simpl.
  - split; [constructor | reflexivity].
  - rewrite orb_false_iff, IH, Forall_cons. reflexivity.
Qed.

Lemma deque_append_length {A : Type} (n : nat) (d : list A) (x : A) :
  length (Py.deque_append n d x) = Nat.min (S (length d)) n.
Proof.
  unfold Py.deque_append. rewrite length_drop, length_app.
  change (length [x]) with 1%nat. lia.
Qed.

Lemma deque_append_room {A : Type} (n : nat) (d : list A) (x : A) :
  (length d < n)%nat -> Py.deque_append n d x = d ++ [x].
Proof.
  intros H. unfold Py.deque_append. rewrite length_app. simpl.
  replace (length d + 1 - n)%nat with 0%nat by lia. reflexivity.
Qed.

Lemma deque_append_full {A : Type} (n : nat) (d : list A) (x : A) :
  length d = n -> Py.deque_append n d x = drop 1 (d ++ [x]).
Proof.
  intros H. unfold Py.deque_append. rewrite length_app. simpl.
  replace (length d + 1 - n)%nat with 1%nat by lia. reflexivity.
Qed.

Lemma set_end_open (ws : list (Q * Q)) (s e : Q) :
  MainV2.set_end_if_absent (map closed_range ws ++ [open_range s]) e
  = map closed_range (ws ++ [(s, e)]).
Proof.
  unfold MainV2.set_end_if_absent. rewrite last_snoc. cbn.
  rewrite length_app. cbn.
  replace (length (map closed_range ws) + 1 - 1)%nat
    with (length (map closed_range ws) + 0)%nat by lia.
  rewrite insert_app_r. cbn. rewrite map_app. reflexivity.
Qed.

Lemma set_end_closed (ws : list (Q * Q)) (e : Q) :
  MainV2.set_end_if_absent (map closed_range ws) e = map closed_range ws.
Proof.
  unfold MainV2.set_end_if_absent.
  destruct ws as [| w ws _] using rev_ind; [reflexivity |].
  rewrite map_app. cbn [map]. rewrite last_snoc. reflexivity.
Qed.

Lemma bus_final_closed (ws : list (Q * Q)) :
  MainV2.bus_final (map closed_range ws)
  = map (fun w => (Py.round_n (fst w) 2, Py.round_n (snd w) 2))
        (List.filter long_enough ws).
Proof.
  induction ws as [| w ws IH]; [reflexivity |].
  cbn [map MainV2.bus_final closed_range MainV2.r_end_time MainV2.r_start_time List.filter].
  unfold long_enough at 1.
  destruct (_ <=? _); cbn [map]; rewrite IH; reflexivity.
Qed.

Lemma windows_at_closed (t_end : Q) (ws : list (Q * Q)) :
  windows_at t_end (map closed_range ws) = ws.
Proof.
  unfold windows_at. induction ws as [| [a b] ws IH]; [reflexivity |].
  cbn. f_equal. exact IH.
Qed.

Lemma windows_at_open (t_end : Q) (ws : list (Q * Q)) (s : Q) :
  windows_at t_end (map closed_range ws ++ [open_range s]) = ws ++ [(s, t_end)].
Proof.
  unfold windows_at. rewrite map_app. fold (windows_at t_end (map closed_range ws)).
  rewrite windows_at_closed. reflexivity.
Qed.

(** After the loop every window is closed: the open one at the time of
    the last frame. *)
Lemma bus_close_windows (fps : Q) (st : MainV2.BusLoop) :
  bus_shape st ->
  MainV2.bus_close fps st
  = map closed_range
        (windows_at (MainV2.frame_time fps (MainV2.frame_idx st)) (MainV2.ranges st)).
Proof.
  intros [ws Hr]. unfold MainV2.bus_close.
  destruct (MainV2.violation_active st).
  - destruct Hr as [s ->]. rewrite windows_at_open. apply set_end_open.
  - rewrite Hr, windows_at_closed. reflexivity.
Qed.

Section BusLaneBuffer.
Variable fps : Q.

Abbreviation run := (foldl (MainV2.bus_step fps) MainV2.bus_init).
Abbreviation SIZE := MainV2.BUFFER_SIZE_FRAMES.

Lemma unanimous_true_test (buf : list bool) :
  (length buf =? SIZE)%nat && forallb id buf = true <-> unanimous true buf.
Proof.
  unfold unanimous.
  rewrite andb_true_iff, Nat.eqb_eq, forallb_id_Forall. reflexivity.
Qed.

Lemma unanimous_false_test (buf : list bool) :
  (length buf =? SIZE)%nat && negb (existsb id buf) = true <-> unanimous false buf.
Proof.
  unfold unanimous.
  rewrite andb_true_iff, Nat.eqb_eq, negb_true_iff, existsb_id_Forall. reflexivity.
Qed.

Lemma unanimous_exclusive (buf : list bool) :
  unanimous true buf -> unanimous false buf -> False.
Proof.
  intros [Hlen Ht] [_ Hf]. destruct buf as [| x buf]; [discriminate Hlen |].
  apply Forall_cons in Ht as [-> _]. apply Forall_cons in Hf as [Hx _]. discriminate.
Qed.

(** From an inactive state: the step opens a window when the buffer it
    has just filled is unanimously true, and does nothing to [ranges]
    otherwise. *)
Lemma bus_step_inactive (st : MainV2.BusLoop) (b : bool) :
  MainV2.violation_active st = false ->
  let buf := Py.deque_append SIZE (MainV2.buffer st) b in
  let st' := MainV2.bus_step fps st b in
  MainV2.buffer st' = buf /\
  MainV2.frame_idx st' = (MainV2.frame_idx st + 1)%Z /\
  ((unanimous true buf /\
    MainV2.violation_active st' = true /\
    MainV2.ranges st' =
      MainV2.ranges st ++ [open_range (MainV2.frame_time fps (MainV2.frame_idx st + 1))])
   \/ (~ unanimous true buf /\
       MainV2.violation_active st' = false /\
       MainV2.ranges st' = MainV2.ranges st)).
Proof.
  intros Hin buf st'. subst st'. unfold MainV2.bus_step. fold buf. rewrite Hin.
  cbn [negb]. rewrite andb_true_l.
  destruct ((length buf =? SIZE)%nat && forallb id buf) eqn:Et.
  - apply unanimous_true_test in Et.
    rewrite andb_true_l.
    destruct ((length buf =? SIZE)%nat && negb (existsb id buf)) eqn:Ef.
    + apply unanimous_false_test in Ef. destruct (unanimous_exclusive buf Et Ef).
    + simpl. auto 10.
  - assert (Hn : ~ unanimous true buf).
    { intros H. apply unanimous_true_test in H. congruence. }
    simpl. auto 10.
Qed.

(** From an active state: no window opens; the step closes the current
    one when the buffer is unanimously false. *)
Lemma bus_step_active (st : MainV2.BusLoop) (b : bool) :
  MainV2.violation_active st = true ->
  let buf := Py.deque_append SIZE (MainV2.buffer st) b in
  let st' := MainV2.bus_step fps st b in
  MainV2.buffer st' = buf /\
  MainV2.frame_idx st' = (MainV2.frame_idx st + 1)%Z /\
  length (MainV2.ranges st') = length (MainV2.ranges st) /\
  ((unanimous false buf /\ MainV2.violation_active st' = false /\
    MainV2.ranges st' =
      MainV2.set_end_if_absent (MainV2.ranges st)
        (MainV2.frame_time fps (MainV2.frame_idx st + 1)))
   \/ (~ unanimous false buf /\ MainV2.violation_active st' = true /\
       MainV2.ranges st' = MainV2.ranges st)).
Proof.
  intros Hact buf st'. subst st'. unfold MainV2.bus_step. fold buf. rewrite Hact.
  cbn [negb andb].
  destruct ((length buf =? SIZE)%nat && negb (existsb id buf)) eqn:Ef.
  - apply unanimous_false_test in Ef. simpl. repeat split; auto.
    unfold MainV2.set_end_if_absent.
    destruct (last _) as [r |]; [| reflexivity].
    destruct (MainV2.r_end_time r); [reflexivity |]. apply length_insert.
  - assert (Hn : ~ unanimous false buf).
    { intros H. apply unanimous_false_test in H. congruence. }
    simpl. auto 10.
Qed.

Lemma bus_step_buffer (st : MainV2.BusLoop) (b : bool) :
  MainV2.buffer (MainV2.bus_step fps st b) = Py.deque_append SIZE (MainV2.buffer st) b.
Proof.
  destruct (MainV2.violation_active st) eqn:E.
  - apply (bus_step_active st b E).
  - apply (bus_step_inactive st b E).
Qed.

Lemma bus_step_frame_idx (st : MainV2.BusLoop) (b : bool) :
  MainV2.frame_idx (MainV2.bus_step fps st b) = (MainV2.frame_idx st + 1)%Z.
Proof.
  destruct (MainV2.violation_active st) eqn:E.
  - apply (bus_step_active st b E).
  - apply (bus_step_inactive st b E).
Qed.

(** [frame_idx] counts the frames read. *)
Lemma run_frame_idx (flags : list bool) :
  MainV2.frame_idx (run flags) = Z.of_nat (length flags).
Proof.
  induction flags as [| b flags IH] using rev_ind; [reflexivity |].
  rewrite foldl_snoc, bus_step_frame_idx, IH, length_app. simpl. lia.
Qed.

(** The buffer holds the last [BUFFER_SIZE_FRAMES] flags, or all of them
    while they are fewer. *)
Lemma run_buffer (flags : list bool) :
  MainV2.buffer (run flags) = drop (length flags - SIZE) flags.
Proof.
  induction flags as [| b flags IH] using rev_ind; [reflexivity |].
  rewrite foldl_snoc, bus_step_buffer, IH, length_app.
  change (length [b]) with 1%nat.
  destruct (le_lt_dec SIZE (length flags)) as [Hge | Hlt].
  - rewrite deque_append_full by (rewrite length_drop; lia).
    rewrite !drop_app_le by (rewrite ?length_drop; unfold MainV2.BUFFER_SIZE_FRAMES in *; lia).
    rewrite drop_drop. do 2 f_equal. unfold MainV2.BUFFER_SIZE_FRAMES in *. lia.
  - replace (length flags - SIZE)%nat with 0%nat by lia.
    replace (length flags + 1 - SIZE)%nat with 0%nat by lia.
    rewrite !drop_0. apply deque_append_room. exact Hlt.
Qed.

(** The shape of [ranges] along the loop. *)
Lemma bus_step_shape (st : MainV2.BusLoop) (b : bool) :
  bus_shape st -> bus_shape (MainV2.bus_step fps st b).
Proof.
  intros [ws Hr]. unfold bus_shape.
  destruct (MainV2.violation_active st) eqn:Eact.
  - destruct Hr as [s Hr].
    destruct (bus_step_active st b Eact) as (_ & _ & _ & [(_ & -> & Hr') | (_ & -> & Hr')]);
      rewrite Hr', Hr.
    + eexists. apply set_end_open.
    + exists ws, s. reflexivity.
  - destruct (bus_step_inactive st b Eact) as (_ & _ & [(_ & -> & Hr') | (_ & -> & Hr')]);
      rewrite Hr', Hr.
    + exists ws. eexists. reflexivity.
    + exists ws. reflexivity.
Qed.

Lemma run_shape (flags : list bool) : bus_shape (run flags).
Proof.
  induction flags as [| b flags IH] using rev_ind.
  - exists []. reflexivity.
  - rewrite foldl_snoc. apply bus_step_shape, IH.
Qed.

(** While fewer than [BUFFER_SIZE_FRAMES] frames have been read, the buffer
    holds them all and nothing has happened. *)
Lemma run_short (flags : list bool) :
  (length flags < SIZE)%nat ->
  run flags = {| MainV2.buffer := flags; MainV2.violation_active := false;
                 MainV2.ranges := []; MainV2.frame_idx := Z.of_nat (length flags) |}.
Proof.
  induction flags as [| b flags IH] using rev_ind; intros Hlen.
  - reflexivity.
  - rewrite length_app in Hlen. simpl in Hlen.
    rewrite foldl_snoc, IH by lia.
    unfold MainV2.bus_step. cbn [MainV2.buffer MainV2.violation_active MainV2.ranges
                                 MainV2.frame_idx negb andb].
    rewrite deque_append_room by lia.
    replace (length (flags ++ [b]) =? SIZE)%nat with false
      by (symmetry; apply Nat.eqb_neq; rewrite length_app; simpl; lia).
    cbn [andb]. f_equal. rewrite length_app. simpl. lia.
Qed.

(** Once a window is open the buffer is full, and stays so. *)
Lemma run_active_full (flags : list bool) :
  MainV2.violation_active (run flags) = true ->
  length (MainV2.buffer (run flags)) = SIZE.
Proof.
  induction flags as [| b flags IH] using rev_ind; [discriminate |].
  rewrite foldl_snoc. intros Hact.
  destruct (MainV2.violation_active (run flags)) eqn:E.
  - rewrite bus_step_buffer, deque_append_length, (IH eq_refl).
    unfold MainV2.BUFFER_SIZE_FRAMES. lia.
  - destruct (bus_step_inactive (run flags) b E) as (Hb & _ & [(Hu & _) | (_ & Hf & _)]).
    + rewrite Hb. apply Hu.
    + congruence.
Qed.

(** A stream of [true] flags: the window opens at frame
    [BUFFER_SIZE_FRAMES] and no other window follows. *)
Lemma run_all_true (n : nat) :
  (SIZE <= n)%nat ->
  run (replicate n true)
  = {| MainV2.buffer := replicate SIZE true; MainV2.violation_active := true;
       MainV2.ranges := [open_range (MainV2.frame_time fps (Z.of_nat SIZE))];
       MainV2.frame_idx := Z.of_nat n |}.
Proof.
  induction n as [| n IH]; intros Hn; [unfold MainV2.BUFFER_SIZE_FRAMES in Hn; lia |].
  rewrite replicate_S_end, foldl_snoc.
  destruct (decide (n = 11%nat)) as [-> | Hne].
  - rewrite run_short by (rewrite length_replicate; unfold MainV2.BUFFER_SIZE_FRAMES; lia).
    reflexivity.
  - rewrite IH by (unfold MainV2.BUFFER_SIZE_FRAMES in *; lia).
    unfold MainV2.bus_step. cbn. f_equal. lia.
Qed.

(** Without [BUFFER_SIZE_FRAMES] consecutive [true] flags no window ever
    opens. *)
Lemma run_no_window (flags : list bool) :
  no_full_run flags ->
  MainV2.violation_active (run flags) = false /\ MainV2.ranges (run flags) = [].
Proof.
  induction flags as [| b flags IH] using rev_ind; intros Hno; [split; reflexivity |].
  destruct IH as [Hact Hr].
  { intros k Hk. specialize (Hno k). rewrite length_app in Hno. simpl in Hno.
    specialize (Hno ltac:(lia)).
    rewrite drop_app_le, take_app_le in Hno by (rewrite ?length_drop; lia).
    exact Hno. }
  rewrite foldl_snoc.
  destruct (bus_step_inactive (run flags) b Hact) as (Hb & _ & [(Hu & _) | (_ & -> & ->)]);
    [| split; [reflexivity | exact Hr]].
  exfalso. rewrite <- Hb in Hu. rewrite <- foldl_snoc, run_buffer in Hu.
  destruct Hu as [Hlen Hall].
  rewrite length_drop in Hlen.
  specialize (Hno (length (flags ++ [b]) - SIZE)%nat ltac:(lia)).
  rewrite take_ge in Hno by (rewrite length_drop; lia).
  rewrite Forall_forall in Hall.
  apply list_elem_of_In in Hno. specialize (Hall _ Hno). discriminate.
Qed.

End BusLaneBuffer.

(** C7.  In [run_bus_lane_color], with [st] the loop after the frames
    [frames] and [st'] after one more frame [fr], read at time [now]: the
    buffer holds the flags of the last [BUFFER_SIZE_FRAMES] frames.  From
    an inactive state a window opens exactly when the buffer is full and
    entirely true, and an entry with start time [now] and no end time is
    then appended to [ranges]; otherwise [ranges] is left alone, so one
    false entry in the buffer keeps any window from opening.  From an
    active state, where the last entry of [ranges] is the open window, the
    window closes exactly when the buffer is entirely false, and [now] is
    then recorded as its end time; otherwise [ranges] is left alone.  For
    the whole video the extractor reports the windows of [ranges], the
    open one closed at the time of the last frame, that last
    [MIN_DURATION_SEC].  When all the [n >= BUFFER_SIZE_FRAMES] frames of
    the video are on the lane the loop opens exactly one window, at frame
    [BUFFER_SIZE_FRAMES]; without [BUFFER_SIZE_FRAMES] consecutive frames
    on the lane it opens none, and no violation is reported. *)
Theorem unanimous_buffer_windows {frame : Type} (red_coverage : frame -> Z * Z * Z * Z -> Q)
    (cap : Cv2.VideoCapture frame) (frames : list frame) (fr : frame) :
  let fps := Cv2.fps_or_30 cap in
  let roi := MainV2._get_roi_rect (Py.int (Cv2.CAP_PROP_FRAME_HEIGHT cap))
                                  (Py.int (Cv2.CAP_PROP_FRAME_WIDTH cap)) in
  let flags := map (MainV2.on_bus_lane red_coverage roi) in
  let loop := fun fs => foldl (MainV2.bus_step fps) MainV2.bus_init (flags fs) in
  let st := loop frames in
  let st' := loop (frames ++ [fr]) in
  let buf := MainV2.buffer st' in
  let now := MainV2.frame_time fps (Z.of_nat (length frames) + 1) in
  let n := length (Cv2.stream cap) in
  let t_open := MainV2.frame_time fps (Z.of_nat MainV2.BUFFER_SIZE_FRAMES) in
  let t_end := MainV2.frame_time fps (Z.of_nat n) in
  buf = drop (length frames + 1 - MainV2.BUFFER_SIZE_FRAMES) (flags (frames ++ [fr])) /\
  (MainV2.violation_active st = false ->
     (MainV2.violation_active st' = true <-> unanimous true buf) /\
     (unanimous true buf -> MainV2.ranges st' = MainV2.ranges st ++ [open_range now]) /\
     (~ unanimous true buf -> MainV2.ranges st' = MainV2.ranges st) /\
     (In false buf ->
        MainV2.violation_active st' = false /\ MainV2.ranges st' = MainV2.ranges st)) /\
  (MainV2.violation_active st = true ->
     (MainV2.violation_active st' = false <-> Forall (fun x => x = false) buf) /\
     exists ws s,
       MainV2.ranges st = map closed_range ws ++ [open_range s] /\
       (Forall (fun x => x = false) buf ->
          MainV2.ranges st' = map closed_range (ws ++ [(s, now)])) /\
       (~ Forall (fun x => x = false) buf -> MainV2.ranges st' = MainV2.ranges st)) /\
  (Cv2.isOpened cap = true ->
     MainV2.run_bus_lane_color red_coverage cap
     = Py.Return (reported (windows_at t_end (MainV2.ranges (loop (Cv2.stream cap)))))) /\
  (Cv2.isOpened cap = true -> (MainV2.BUFFER_SIZE_FRAMES <= n)%nat ->
   Forall (fun b => b = true) (flags (Cv2.stream cap)) ->
     MainV2.ranges (loop (Cv2.stream cap)) = [open_range t_open] /\
     MainV2.run_bus_lane_color red_coverage cap = Py.Return (reported [(t_open, t_end)])) /\
  (Cv2.isOpened cap = true -> no_full_run (flags (Cv2.stream cap)) ->
     MainV2.ranges (loop (Cv2.stream cap)) = [] /\
     MainV2.run_bus_lane_color red_coverage cap
     = Py.Return {| MainV2.violation_detected := false; MainV2.violation_ranges := [] |}).
Proof.
  intros fps roi flags loop st st' buf now n t_open t_end.
  assert (Hst' : st' = MainV2.bus_step fps st (MainV2.on_bus_lane red_coverage roi fr)).
  { subst st' st loop flags. cbn beta. rewrite map_app. apply foldl_snoc. }
  assert (Hidx : MainV2.frame_idx st = Z.of_nat (length frames)).
  { subst st loop flags. cbn beta. rewrite run_frame_idx, length_map. reflexivity. }
  assert (Hrun : Cv2.isOpened cap = true ->
     MainV2.run_bus_lane_color red_coverage cap
     = Py.Return (reported (windows_at t_end (MainV2.ranges (loop (Cv2.stream cap)))))).
  { intros Hopen. unfold MainV2.run_bus_lane_color. rewrite Hopen. cbn [negb].
    fold fps roi. fold (flags (Cv2.stream cap)). fold (loop (Cv2.stream cap)).
    rewrite (bus_close_windows fps (loop (Cv2.stream cap))) by apply run_shape.
    rewrite bus_final_closed.
    replace (MainV2.frame_idx (loop (Cv2.stream cap))) with (Z.of_nat n); [reflexivity |].
    subst loop flags n. cbn beta. rewrite run_frame_idx, length_map. reflexivity. }
  repeat apply conj.
  - subst buf st' loop flags. cbn beta. rewrite run_buffer, length_map, length_app.
    reflexivity.
  - intros Hin.
    destruct (bus_step_inactive fps st (MainV2.on_bus_lane red_coverage roi fr) Hin)
      as (Hb & _ & Hcase).
    rewrite <- Hst' in Hb, Hcase. fold buf in Hb. rewrite <- Hb, Hidx in Hcase. fold now in Hcase.
    destruct Hcase as [(Hu & Ha & Hr) | (Hn & Ha & Hr)].
    + split; [tauto |]. split; [tauto |]. split; [tauto |].
      intros Hfalse. exfalso. destruct Hu as [_ Hall]. rewrite Forall_forall in Hall.
      apply list_elem_of_In in Hfalse. specialize (Hall _ Hfalse). discriminate.
    + split; [rewrite Ha; split; [discriminate | tauto] |].
      split; [tauto |]. split; [tauto |]. intros _. split; assumption.
  - intros Hact.
    destruct (bus_step_active fps st (MainV2.on_bus_lane red_coverage roi fr) Hact)
      as (Hb & _ & _ & Hcase).
    rewrite <- Hst' in Hb, Hcase. fold buf in Hb. rewrite <- Hb, Hidx in Hcase. fold now in Hcase.
    assert (Hfull : Forall (fun x => x = false) buf <-> unanimous false buf).
    { unfold unanimous. split; [| tauto]. intros Hall. split; [| exact Hall].
      rewrite Hb, deque_append_length.
      subst st loop. cbn beta in Hact |- *. rewrite (run_active_full fps _ Hact).
      unfold MainV2.BUFFER_SIZE_FRAMES. lia. }
    destruct (run_shape fps (flags frames)) as [ws Hshape].
    fold (loop frames) in Hshape. fold st in Hshape. rewrite Hact in Hshape.
    destruct Hshape as [s Hs].
    destruct Hcase as [(Hu & Ha & Hr) | (Hn & Ha & Hr)].
    + split; [rewrite Ha; tauto |]. exists ws, s. split; [exact Hs |].
      split; [| tauto]. intros _. rewrite Hr, Hs. apply set_end_open.
    + split; [rewrite Ha; split; [discriminate | tauto] |].
      exists ws, s. split; [exact Hs |]. split; [tauto |]. intros _. exact Hr.
  - exact Hrun.
  - intros Hopen Hn Hall.
    assert (Hflags : flags (Cv2.stream cap) = replicate n true).
    { subst n. rewrite <- (length_map (MainV2.on_bus_lane red_coverage roi)).
      fold (flags (Cv2.stream cap)).
      induction Hall as [| b l Hb _ IH]; [reflexivity |]. cbn. rewrite Hb. f_equal. exact IH. }
    assert (Hr : MainV2.ranges (loop (Cv2.stream cap)) = [open_range t_open]).
    { subst loop. cbn beta. rewrite Hflags, run_all_true by exact Hn. reflexivity. }
    split; [exact Hr |]. rewrite (Hrun Hopen), Hr. reflexivity.
  - intros Hopen Hno.
    destruct (run_no_window fps _ Hno) as [_ Hr]. fold (loop (Cv2.stream cap)) in Hr.
    split; [exact Hr |]. rewrite (Hrun Hopen), Hr. reflexivity.
Qed.

(** A clip whose first 45 frames are on the lane and whose last 12 are
    not: one window opens at frame 12, closes at frame 57, and is
    reported as [(0.4, 1.9)]. *)
Lemma unanimous_buffer_windows_witness :
  let on_lane := fun (fr : Q) (_ : Z * Z * Z * Z) => fr in
  MainV2.run_bus_lane_color on_lane bus_clip
  = Py.Return {| MainV2.violation_detected := true;
                 MainV2.violation_ranges := [(Py.round_n (Py.fl (12 / 30)) 2,
                                              Py.round_n (Py.fl (57 / 30)) 2)] |}.
Proof.
  intros on_lane.
  destruct (unanimous_buffer_windows on_lane bus_clip [] 0) as (_ & _ & _ & Hrun & _).
  rewrite (Hrun eq_refl). vm_compute. reflexivity.
Defined.

(** ** Close encounters: the finalize pass *)

Lemma merge_step_last (merged : list MainV2.Event) (m e : MainV2.Event) :
  MainV2.merge_step (merged ++ [m]) e
  = if Py.fsub (MainV2.start_time e) (MainV2.end_time m) <=? Py.fl MainV2.MERGE_GAP
    then merged ++ [MainV2.absorb m e]
    else merged ++ [m; e].
Proof.
  unfold MainV2.merge_step. rewrite last_snoc.
  destruct (_ <=? _).
  - rewrite length_app. simpl.
    replace (length merged + 1 - 1)%nat with (length merged + 0)%nat by lia.
    rewrite insert_app_r. reflexivity.
  - rewrite <- app_assoc. reflexivity.
Qed.

Lemma merge_step_within (merged : list MainV2.Event) (m e : MainV2.Event) :
  within_gap m e -> MainV2.merge_step (merged ++ [m]) e = merged ++ [MainV2.absorb m e].
Proof.
  intros H. rewrite merge_step_last.
  destruct (Qleb_spec (Py.fsub (MainV2.start_time e) (MainV2.end_time m))
                      (Py.fl MainV2.MERGE_GAP)); [reflexivity | contradiction].
Qed.

Lemma merge_step_apart (merged : list MainV2.Event) (m e : MainV2.Event) :
  ~ within_gap m e -> MainV2.merge_step (merged ++ [m]) e = merged ++ [m; e].
Proof.
  intros H. rewrite merge_step_last.
  destruct (Qleb_spec (Py.fsub (MainV2.start_time e) (MainV2.end_time m))
                      (Py.fl MainV2.MERGE_GAP)); [contradiction | reflexivity].
Qed.

Lemma final_events_spec (events : list MainV2.Event) (x : MainV2.Event) :
  In x (MainV2.final_events events) <-> In x events /\ ~ short x.
Proof.
  unfold MainV2.final_events, short. rewrite filter_In.
  destruct (Qleb_spec (Py.fl 0.2) (Py.fsub (MainV2.end_time x) (MainV2.start_time x)));
    split; intros [Hin H]; split; auto; try discriminate; lra.
Qed.

Lemma final_events_sublist (events : list MainV2.Event) :
  sublist (MainV2.final_events events) events.
Proof.
  unfold MainV2.final_events. induction events as [| e events IH]; cbn [List.filter].
  - constructor.
  - destruct (_ <=? _); [apply sublist_skip | apply sublist_cons]; exact IH.
Qed.

(** What [absorb] keeps of the earlier event [m] and of the later one
    [e]. *)
Lemma absorb_spec (m e : MainV2.Event) :
  let m' := MainV2.absorb m e in
  MainV2.start_time m' = MainV2.start_time m /\
  MainV2.end_time m' = MainV2.end_time e /\
  MainV2.peak_score m' = Py.max (MainV2.peak_score m) (MainV2.peak_score e) /\
  (MainV2.peak_score m < MainV2.peak_score e ->
     MainV2.peak_time m' = MainV2.peak_time e /\
     MainV2.where_ m' = MainV2.where_ e /\
     MainV2.max_box_height_norm m' = MainV2.max_box_height_norm e) /\
  (MainV2.peak_score e <= MainV2.peak_score m ->
     MainV2.peak_time m' = MainV2.peak_time m /\
     MainV2.where_ m' = MainV2.where_ m /\
     MainV2.max_box_height_norm m' = MainV2.max_box_height_norm m).
Proof.
  unfold MainV2.absorb, Py.max.
  destruct (Qltb_spec (MainV2.peak_score m) (MainV2.peak_score e)); simpl;
    repeat split; intros; auto; lra.
Qed.

Lemma merge_step_nonempty (merged : list MainV2.Event) (e : MainV2.Event) :
  MainV2.merge_step merged e <> [].
Proof.
  induction merged as [| m merged _] using rev_ind.
  - discriminate.
  - rewrite merge_step_last. destruct (_ <=? _); intros H; now apply app_eq_nil in H as [_ H].
Qed.

Lemma merge_events_snoc (final : list MainV2.Event) (e : MainV2.Event) :
  final <> [] ->
  MainV2.merge_events (final ++ [e]) = MainV2.merge_step (MainV2.merge_events final) e.
Proof.
  destruct final as [| e0 rest]; [congruence |]. intros _.
  simpl. apply foldl_snoc.
Qed.

Lemma merge_events_nonempty (final : list MainV2.Event) :
  final <> [] -> MainV2.merge_events final <> [].
Proof.
  induction final as [| e final _] using rev_ind; [congruence |]. intros _.
  destruct final as [| e0 final].
  - discriminate.
  - rewrite merge_events_snoc by discriminate. apply merge_step_nonempty.
Qed.

Lemma separated_snoc (evs : list MainV2.Event) (m e : MainV2.Event) :
  separated (evs ++ [m]) -> ~ within_gap m e -> separated (evs ++ [m; e]).
Proof.
  induction evs as [| a evs IH]; intros Hsep Hgap.
  - cbn. auto.
  - destruct evs as [| b evs].
    + cbn in *. tauto.
    + cbn [app separated] in *. destruct Hsep as [Hab Hsep].
      split; [exact Hab | apply IH; assumption].
Qed.

Lemma separated_replace_last (evs : list MainV2.Event) (m m' : MainV2.Event) :
  separated (evs ++ [m]) ->
  MainV2.start_time m' = MainV2.start_time m ->
  separated (evs ++ [m']).
Proof.
  induction evs as [| a evs IH]; intros Hsep Hstart.
  - cbn. exact I.
  - destruct evs as [| b evs].
    + cbn in *. unfold within_gap in *. rewrite Hstart. tauto.
    + cbn [app separated] in *. destruct Hsep as [Hab Hsep].
      split; [exact Hab | apply IH; assumption].
Qed.

Lemma merge_step_separated (merged : list MainV2.Event) (e : MainV2.Event) :
  separated merged -> separated (MainV2.merge_step merged e).
Proof.
  intros Hsep. destruct merged as [| m merged _] using rev_ind.
  - cbn. exact I.
  - rewrite merge_step_last.
    destruct (Qleb_spec (Py.fsub (MainV2.start_time e) (MainV2.end_time m))
                        (Py.fl MainV2.MERGE_GAP)) as [Hnear | Hfar].
    + apply (separated_replace_last merged m); [exact Hsep |].
      apply absorb_spec.
    + apply separated_snoc; [exact Hsep | exact Hfar].
Qed.

(** After the merge pass no event starts within the gap of the one
    before it. *)
Lemma merge_events_separated (final : list MainV2.Event) :
  separated (MainV2.merge_events final).
Proof.
  induction final as [| e final IH] using rev_ind; [exact I |].
  destruct final as [| e0 final]; [exact I |].
  rewrite merge_events_snoc by discriminate. apply merge_step_separated, IH.
Qed.

(** ** Close encounters: the order of the times of an event *)

Lemma chronological_nil : chronological [].
Proof. split; constructor. Qed.

Lemma chronological_snoc (evs : list MainV2.Event) (e : MainV2.Event) :
  chronological evs -> ordered e ->
  Forall (fun a => MainV2.end_time a <= MainV2.start_time e) evs ->
  chronological (evs ++ [e]).
Proof.
  intros [Ho Hs] He Hb. split.
  - apply Forall_app. split; [exact Ho | constructor; [exact He | constructor]].
  - apply StronglySorted_app_2; [| exact Hs | repeat constructor].
    intros a b Ha Hin. apply list_elem_of_singleton in Hin. subst b.
    rewrite Forall_forall in Hb. now apply Hb.
Qed.

Lemma chronological_filter (f : MainV2.Event -> bool) (evs : list MainV2.Event) :
  chronological evs -> chronological (List.filter f evs).
Proof.
  intros [Ho Hs]. induction evs as [| e evs IH]; simpl.
  - apply chronological_nil.
  - apply Forall_cons in Ho as [He Ho]. apply StronglySorted_inv in Hs as [Hs Hb].
    specialize (IH Ho Hs). destruct (f e); [| exact IH].
    destruct IH as [IHo IHs]. split; constructor; auto.
    rewrite List.Forall_forall in *. intros x Hx. apply filter_In in Hx as [Hx _]. auto.
Qed.

Lemma Forall_end_le (evs : list MainV2.Event) (a b : Q) :
  a <= b ->
  Forall (fun e => MainV2.end_time e <= a) evs ->
  Forall (fun e => MainV2.end_time e <= b) evs.
Proof.
  intros Hab H. eapply Forall_impl; [exact H |].
  intros e He. simpl in He. lra.
Qed.

Lemma hysteresis_inv (m : MainV2.Machine) (s : MainV2.Signal) (now : Q) :
  machine_inv m now ->
  now <= Py.round_n (MainV2.t s) 2 ->
  machine_inv (MainV2.hysteresis m s) (Py.round_n (MainV2.t s) 2).
Proof.
  intros (Hc & Hend & Hcur) Hnow.
  set (now' := Py.round_n (MainV2.t s) 2) in *.
  pose proof (Forall_end_le _ _ _ Hnow Hend) as Hend'.
  unfold MainV2.hysteresis.
  destruct (MainV2.state m) eqn:Est.
  - (* idle *)
    destruct (_ && _ && _).
    + repeat split; simpl; fold now'; try apply Hc; auto; lra.
    + unfold machine_inv. rewrite Est. auto.
  - (* in_event *)
    destruct (MainV2.cur_event m) as [cur |] eqn:Ecur.
    2:{ unfold machine_inv. rewrite Est, Ecur. auto. }
    destruct Hcur as (Hb & Hs1 & Hs2).
    set (cur' := if MainV2.o_peak_score cur <? MainV2.fused s then _ else cur).
    assert (Hcur' : MainV2.o_start_time cur' = MainV2.o_start_time cur /\
                    MainV2.o_start_time cur' <= MainV2.o_peak_time cur' <= now').
    { subst cur'. destruct (_ <? _); simpl; fold now'; split; auto; lra. }
    destruct Hcur' as (Hst & Hp1 & Hp2).
    destruct (_ <=? _).
    + split; [| split]; simpl; fold now'; auto.
      * apply chronological_snoc; [exact Hc | unfold ordered; simpl; lra |].
        simpl. rewrite Hst. exact Hb.
      * apply Forall_app. split; [exact Hend' |]. repeat constructor. simpl. lra.
    + split; [| split]; simpl; auto.
      rewrite Hst in *. auto.
Qed.

Lemma force_close_chronological (m : MainV2.Machine) (last_t : Q) :
  machine_inv m (Py.round_n last_t 2) ->
  chronological (MainV2.force_close m last_t).
Proof.
  intros (Hc & Hend & Hcur). unfold MainV2.force_close.
  destruct (MainV2.state m); [exact Hc |].
  destruct (MainV2.cur_event m) as [cur |]; [| exact Hc].
  destruct Hcur as (Hb & Hs1 & Hs2).
  apply chronological_snoc; [exact Hc | unfold ordered; simpl; lra | exact Hb].
Qed.

Lemma absorb_ordered (m e : MainV2.Event) :
  ordered m -> ordered e -> before m e -> ordered (MainV2.absorb m e).
Proof.
  unfold ordered, before, MainV2.absorb. intros Hm He Hb.
  destruct (_ <? _); simpl; lra.
Qed.

Lemma merge_step_chronological (merged rest : list MainV2.Event) (e : MainV2.Event) :
  merged <> [] ->
  chronological merged ->
  chronological (e :: rest) ->
  (forall a b, a ∈ merged -> b ∈ e :: rest -> before a b) ->
  chronological (MainV2.merge_step merged e) /\
  (forall a b, a ∈ MainV2.merge_step merged e -> b ∈ rest -> before a b).
Proof.
  intros Hne [Hmo Hms] [Heo Hes] Hcross.
  induction merged as [| m ms _] using rev_ind; [congruence |]. clear Hne.
  apply Forall_cons in Heo as [He Hro]. apply StronglySorted_inv in Hes as [Hrs Heb].
  rewrite List.Forall_forall in Heb.
  apply Forall_app in Hmo as [Hmso Hmo']. rewrite Forall_singleton in Hmo'.
  apply StronglySorted_app in Hms as (Hmsm & Hmss & _).
  assert (Hme : before m e) by (apply Hcross; set_solver).
  rewrite merge_step_last. destruct (_ <=? _).
  - split.
    + split.
      * apply Forall_app. split; [exact Hmso |].
        rewrite Forall_singleton. now apply absorb_ordered.
      * apply StronglySorted_app_2; [| exact Hmss | repeat constructor].
        intros a b Ha Hb. apply list_elem_of_singleton in Hb. subst b.
        unfold before. destruct (absorb_spec m e) as (-> & _).
        apply (Hmsm a m); set_solver.
    + intros a b Ha Hb. apply elem_of_app in Ha as [Ha | Ha].
      * apply Hcross; set_solver.
      * apply list_elem_of_singleton in Ha. subst a.
        unfold before. destruct (absorb_spec m e) as (_ & -> & _).
        apply Heb. now apply list_elem_of_In.
  - replace (ms ++ [m; e]) with ((ms ++ [m]) ++ [e]) by (rewrite <- app_assoc; reflexivity).
    split.
    + apply chronological_snoc.
      * split; [apply Forall_app; split; [exact Hmso | now rewrite Forall_singleton] |].
        apply StronglySorted_app_2; [exact Hmsm | exact Hmss | repeat constructor].
      * exact He.
      * apply Forall_forall. intros a Ha. apply (Hcross a e); [exact Ha | left].
    + intros a b Ha Hb. apply elem_of_app in Ha as [Ha | Ha].
      * apply Hcross; [exact Ha | now right].
      * apply list_elem_of_singleton in Ha. subst a.
        apply Heb. now apply list_elem_of_In.
Qed.

Lemma merge_loop_chronological (rest merged : list MainV2.Event) :
  merged <> [] ->
  chronological merged ->
  chronological rest ->
  (forall a b, a ∈ merged -> b ∈ rest -> before a b) ->
  chronological (foldl MainV2.merge_step merged rest).
Proof.
  revert merged. induction rest as [| e rest IH]; intros merged Hne Hm Hr Hcross.
  - exact Hm.
  - simpl. destruct (merge_step_chronological merged rest e Hne Hm Hr Hcross) as [Hm' Hc'].
    apply IH; [apply merge_step_nonempty | exact Hm' | | exact Hc'].
    destruct Hr as [Ho Hs]. apply Forall_cons in Ho as [_ Ho].
    apply StronglySorted_inv in Hs as [Hs _]. split; assumption.
Qed.

Lemma merge_events_chronological (final : list MainV2.Event) :
  chronological final -> chronological (MainV2.merge_events final).
Proof.
  intros Hf. destruct final as [| e0 rest]; [exact Hf |].
  destruct Hf as [Ho Hs]. apply Forall_cons in Ho as [He Ho].
  apply StronglySorted_inv in Hs as [Hs Hb].
  simpl. apply merge_loop_chronological.
  - discriminate.
  - split; [constructor; [exact He | constructor] | repeat constructor].
  - split; assumption.
  - intros a b Ha Hin. apply list_elem_of_singleton in Ha. subst a.
    rewrite List.Forall_forall in Hb. apply Hb. now apply list_elem_of_In.
Qed.

Section CloseEncounterLoop.
Context {frame : Type}.
Variable _HAS_YOLO : bool.
Variable band_observation : list frame -> frame -> nat -> Q * Q.
Variable fps : Q.
Variable step : Z.
Hypothesis fps_pos : 0 < fps.

Lemma frame_time_mono (i : Z) : inject_Z i / fps <= inject_Z (i + 1) / fps.
Proof.
  unfold Qdiv. apply Qmult_le_compat_r.
  - rewrite <- Zle_Qle. lia.
  - apply Qlt_le_weak, Qinv_lt_0_compat, fps_pos.
Qed.

(** The time stamps of the frames do not decrease. *)
Lemma frame_time_fl_mono (i : Z) :
  MainV2.frame_time fps i <= MainV2.frame_time fps (i + 1).
Proof. apply fl_mono, frame_time_mono. Qed.

Lemma ce_frame_inv (st : @MainV2.Loop frame) (fr : frame) :
  loop_inv fps st -> loop_inv fps (MainV2.ce_frame band_observation fps step st fr).
Proof.
  unfold loop_inv, MainV2.ce_frame, MainV2.ce_sample. intros Hinv.
  pose proof (frame_time_fl_mono (MainV2.i st)) as Hmono.
  destruct (negb _); simpl.
  - destruct (last (MainV2.times st)) as [t_last |]; [| exact Hinv].
    destruct Hinv as [Hm Ht]. split; [exact Hm | lra].
  - rewrite last_snoc. split; [| lra].
    match goal with |- machine_inv (MainV2.hysteresis _ ?s) _ => set (sig := s) end.
    change (MainV2.frame_time fps (MainV2.i st + 1)) with (MainV2.t sig).
    destruct (last (MainV2.times st)) as [t_last |].
    + destruct Hinv as [Hm Ht]. apply (hysteresis_inv _ _ _ Hm).
      apply round_n_mono. simpl. lra.
    + rewrite Hinv. apply (hysteresis_inv _ _ (Py.round_n (MainV2.t sig) 2)); [| lra].
      repeat split; simpl; auto using chronological_nil.
      apply chronological_nil.
Qed.

Lemma ce_loop_inv (frames : list frame) (st : @MainV2.Loop frame) :
  loop_inv fps st -> loop_inv fps (foldl (MainV2.ce_frame band_observation fps step) st frames).
Proof.
  revert st. induction frames as [| fr frames IH]; intros st Hinv; simpl.
  - exact Hinv.
  - apply IH, ce_frame_inv, Hinv.
Qed.

Lemma ce_events_chronological (f0 : frame) (rest : list frame) :
  let st := foldl (MainV2.ce_frame band_observation fps step) (MainV2.loop_init f0) rest in
  chronological
    (MainV2.force_close (MainV2.machine st) (default 0 (last (MainV2.times st)))).
Proof.
  intros st.
  assert (Hinv : loop_inv fps st) by (apply ce_loop_inv; reflexivity).
  unfold loop_inv in Hinv.
  destruct (last (MainV2.times st)) as [t_last |]; simpl.
  - apply force_close_chronological, Hinv.
  - rewrite Hinv. apply chronological_nil.
Qed.

Lemma ce_result_chronological (f0 : frame) (rest : list frame) :
  let st := foldl (MainV2.ce_frame band_observation fps step) (MainV2.loop_init f0) rest in
  chronological
    (MainV2.merge_events
       (MainV2.final_events
          (MainV2.force_close (MainV2.machine st) (default 0 (last (MainV2.times st)))))).
Proof.
  intros st. apply merge_events_chronological, chronological_filter.
  apply ce_events_chronological.
Qed.

End CloseEncounterLoop.

Lemma fps_or_30_pos {frame : Type} (cap : Cv2.VideoCapture frame) :
  0 <= Cv2.CAP_PROP_FPS cap -> 0 < Cv2.fps_or_30 cap.
Proof.
  intros H. unfold Cv2.fps_or_30, Py.or_default.
  destruct (Qeq_bool (Cv2.CAP_PROP_FPS cap) 0) eqn:E; [reflexivity |].
  apply Qeq_bool_neq in E. lra.
Qed.

(** ** Close encounters: the events that are returned *)

Lemma not_short_absorb (m e : MainV2.Event) :
  ordered e -> before m e -> ~ short m -> ~ short (MainV2.absorb m e).
Proof.
  unfold ordered, before, short. intros He Hb Hm.
  destruct (absorb_spec m e) as (-> & -> & _).
  assert (H : Py.fsub (MainV2.end_time m) (MainV2.start_time m)
              <= Py.fsub (MainV2.end_time e) (MainV2.start_time m)).
  { unfold Py.fsub. apply fl_mono.
    pose proof (fl_mono (MainV2.end_time m) (MainV2.end_time e) ltac:(lra)). lra. }
  lra.
Qed.

Lemma merge_step_not_short (merged rest : list MainV2.Event) (e : MainV2.Event) :
  chronological (e :: rest) ->
  (forall a b, a ∈ merged -> b ∈ e :: rest -> before a b) ->
  Forall (fun x => ~ short x) merged -> ~ short e ->
  Forall (fun x => ~ short x) (MainV2.merge_step merged e).
Proof.
  intros [Heo _] Hcross Hall He.
  apply Forall_cons in Heo as [Hord _].
  destruct merged as [| m ms _] using rev_ind.
  - repeat constructor. exact He.
  - apply Forall_app in Hall as [Hms Hm]. rewrite Forall_singleton in Hm.
    rewrite merge_step_last. destruct (_ <=? _).
    + apply Forall_app. split; [exact Hms |]. rewrite Forall_singleton.
      apply not_short_absorb; [exact Hord | apply Hcross; set_solver | exact Hm].
    + apply Forall_app. split; [exact Hms |]. repeat constructor; assumption.
Qed.

Lemma merge_loop_not_short (rest merged : list MainV2.Event) :
  merged <> [] ->
  chronological merged ->
  chronological rest ->
  (forall a b, a ∈ merged -> b ∈ rest -> before a b) ->
  Forall (fun x => ~ short x) merged ->
  Forall (fun x => ~ short x) rest ->
  Forall (fun x => ~ short x) (foldl MainV2.merge_step merged rest).
Proof.
  revert merged. induction rest as [| e rest IH]; intros merged Hne Hm Hr Hcross Hall Hrest.
  - exact Hall.
  - simpl. apply Forall_cons in Hrest as [He Hrest].
    destruct (merge_step_chronological merged rest e Hne Hm Hr Hcross) as [Hm' Hc'].
    apply IH; [apply merge_step_nonempty | exact Hm' | | exact Hc' | | exact Hrest].
    + destruct Hr as [Ho Hs]. apply Forall_cons in Ho as [_ Ho].
      apply StronglySorted_inv in Hs as [Hs _]. split; assumption.
    + now apply (merge_step_not_short merged rest e).
Qed.

(** The merge pass returns no short event when it is given none, in
    chronological order. *)
Lemma merge_events_not_short (final : list MainV2.Event) :
  chronological final ->
  Forall (fun x => ~ short x) final ->
  Forall (fun x => ~ short x) (MainV2.merge_events final).
Proof.
  intros Hf Hall. destruct final as [| e0 rest]; [constructor |].
  apply Forall_cons in Hall as [He0 Hall].
  destruct Hf as [Ho Hs]. apply Forall_cons in Ho as [He Ho].
  apply StronglySorted_inv in Hs as [Hs Hb].
  simpl. apply merge_loop_not_short.
  - discriminate.
  - split; [constructor; [exact He | constructor] | repeat constructor].
  - split; assumption.
  - intros a b Ha Hin. apply list_elem_of_singleton in Ha. subst a.
    rewrite List.Forall_forall in Hb. apply Hb. now apply list_elem_of_In.
  - repeat constructor. exact He0.
  - exact Hall.
Qed.

Lemma final_events_not_short (events : list MainV2.Event) :
  Forall (fun x => ~ short x) (MainV2.final_events events).
Proof.
  apply List.Forall_forall. intros x Hx. now apply final_events_spec in Hx.
Qed.

(** At a tie the rounding of the floats decides: an event from 1.1 s to
    1.3 s is dropped and one from 2.0 s to 2.2 s is kept; an event that
    starts at 4.4 s is not merged into one that ended at 2.4 s, and one
    that starts at 4.5 s is merged into one that ended at 2.5 s. *)
Example finalize_ties :
  let ev := fun s e =>
    {| MainV2.start_time := s; MainV2.peak_time := s; MainV2.peak_score := 0.3;
       MainV2.where_ := "center"; MainV2.max_box_height_norm := 0.2;
       MainV2.end_time := e |} in
  short (ev 1.1 1.3) /\ ~ short (ev 2.0 2.2) /\
  ~ within_gap (ev 1.0 2.4) (ev 4.4 5.0) /\ within_gap (ev 1.0 2.5) (ev 4.5 5.0) /\
  MainV2.final_events [ev 1.1 1.3; ev 2.0 2.2] = [ev 2.0 2.2] /\
  MainV2.merge_events (MainV2.final_events [ev 1.0 2.4; ev 4.4 5.0])
  = [ev 1.0 2.4; ev 4.4 5.0] /\
  MainV2.merge_events (MainV2.final_events [ev 1.0 2.5; ev 4.5 5.0]) = [ev 1.0 5.0].
Proof.
  intros ev. split; [vm_compute; reflexivity |]. split; [vm_compute; discriminate |].
  split; [intros H; vm_compute in H; apply H; reflexivity |].
  split; [vm_compute; discriminate |].
  repeat split; vm_compute; reflexivity.
Qed.

(** C1.  [run_close_encounters] returns the events of its loop after the
    finalize pass, with their number, and among them no event is short
    and none starts within the merge gap of the one before it.  The pass
    first drops the short events, those with
    [end_time - start_time < 0.2], and keeps the others in their order.
    It then scans the kept events from the first one: an event [e] that
    starts within [MERGE_GAP] of the end of the last merged event [l]
    replaces [l] by one event that starts where [l] started, ends where
    [e] ends and carries the larger of the two peak scores, with the peak
    time, place and box height of the event that had it (of [l] on a
    tie); otherwise [e] is appended.  The two differences are differences
    of floats; for the times of a video of at most a million seconds,
    given to two decimals, they decide as the differences of the decimals
    do, except when these are exactly 0.20 s and 2.00 s. *)
Theorem finalize_drops_and_merges {frame : Type} (has_yolo : bool)
    (band_observation : list frame -> frame -> nat -> Q * Q)
    (cap : Cv2.VideoCapture frame) (events final : list MainV2.Event)
    (m e : MainV2.Event) :
  (has_yolo = true -> Cv2.isOpened cap = true ->
   forall f0 rest, Cv2.stream cap = f0 :: rest ->
     let fps := Cv2.fps_or_30 cap in
     let st := foldl (MainV2.ce_frame band_observation fps
                        (MainV2.sampling_step fps MainV2.PROC_HZ_CE))
                     (MainV2.loop_init f0) rest in
     let merged :=
       MainV2.merge_events
         (MainV2.final_events
            (MainV2.force_close (MainV2.machine st) (default 0 (last (MainV2.times st))))) in
     MainV2.run_close_encounters has_yolo band_observation cap
     = Py.Return {| MainV2.close_encounters := merged;
                    MainV2.event_count := length merged;
                    MainV2.note := None |} /\
     separated merged /\
     (0 <= Cv2.CAP_PROP_FPS cap -> Forall (fun x => ~ short x) merged)) /\
  (forall x, In x (MainV2.final_events events) <-> In x events /\ ~ short x) /\
  sublist (MainV2.final_events events) events /\
  MainV2.merge_events [] = [] /\
  MainV2.merge_events [e] = [e] /\
  (final <> [] ->
     exists ms l,
       MainV2.merge_events final = ms ++ [l] /\
       (within_gap l e ->
          MainV2.merge_events (final ++ [e]) = ms ++ [MainV2.absorb l e]) /\
       (~ within_gap l e -> MainV2.merge_events (final ++ [e]) = ms ++ [l; e])) /\
  (let m' := MainV2.absorb m e in
   MainV2.start_time m' = MainV2.start_time m /\
   MainV2.end_time m' = MainV2.end_time e /\
   MainV2.peak_score m' = Py.max (MainV2.peak_score m) (MainV2.peak_score e) /\
   MainV2.peak_score m <= MainV2.peak_score m' /\
   MainV2.peak_score e <= MainV2.peak_score m' /\
   (MainV2.peak_score m < MainV2.peak_score e ->
      MainV2.peak_score m' = MainV2.peak_score e /\
      MainV2.peak_time m' = MainV2.peak_time e /\
      MainV2.where_ m' = MainV2.where_ e /\
      MainV2.max_box_height_norm m' = MainV2.max_box_height_norm e) /\
   (MainV2.peak_score e <= MainV2.peak_score m ->
      MainV2.peak_score m' = MainV2.peak_score m /\
      MainV2.peak_time m' = MainV2.peak_time m /\
      MainV2.where_ m' = MainV2.where_ m /\
      MainV2.max_box_height_norm m' = MainV2.max_box_height_norm m)) /\
  (~ short m -> ~ short e -> within_gap m e ->
     MainV2.merge_events (MainV2.final_events [m; e]) = [MainV2.absorb m e]) /\
  (~ short m -> ~ short e -> ~ within_gap m e ->
     MainV2.merge_events (MainV2.final_events [m; e]) = [m; e]) /\
  (short m -> ~ short e -> MainV2.merge_events (MainV2.final_events [m; e]) = [e]) /\
  (0 <= MainV2.start_time e <= 1000000 -> 0 <= MainV2.end_time e <= 1000000 ->
     (MainV2.end_time e - MainV2.start_time e <= 0.19 -> short e) /\
     (0.21 <= MainV2.end_time e - MainV2.start_time e -> ~ short e)) /\
  (0 <= MainV2.end_time m <= 1000000 -> 0 <= MainV2.start_time e <= 1000000 ->
     (MainV2.start_time e - MainV2.end_time m <= 1.99 -> within_gap m e) /\
     (2.01 <= MainV2.start_time e - MainV2.end_time m -> ~ within_gap m e)).
Proof.
  assert (Hkeep : forall x, ~ short x -> MainV2.final_events [x] = [x]).
  { intros x Hx. unfold MainV2.final_events, short in *. cbn [List.filter].
    destruct (Qleb_spec (Py.fl 0.2) (Py.fsub (MainV2.end_time x) (MainV2.start_time x)));
      [reflexivity | lra]. }
  assert (Hdrop : forall x, short x -> MainV2.final_events [x] = []).
  { intros x Hx. unfold MainV2.final_events, short in *. cbn [List.filter].
    destruct (Qleb_spec (Py.fl 0.2) (Py.fsub (MainV2.end_time x) (MainV2.start_time x)));
      [lra | reflexivity]. }
  assert (Happ : forall l1 l2, MainV2.final_events (l1 ++ l2)
                               = MainV2.final_events l1 ++ MainV2.final_events l2).
  { intros. apply List.filter_app. }
  assert (H02 : Py.fl 0.2 == 3602879701896397 # 18014398509481984)
    by (vm_compute; reflexivity).
  assert (H2 : Py.fl MainV2.MERGE_GAP == 2) by (vm_compute; reflexivity).
  repeat apply conj.
  - intros Hyolo Hopen f0 rest Hstream fps st merged.
    split; [| split].
    + unfold MainV2.run_close_encounters. rewrite Hyolo, Hopen, Hstream. reflexivity.
    + apply merge_events_separated.
    + intros Hfps. apply merge_events_not_short; [| apply final_events_not_short].
      apply chronological_filter.
      apply (ce_events_chronological band_observation fps _ (fps_or_30_pos cap Hfps) f0 rest).
  - apply final_events_spec.
  - apply final_events_sublist.
  - reflexivity.
  - reflexivity.
  - intros Hne.
    destruct (MainV2.merge_events final) as [| l ms _] eqn:El using rev_ind;
      [now apply merge_events_nonempty in El |].
    exists ms, l. split; [reflexivity |].
    rewrite merge_events_snoc, El by exact Hne.
    split; [apply merge_step_within | apply merge_step_apart].
  - apply absorb_spec.
  - apply absorb_spec.
  - apply absorb_spec.
  - destruct (absorb_spec m e) as (_ & _ & -> & _). apply max_ge_l.
  - destruct (absorb_spec m e) as (_ & _ & -> & _). apply max_ge_r.
  - intros Hlt. destruct (absorb_spec m e) as (_ & _ & -> & Hhi & _).
    split; [| apply Hhi, Hlt]. unfold Py.max.
    destruct (Qltb_spec (MainV2.peak_score m) (MainV2.peak_score e)); [reflexivity | lra].
  - intros Hle. destruct (absorb_spec m e) as (_ & _ & -> & _ & Hlo).
    split; [| apply Hlo, Hle]. unfold Py.max.
    destruct (Qltb_spec (MainV2.peak_score m) (MainV2.peak_score e)); [lra | reflexivity].
  - intros Hm He Hgap. change [m; e] with ([m] ++ [e]).
    rewrite Happ, (Hkeep m Hm), (Hkeep e He). apply (merge_step_within [] m e Hgap).
  - intros Hm He Hgap. change [m; e] with ([m] ++ [e]).
    rewrite Happ, (Hkeep m Hm), (Hkeep e He). apply (merge_step_apart [] m e Hgap).
  - intros Hm He. change [m; e] with ([m] ++ [e]).
    rewrite Happ, (Hdrop m Hm), (Hkeep e He). reflexivity.
  - intros Hs He. unfold short.
    pose proof (fsub_near (MainV2.end_time e) (MainV2.start_time e) He Hs).
    split; intros Hd; lra.
  - intros Hm He. unfold within_gap.
    pose proof (fsub_near (MainV2.start_time e) (MainV2.end_time m) He Hm).
    split; intros Hd; lra.
Qed.

(** On [busy_drive] the loop closes three events.  The first one, of
    0.12 s, is dropped; the third starts 0.38 s after the second ended
    and is merged into it. *)
Lemma finalize_drops_and_merges_witness :
  (let st := foldl (MainV2.ce_frame (fun _ fr _ => (fr, 0)) 8 1) (MainV2.loop_init 0)
                   (tail (Cv2.stream busy_drive)) in
   map (fun e => (MainV2.start_time e, MainV2.end_time e))
       (MainV2.force_close (MainV2.machine st) (default 0 (last (MainV2.times st))))
   = [(0.38, 0.50); (1.00, 1.62); (2.00, 2.25)]) /\
  MainV2.run_close_encounters true (fun _ fr _ => (fr, 0)) busy_drive
  = Py.Return
      {| MainV2.close_encounters :=
           [{| MainV2.start_time := 1.00; MainV2.peak_time := 2.12;
               MainV2.peak_score := 0.660; MainV2.where_ := "left";
               MainV2.max_box_height_norm := 1.000; MainV2.end_time := 2.25 |}];
         MainV2.event_count := 1;
         MainV2.note := None |}.
Proof.
  split; [vm_compute; reflexivity |].
  destruct (finalize_drops_and_merges true (fun (_ : list Q) (fr : Q) (_ : nat) => (fr, 0))
              busy_drive [] []
              {| MainV2.start_time := 0; MainV2.peak_time := 0; MainV2.peak_score := 0;
                 MainV2.where_ := "left"; MainV2.max_box_height_norm := 0;
                 MainV2.end_time := 0 |}
              {| MainV2.start_time := 0; MainV2.peak_time := 0; MainV2.peak_score := 0;
                 MainV2.where_ := "left"; MainV2.max_box_height_norm := 0;
                 MainV2.end_time := 0 |})
    as [Hrun _].
  destruct (Hrun eq_refl eq_refl 0 (tail (Cv2.stream busy_drive)) eq_refl) as [Heq _].
  rewrite Heq. clear Heq Hrun. vm_compute. reflexivity.
Defined.

(** On [slow_drive] the first event of the loop lasts from 0.4 s to
    0.6 s, and is dropped: between floats [0.6 - 0.4 < 0.2]. *)
Example finalize_tie_on_a_run :
  (let st := foldl (MainV2.ce_frame (fun _ fr _ => (fr, 0)) 5 1) (MainV2.loop_init 0)
                   (tail (Cv2.stream slow_drive)) in
   map (fun e => (MainV2.start_time e, MainV2.end_time e))
       (MainV2.force_close (MainV2.machine st) (default 0 (last (MainV2.times st))))
   = [(0.40, 0.60); (1.40, 1.80); (2.40, 2.80)]) /\
  (exists r,
     MainV2.run_close_encounters true (fun _ fr _ => (fr, 0)) slow_drive = Py.Return r /\
     map (fun e => (MainV2.start_time e, MainV2.end_time e)) (MainV2.close_encounters r)
     = [(1.40, 2.80)]).
Proof.
  split; [vm_compute; reflexivity |].
  eexists. split; vm_compute; reflexivity.
Qed.

(** ** Proximity: the estimated distance *)

Lemma clip_spec (x lo hi : Q) :
  lo <= hi ->
  (x < lo -> Py.clip x lo hi = lo) /\
  (hi < x -> Py.clip x lo hi = hi) /\
  (lo <= x <= hi -> Py.clip x lo hi = x).
Proof.
  intros H. unfold Py.clip, Py.min, Py.max.
  repeat split; intros; qcases; try reflexivity; lra.
Qed.

(** C4.  For a box of positive height the estimated distance is
    [(real_height * focal_length) / box_height_px], times 1.5 when the
    vertical centre of the box is above the horizon line at 45% of the frame
    height, clamped to [1, 100]; and whatever the box, the estimate lies in
    [1, 100].  On a frame of positive height the boxes that pass the size
    filter of the detection loop all have a positive height. *)
Theorem estimate_distance_spec (self : EnhancedProximity.Detector)
    (x1 y1 x2 y2 : Z) (vehicle_class : string) :
  let d := EnhancedProximity.estimate_distance self (x1, y1, x2, y2) vehicle_class in
  let real_height := default 1.5 (EnhancedProximity.real_heights !! vehicle_class) in
  let raw := real_height * EnhancedProximity.focal_length self / inject_Z (y2 - y1) in
  let above_horizon :=
    inject_Z (y1 + y2) / 2 < inject_Z (EnhancedProximity.height self) * 0.45 in
  1 <= d <= 100 /\
  ((0 < EnhancedProximity.height self)%Z ->
   ~ inject_Z (y2 - y1)
     < inject_Z (EnhancedProximity.height self) * EnhancedProximity.MIN_BOX_HEIGHT_RATIO ->
   (0 < y2 - y1)%Z) /\
  ((0 < y2 - y1)%Z ->
   exists corrected,
     (above_horizon -> corrected = raw * 1.5) /\
     (~ above_horizon -> corrected = raw) /\
     (corrected < 1 -> d == 1) /\
     (100 < corrected -> d == 100) /\
     (1 <= corrected <= 100 -> d = corrected)).
Proof.
  intros d real_height raw above_horizon.
  assert (Hfilter : (0 < EnhancedProximity.height self)%Z ->
    ~ inject_Z (y2 - y1)
      < inject_Z (EnhancedProximity.height self) * EnhancedProximity.MIN_BOX_HEIGHT_RATIO ->
    (0 < y2 - y1)%Z).
  { intros Hh Hbig. unfold EnhancedProximity.MIN_BOX_HEIGHT_RATIO in Hbig.
    rewrite Zlt_Qlt in Hh. change (inject_Z 0) with 0 in Hh.
    rewrite Zlt_Qlt. change (inject_Z 0) with 0. lra. }
  subst d above_horizon. unfold EnhancedProximity.estimate_distance.
  destruct (Z.leb_spec (y2 - y1) 0) as [Hle | Hgt].
  - split; [lra | split; [exact Hfilter | lia]].
  - split; [| split; [exact Hfilter |]]; fold real_height; fold raw.
    + assert (Hlohi : (1.0 : Q) <= 100.0) by lra.
      pose proof (clip_bounds
                    (if inject_Z (y1 + y2) / 2
                        <? inject_Z (EnhancedProximity.height self) * 0.45
                     then raw * 1.5 else raw) 1.0 100.0 Hlohi). lra.
    + assert (Hlohi : (1.0 : Q) <= 100.0) by lra. intros _.
      destruct (Qltb_spec (inject_Z (y1 + y2) / 2)
                          (inject_Z (EnhancedProximity.height self) * 0.45)) as [Hab | Hbe].
      * exists (raw * 1.5).
        destruct (clip_spec (raw * 1.5) 1.0 100.0 Hlohi) as (H1 & H2 & H3).
        repeat split; auto; try tauto.
        -- intros Hc. rewrite H1; lra.
        -- intros Hc. rewrite H2; lra.
        -- intros Hc1. apply H3. lra.
      * exists raw.
        destruct (clip_spec raw 1.0 100.0 Hlohi) as (H1 & H2 & H3).
        repeat split; auto; try tauto.
        -- intros Hc. rewrite H1; lra.
        -- intros Hc. rewrite H2; lra.
        -- intros Hc1. apply H3. lra.
Qed.

Lemma estimate_distance_spec_witness :
  EnhancedProximity.estimate_distance
    {| EnhancedProximity.fps := 30; EnhancedProximity.width := 1280;
       EnhancedProximity.height := 720; EnhancedProximity.focal_length := 640 |}
    (500, 300, 700, 460)%Z "car" == 6.
Proof.
  destruct (estimate_distance_spec
              {| EnhancedProximity.fps := 30; EnhancedProximity.width := 1280;
                 EnhancedProximity.height := 720; EnhancedProximity.focal_length := 640 |}
              500 300 700 460 "car") as (_ & _ & H).
  destruct (H ltac:(lia)) as (c & _ & Hraw & _ & _ & Hin).
  assert (Hc : c = 1.5 * 640 / inject_Z (460 - 300)).
  { apply Hraw. vm_compute. discriminate. }
  rewrite Hin; rewrite Hc; vm_compute; [reflexivity | split; discriminate].
Defined.

(** ** The fitted slope is the least-squares one *)

Lemma sum_cons (x : Q) (l : list Q) : Py.sum (x :: l) = x + Py.sum l.
Proof. reflexivity. Qed.

Lemma count_cons {A : Type} (x : A) (l : list A) :
  inject_Z (Z.of_nat (length (x :: l))) == 1 + inject_Z (Z.of_nat (length l)).
Proof.
  simpl length. rewrite Nat2Z.inj_succ, <- Z.add_1_r, inject_Z_plus.
  change (inject_Z 1) with 1. ring.
Qed.

Lemma sse_expand (xs ys : list Q) (a b : Q) :
  length xs = length ys ->
  sse xs ys a b
  == Py.sum (zip_with Qmult ys ys) - 2 * a * Py.sum (zip_with Qmult xs ys)
     - 2 * b * Py.sum ys + a * a * Py.sum (zip_with Qmult xs xs)
     + 2 * a * b * Py.sum xs + inject_Z (Z.of_nat (length xs)) * (b * b).
Proof.
  unfold sse. revert ys. induction xs as [| x xs IH]; intros [| y ys] Hlen;
    try discriminate Hlen.
  - simpl. ring.
  - injection Hlen as Hlen. cbn [zip_with]. rewrite !sum_cons, count_cons.
    rewrite (IH ys Hlen). ring.
Qed.

Lemma square_nonneg (r : Q) : 0 <= r * r.
Proof. destruct (Qlt_le_dec r 0); nra. Qed.

Lemma sse_nonneg (xs ys : list Q) (a b : Q) : 0 <= sse xs ys a b.
Proof.
  unfold sse. revert ys. induction xs as [| x xs IH]; intros [| y ys]; cbn [zip_with];
    try (simpl; lra).
  rewrite sum_cons. specialize (IH ys).
  pose proof (square_nonneg (y - (a * x + b))). lra.
Qed.

(** Whenever the abscissas are not all equal, no line has a smaller sum of
    squared residuals than the fitted one. *)
Lemma polyfit_least_squares (xs ys : list Q) (a b : Q) :
  length xs = length ys ->
  ~ inject_Z (Z.of_nat (length xs)) * Py.sum (zip_with Qmult xs xs)
    - Py.sum xs * Py.sum xs == 0 ->
  sse xs ys (Py.polyfit_slope xs ys) (Py.polyfit_intercept xs ys) <= sse xs ys a b.
Proof.
  intros Hlen Hd.
  assert (Hn : ~ inject_Z (Z.of_nat (length xs)) == 0).
  { intros Hn. apply Hd. destruct xs; [reflexivity |].
    simpl length in Hn. rewrite Nat2Z.inj_succ in Hn. unfold Qeq in Hn. simpl in Hn. lia. }
  pose proof (sse_expand xs ys a b Hlen) as Hab.
  pose proof (sse_expand xs ys (Py.polyfit_slope xs ys) (Py.polyfit_intercept xs ys) Hlen)
    as Hst.
  (* the residuals of the difference line [u * x + v] against the zero ordinates *)
  pose proof (sse_nonneg xs (map (fun _ => 0) xs)
                (Py.polyfit_slope xs ys - a) (Py.polyfit_intercept xs ys - b)) as Hq.
  rewrite (sse_expand xs (map (fun _ => 0) xs)) in Hq by (now rewrite length_map).
  assert (Hz1 : Py.sum (zip_with Qmult (map (fun _ => 0) xs) (map (fun _ => 0) xs)) == 0).
  { clear. induction xs; [reflexivity |]. cbn [map zip_with]. rewrite sum_cons, IHxs. ring. }
  assert (Hz2 : Py.sum (zip_with Qmult xs (map (fun _ => 0) xs)) == 0).
  { clear. induction xs; [reflexivity |]. cbn [map zip_with]. rewrite sum_cons, IHxs. ring. }
  assert (Hz3 : Py.sum (map (fun _ : Q => 0) xs) == 0).
  { clear. induction xs; [reflexivity |]. cbn [map]. rewrite sum_cons, IHxs. ring. }
  rewrite Hz1, Hz2, Hz3 in Hq.
  assert (N2 : Py.polyfit_slope xs ys * Py.sum xs
               + inject_Z (Z.of_nat (length xs)) * Py.polyfit_intercept xs ys
               - Py.sum ys == 0).
  { unfold Py.polyfit_intercept. field. exact Hn. }
  assert (N1 : Py.polyfit_slope xs ys * Py.sum (zip_with Qmult xs xs)
               + Py.polyfit_intercept xs ys * Py.sum xs
               - Py.sum (zip_with Qmult xs ys) == 0).
  { unfold Py.polyfit_intercept, Py.polyfit_slope. field. split; assumption. }
  set (sl := Py.polyfit_slope xs ys) in *. set (ic := Py.polyfit_intercept xs ys) in *.
  set (n := inject_Z (Z.of_nat (length xs))) in *.
  set (Sx := Py.sum xs) in *. set (Sy := Py.sum ys) in *.
  set (Sxx := Py.sum (zip_with Qmult xs xs)) in *.
  set (Sxy := Py.sum (zip_with Qmult xs ys)) in *.
  set (Syy := Py.sum (zip_with Qmult ys ys)) in *.
  rewrite Hab, Hst.
  nra.
Qed.

(** ** Proximity: time to collision *)

Lemma last_n_suffix {A : Type} (k : nat) (l : list A) :
  (k <= length l)%nat ->
  l = take (length l - k) l ++ Py.last_n k l /\ length (Py.last_n k l) = k.
Proof.
  intros Hk. unfold Py.last_n. split.
  - symmetry. apply take_drop.
  - rewrite length_drop. lia.
Qed.

Lemma last_last_n {A : Type} (k : nat) (l : list A) :
  (0 < k)%nat -> last (Py.last_n k l) = last l.
Proof.
  intros Hk. unfold Py.last_n.
  destruct (decide (length l = 0%nat)) as [H0 | Hn].
  - destruct l; [reflexivity | discriminate].
  - rewrite !last_lookup, lookup_drop, length_drop. f_equal. lia.
Qed.

Lemma last_map {A B : Type} (f : A -> B) (l : list A) :
  last (map f l) = option_map f (last l).
Proof.
  induction l as [| x l IH]; [reflexivity |].
  destruct l as [| y l]; [reflexivity |]. exact IH.
Qed.

Lemma calculate_ttc_unfold (h : list EnhancedProximity.Sample) :
  (3 <= length h)%nat ->
  EnhancedProximity.calculate_ttc h
  = let slope := closing_rate (Py.last_n (Nat.min 5 (length h)) h) in
    if -0.1 <=? slope then Py.Inf
    else Py.Fin (default 0 (last (map EnhancedProximity.distance
                                       (Py.last_n (Nat.min 5 (length h)) h)))
                 / Qabs slope).
Proof.
  intros Hlen. unfold EnhancedProximity.calculate_ttc, closing_rate.
  destruct (Nat.ltb_spec (length h) 3) as [Hlt | _]; [lia |].
  destruct (last_n_suffix (Nat.min 5 (length h)) h ltac:(lia)) as [_ Hl].
  rewrite !length_map, Hl.
  destruct (Nat.ltb_spec (Nat.min 5 (length h)) 2) as [Hlt | _]; [lia |].
  reflexivity.
Qed.

(** ** Proximity: the per-track state *)

Lemma get_set_same (tid : Z) (tr : EnhancedProximity.Track) (tracks : EnhancedProximity.Tracks) :
  EnhancedProximity.get_track tid (EnhancedProximity.set_track tid tr tracks) = tr.
Proof.
  induction tracks as [| [k old] rest IH]; simpl.
  - rewrite Z.eqb_refl. reflexivity.
  - destruct (Z.eqb_spec k tid) as [-> | Hne]; simpl.
    + rewrite Z.eqb_refl. reflexivity.
    + destruct (Z.eqb_spec k tid); [contradiction | exact IH].
Qed.

Lemma get_set_other (tid tid' : Z) (tr : EnhancedProximity.Track)
    (tracks : EnhancedProximity.Tracks) :
  tid <> tid' ->
  EnhancedProximity.get_track tid' (EnhancedProximity.set_track tid tr tracks)
  = EnhancedProximity.get_track tid' tracks.
Proof.
  intros Hne. induction tracks as [| [k old] rest IH]; simpl.
  - destruct (Z.eqb_spec tid tid'); [contradiction | reflexivity].
  - destruct (Z.eqb_spec k tid) as [-> | Hk]; simpl.
    + destruct (Z.eqb_spec tid tid'); [contradiction | reflexivity].
    + destruct (Z.eqb_spec k tid'); [reflexivity | exact IH].
Qed.

Lemma ext_ltb_true (a : Py.ExtQ) (b : Q) :
  Py.ext_ltb a b = true <-> exists q, a = Py.Fin q /\ q < b.
Proof.
  destruct a as [q |]; simpl.
  - destruct (Qltb_spec q b); split; intros H; eauto; try discriminate.
    destruct H as (q' & [= <-] & Hq). contradiction.
  - split; [discriminate | intros (q & H & _); discriminate].
Qed.

(** [evaluate_danger] keeps the history and either leaves the track alone
    or records a new peak at the current time, the latter only under the
    danger criteria. *)
Lemma evaluate_danger_spec (self : EnhancedProximity.Detector)
    (tr tr' : EnhancedProximity.Track) (time_sec dist : Q) (box_h : Z) (frontal : bool) :
  EnhancedProximity.evaluate_danger self tr time_sec dist box_h frontal = Py.Return tr' ->
  EnhancedProximity.history tr' = EnhancedProximity.history tr /\
  (tr' = tr \/
   (danger_criteria self (EnhancedProximity.history tr) dist frontal /\
    EnhancedProximity.is_dangerous tr' = true /\
    EnhancedProximity.peak_time tr' = Some time_sec /\
    EnhancedProximity.peak_distance tr' = Some dist /\
    EnhancedProximity.max_danger_score tr < EnhancedProximity.max_danger_score tr')).
Proof.
  unfold EnhancedProximity.evaluate_danger.
  destruct (dist <? EnhancedProximity.DANGEROUS_DISTANCE_M) eqn:Eclose; simpl;
    [| intros [= <-]; auto].
  destruct frontal; simpl; [| intros [= <-]; auto].
  destruct (Py.ext_ltb _ _ || _) eqn:Eapp; simpl; [| intros [= <-]; auto].
  destruct (EnhancedProximity.is_lateral_movement self _) eqn:Elat; simpl;
    [intros [= <-]; auto |].
  unfold Py.div. destruct (Qeq_bool _ 0); [discriminate |]. cbn.
  match goal with |- context [?a <? ?b] => destruct (Qltb_spec a b) as [Hlt | Hge] end;
    cbn; intros [= <-]; [| auto].
  split; [reflexivity | right]. simpl.
  repeat split; auto.
  - now destruct (Qltb_spec dist EnhancedProximity.DANGEROUS_DISTANCE_M).
  - apply orb_true_iff in Eapp as [Ht | Hc].
    + left. now apply ext_ltb_true.
    + right. now destruct (Qltb_spec dist EnhancedProximity.CRITICAL_DISTANCE_M).
Qed.

(** A detection either leaves the tracks alone, or appends its sample to
    its own track, which is then evaluated for danger if it has at least
    [MIN_TRACK_FRAMES] samples. *)
Lemma observe_spec (self : EnhancedProximity.Detector) (frame_idx : Z) (time_sec : Q)
    (tracks tracks' : EnhancedProximity.Tracks) (d : EnhancedProximity.Detection) :
  EnhancedProximity.observe self frame_idx time_sec tracks d = Py.Return tracks' ->
  tracks' = tracks \/
  exists tid tr',
    EnhancedProximity.id d = Some tid /\
    tracks' = EnhancedProximity.set_track tid tr' tracks /\
    let s := sample_of self time_sec d in
    let tr := EnhancedProximity.record_sample
                (EnhancedProximity.get_track tid tracks) frame_idx s in
    ((length (EnhancedProximity.history tr) < EnhancedProximity.MIN_TRACK_FRAMES)%nat
     /\ tr' = tr)
    \/ ((EnhancedProximity.MIN_TRACK_FRAMES <= length (EnhancedProximity.history tr))%nat
        /\ EnhancedProximity.evaluate_danger self tr time_sec
             (EnhancedProximity.distance s) (EnhancedProximity.box_height s)
             (EnhancedProximity.is_frontal s) = Py.Return tr').
Proof.
  unfold EnhancedProximity.observe, sample_of.
  destruct (negb _); [intros [= <-]; auto |].
  destruct (EnhancedProximity.xyxy d) as [[[x1 y1] x2] y2].
  destruct (_ <? _); [intros [= <-]; auto |].
  destruct (EnhancedProximity.id d) as [tid |]; [| intros [= <-]; auto].
  set (s := {| EnhancedProximity.time := time_sec |}).
  set (tr := EnhancedProximity.record_sample _ frame_idx s).
  intros H. right. exists tid.
  destruct (Nat.leb_spec EnhancedProximity.MIN_TRACK_FRAMES
                         (length (EnhancedProximity.history tr))) as [Hge | Hlt].
  - destruct (EnhancedProximity.evaluate_danger self tr time_sec _ _ _) as [tr' |] eqn:Ev;
      [| discriminate H].
    cbn in H. injection H as <-. exists tr'. auto.
  - cbn in H. injection H as <-. exists tr. auto.
Qed.

Lemma observe_short_track (self : EnhancedProximity.Detector) (frame_idx : Z) (time_sec : Q)
    (tracks tracks' : EnhancedProximity.Tracks) (d : EnhancedProximity.Detection) (tid : Z) :
  EnhancedProximity.observe self frame_idx time_sec tracks d = Py.Return tracks' ->
  (length (EnhancedProximity.history (EnhancedProximity.get_track tid tracks'))
   < EnhancedProximity.MIN_TRACK_FRAMES)%nat ->
  danger_state (EnhancedProximity.get_track tid tracks')
  = danger_state (EnhancedProximity.get_track tid tracks).
Proof.
  intros Hobs Hshort.
  destruct (observe_spec _ _ _ _ _ _ Hobs) as [-> | (tid0 & tr' & _ & -> & Hcase)];
    [reflexivity |].
  destruct (Z.eq_dec tid0 tid) as [-> | Hne].
  - rewrite get_set_same in *.
    destruct Hcase as [[_ ->] | [Hge Hev]]; [reflexivity |].
    apply evaluate_danger_spec in Hev as [Hh _]. rewrite Hh in Hshort. lia.
  - rewrite get_set_other by exact Hne. reflexivity.
Qed.

(** C3.  The time to collision of a track history is infinite when the
    history has fewer than 3 samples; otherwise, with [slope] the slope of
    the least-squares line of distance against time over its last up-to-5
    samples, it is infinite when [slope >= -0.1] and the most recent
    distance divided by [|slope|] when [slope < -0.1].  That slope is the
    one of a linear fit: with its intercept it minimises the sum of the
    squared residuals whenever the sample times are not all equal.  A
    detection that
    leaves its track with fewer than 5 samples does not touch the danger
    state of any track: danger is evaluated from the fifth sample on. *)
Theorem ttc_spec (self : EnhancedProximity.Detector) (h : list EnhancedProximity.Sample) :
  let recent := Py.last_n (Nat.min 5 (length h)) h in
  let slope := closing_rate recent in
  (exists older, h = older ++ recent) /\
  length recent = Nat.min 5 (length h) /\
  ((length h < 3)%nat -> EnhancedProximity.calculate_ttc h = Py.Inf) /\
  ((3 <= length h)%nat -> -0.1 <= slope -> EnhancedProximity.calculate_ttc h = Py.Inf) /\
  ((3 <= length h)%nat -> slope < -0.1 ->
     exists cur, last h = Some cur /\
       EnhancedProximity.calculate_ttc h
       = Py.Fin (EnhancedProximity.distance cur / Qabs slope)) /\
  (forall a b,
     let xs := recent_time_diffs recent in
     let ys := map EnhancedProximity.distance recent in
     ~ inject_Z (Z.of_nat (length xs)) * Py.sum (zip_with Qmult xs xs)
       - Py.sum xs * Py.sum xs == 0 ->
     sse xs ys slope (Py.polyfit_intercept xs ys) <= sse xs ys a b) /\
  (forall frame_idx time_sec tracks tracks' d tid,
     EnhancedProximity.observe self frame_idx time_sec tracks d = Py.Return tracks' ->
     (length (EnhancedProximity.history (EnhancedProximity.get_track tid tracks')) < 5)%nat ->
     danger_state (EnhancedProximity.get_track tid tracks')
     = danger_state (EnhancedProximity.get_track tid tracks)).
Proof.
  intros recent slope.
  destruct (last_n_suffix (Nat.min 5 (length h)) h ltac:(lia)) as [Hsplit Hlen].
  split; [eexists; exact Hsplit |]. split; [exact Hlen |].
  split; [| split; [| split; [| split]]].
  - intros Hlt. unfold EnhancedProximity.calculate_ttc.
    destruct (Nat.ltb_spec (length h) 3); [reflexivity | lia].
  - intros Hge Hs. rewrite calculate_ttc_unfold by exact Hge. cbv zeta.
    fold recent. fold slope. destruct (Qleb_spec (-0.1) slope); [reflexivity | contradiction].
  - intros Hge Hs. rewrite calculate_ttc_unfold by exact Hge. cbv zeta.
    fold recent. fold slope. destruct (Qleb_spec (-0.1) slope); [lra |].
    assert (Hl : last recent = last h) by (apply last_last_n; lia).
    destruct (last h) as [cur |] eqn:El.
    + exists cur. split; [reflexivity |].
      rewrite last_map, Hl. reflexivity.
    + apply last_None in El. subst h. simpl in Hge. lia.
  - intros a b xs ys Hd. apply polyfit_least_squares; [| exact Hd].
    unfold xs, ys, recent_time_diffs. now rewrite !length_map.
  - intros. eapply observe_short_track; eauto.
Qed.

Lemma ttc_spec_witness :
  closing_rate approaching_history == -2 /\
  exists cur,
    last approaching_history = Some cur /\
    EnhancedProximity.calculate_ttc approaching_history
    = Py.Fin (EnhancedProximity.distance cur
              / Qabs (closing_rate (Py.last_n 5 approaching_history))).
Proof.
  split; [reflexivity |].
  destruct (ttc_spec
              {| EnhancedProximity.fps := 30; EnhancedProximity.width := 1280;
                 EnhancedProximity.height := 720; EnhancedProximity.focal_length := 640 |}
              approaching_history) as (_ & _ & _ & _ & H & _ & _).
  apply H; [simpl; lia | reflexivity].
Defined.

(** ** Proximity: when a track becomes dangerous *)

Lemma sample_of_distance (self : EnhancedProximity.Detector) (time_sec : Q)
    (d : EnhancedProximity.Detection) :
  EnhancedProximity.distance (sample_of self time_sec d)
  = EnhancedProximity.estimate_distance self (EnhancedProximity.xyxy d)
      (EnhancedProximity.cls_name d).
Proof.
  unfold sample_of. destruct (EnhancedProximity.xyxy d) as [[[x1 y1] x2] y2]. reflexivity.
Qed.

Lemma sample_of_frontal (self : EnhancedProximity.Detector) (time_sec : Q)
    (d : EnhancedProximity.Detection) :
  EnhancedProximity.is_frontal (sample_of self time_sec d) = true ->
  inject_Z (EnhancedProximity.width self) * 0.3
    < EnhancedProximity.center_x (sample_of self time_sec d)
    < inject_Z (EnhancedProximity.width self) * 0.7.
Proof.
  unfold sample_of. destruct (EnhancedProximity.xyxy d) as [[[x1 y1] x2] y2]. simpl.
  intros H. apply andb_true_iff in H as [H1 H2].
  split; now apply Qltb_true.
Qed.

Lemma observe_marks (self : EnhancedProximity.Detector) (frame_idx : Z) (time_sec : Q)
    (tracks tracks' : EnhancedProximity.Tracks) (d : EnhancedProximity.Detection) (tid : Z) :
  EnhancedProximity.observe self frame_idx time_sec tracks d = Py.Return tracks' ->
  EnhancedProximity.is_dangerous (EnhancedProximity.get_track tid tracks) = false ->
  EnhancedProximity.is_dangerous (EnhancedProximity.get_track tid tracks') = true ->
  EnhancedProximity.id d = Some tid /\
  let s := sample_of self time_sec d in
  let h := EnhancedProximity.history (EnhancedProximity.get_track tid tracks') in
  last h = Some s /\
  (EnhancedProximity.MIN_TRACK_FRAMES <= length h)%nat /\
  danger_criteria self h (EnhancedProximity.distance s) (EnhancedProximity.is_frontal s).
Proof.
  intros Hobs Hbefore Hafter.
  destruct (observe_spec _ _ _ _ _ _ Hobs) as [-> | (tid0 & tr' & Hid & -> & Hcase)];
    [congruence |].
  destruct (Z.eq_dec tid0 tid) as [-> | Hne];
    [| rewrite get_set_other in Hafter by exact Hne; congruence].
  rewrite get_set_same in *. split; [exact Hid |].
  destruct Hcase as [[_ ->] | [Hge Hev]]; [simpl in Hafter; congruence |].
  apply evaluate_danger_spec in Hev as [Hh [-> | (Hcrit & _)]];
    [simpl in Hafter; congruence |].
  cbv zeta. rewrite Hh. split; [apply last_snoc |]. split; [exact Hge | exact Hcrit].
Qed.

Lemma bind_Return_inv {A B : Type} (m : Py.Result A) (k : A -> Py.Result B) (b : B) :
  m ≫= k = Py.Return b -> exists a, m = Py.Return a /\ k a = Py.Return b.
Proof. destruct m as [a | e]; [eauto | discriminate]. Qed.

Section ProximityDanger.
Context {frame : Type}.
Variable model_track : list frame -> frame -> list EnhancedProximity.Detection.
Variable self : EnhancedProximity.Detector.

Lemma observe_far (frame_idx : Z) (time_sec : Q) (tid : Z) (dist : Q)
    (dets : list EnhancedProximity.Detection) (tracks tracks' : EnhancedProximity.Tracks) :
  EnhancedProximity.DANGEROUS_DISTANCE_M <= dist ->
  track_stays_at self tid dist dets ->
  EnhancedProximity.foldM (EnhancedProximity.observe self frame_idx time_sec) tracks dets
    = Py.Return tracks' ->
  EnhancedProximity.is_dangerous (EnhancedProximity.get_track tid tracks) = false ->
  EnhancedProximity.is_dangerous (EnhancedProximity.get_track tid tracks') = false.
Proof.
  intros Hfar. revert tracks.
  induction dets as [| d dets IH]; intros tracks Hstay Hrun Hsafe.
  - injection Hrun as <-. exact Hsafe.
  - simpl in Hrun. apply bind_Return_inv in Hrun as (t1 & Hobs & Hrest).
    apply (IH t1); [intros d' Hin; apply Hstay; now right | exact Hrest |].
    destruct (EnhancedProximity.is_dangerous (EnhancedProximity.get_track tid t1)) eqn:E;
      [| reflexivity].
    destruct (observe_marks _ _ _ _ _ _ _ Hobs Hsafe E) as (Hid & _ & _ & Hclose & _).
    rewrite sample_of_distance, (Hstay d (or_introl eq_refl) Hid) in Hclose. lra.
Qed.

Lemma detect_far (tid : Z) (dist : Q) (frames : list frame)
    (st st' : @EnhancedProximity.Loop frame) :
  EnhancedProximity.DANGEROUS_DISTANCE_M <= dist ->
  (forall seen fr, track_stays_at self tid dist (model_track seen fr)) ->
  EnhancedProximity.foldM (EnhancedProximity.detect_frame model_track self) st frames
    = Py.Return st' ->
  EnhancedProximity.is_dangerous
    (EnhancedProximity.get_track tid (EnhancedProximity.vehicle_tracks st)) = false ->
  EnhancedProximity.is_dangerous
    (EnhancedProximity.get_track tid (EnhancedProximity.vehicle_tracks st')) = false.
Proof.
  intros Hfar Hstay. revert st.
  induction frames as [| fr frames IH]; intros st Hrun Hsafe.
  - injection Hrun as <-. exact Hsafe.
  - simpl in Hrun. apply bind_Return_inv in Hrun as (st1 & Hfr & Hrest).
    apply (IH st1 Hrest).
    unfold EnhancedProximity.detect_frame in Hfr.
    destruct (negb _).
    + injection Hfr as <-. exact Hsafe.
    + apply bind_Return_inv in Hfr as (tracks & Hobs & [= <-]). simpl.
      eapply observe_far; eauto.
Qed.

(** C2.  A detection turns its track dangerous only if the track then has
    at least 5 samples and the sample is nearer than 15 m, its box centre
    is strictly inside the middle 30-70% of the frame width, its time to
    collision is below 4 s or it is nearer than 8 m, and the track is not
    moving laterally.  So a track every detection of which is estimated at
    50 m is never marked dangerous, whatever its time to collision. *)
Theorem dangerous_only_when (tid : Z) :
  (forall frame_idx time_sec tracks tracks' d,
     EnhancedProximity.observe self frame_idx time_sec tracks d = Py.Return tracks' ->
     EnhancedProximity.is_dangerous (EnhancedProximity.get_track tid tracks) = false ->
     EnhancedProximity.is_dangerous (EnhancedProximity.get_track tid tracks') = true ->
     EnhancedProximity.id d = Some tid /\
     let s := sample_of self time_sec d in
     let h := EnhancedProximity.history (EnhancedProximity.get_track tid tracks') in
     let dist := EnhancedProximity.estimate_distance self (EnhancedProximity.xyxy d)
                   (EnhancedProximity.cls_name d) in
     last h = Some s /\
     (5 <= length h)%nat /\
     dist < 15 /\
     inject_Z (EnhancedProximity.width self) * 0.3
       < EnhancedProximity.center_x s
       < inject_Z (EnhancedProximity.width self) * 0.7 /\
     ((exists q, EnhancedProximity.calculate_ttc h = Py.Fin q /\ q < 4) \/ dist < 8) /\
     EnhancedProximity.is_lateral_movement self h = false) /\
  (forall frames st',
     (forall seen fr, track_stays_at self tid 50 (model_track seen fr)) ->
     EnhancedProximity.foldM (EnhancedProximity.detect_frame model_track self)
       {| EnhancedProximity.vehicle_tracks := []; EnhancedProximity.tracked := [];
          EnhancedProximity.frame_idx := 0 |} frames = Py.Return st' ->
     EnhancedProximity.is_dangerous
       (EnhancedProximity.get_track tid (EnhancedProximity.vehicle_tracks st')) = false).
Proof.
  split.
  - intros frame_idx time_sec tracks tracks' d Hobs Hbefore Hafter.
    destruct (observe_marks _ _ _ _ _ _ _ Hobs Hbefore Hafter)
      as (Hid & Hlast & Hlen & Hclose & Hfront & Happ & Hlat).
    rewrite sample_of_distance in *.
    split; [exact Hid |]. cbv zeta.
    unfold EnhancedProximity.DANGEROUS_DISTANCE_M, EnhancedProximity.CRITICAL_DISTANCE_M,
      EnhancedProximity.TTC_THRESHOLD_SEC in *.
    split; [exact Hlast |]. split; [exact Hlen |].
    split; [lra |]. split; [now apply sample_of_frontal |].
    split; [| exact Hlat].
    destruct Happ as [(q & Hq & Hlt) | Hcrit]; [left; exists q; split; [exact Hq | lra] | right; lra].
  - intros frames st' Hstay Hrun.
    eapply (detect_far tid 50 frames);
      [unfold EnhancedProximity.DANGEROUS_DISTANCE_M; lra | exact Hstay | exact Hrun
       | reflexivity].
Qed.

End ProximityDanger.

Lemma dangerous_only_when_witness :
  (exists tracks',
     EnhancedProximity.observe dashcam 10 4 tracked_car car_ahead = Py.Return tracks' /\
     EnhancedProximity.is_dangerous (EnhancedProximity.get_track 7 tracks') = true) /\
  EnhancedProximity.estimate_distance dashcam (EnhancedProximity.xyxy car_ahead)
    (EnhancedProximity.cls_name car_ahead) < 15.
Proof.
  assert (Hrun : exists tracks',
     EnhancedProximity.observe dashcam 10 4 tracked_car car_ahead = Py.Return tracks' /\
     EnhancedProximity.is_dangerous (EnhancedProximity.get_track 7 tracks') = true).
  { eexists. split; [vm_compute; reflexivity | reflexivity]. }
  split; [exact Hrun |].
  destruct Hrun as (tracks' & Hobs & Hd).
  destruct (dangerous_only_when (frame := unit) (fun _ _ => []) dashcam 7) as [Honly _].
  destruct (Honly 10%Z 4 tracked_car tracks' car_ahead Hobs eq_refl Hd)
    as (_ & _ & _ & Hclose & _).
  exact Hclose.
Defined.

(** ** Proximity: the order of the times of an encounter *)

Lemma track_inv_mono (now now' : Q) (tr : EnhancedProximity.Track) :
  now <= now' -> track_inv now tr -> track_inv now' tr.
Proof.
  unfold track_inv. intros Hle.
  destruct (head (EnhancedProximity.history tr)), (last (EnhancedProximity.history tr)); auto.
  intros (H1 & H2 & H3). split; [exact H1 | split; [lra | exact H3]].
Qed.

Lemma tracks_inv_mono (now now' : Q) (tracks : EnhancedProximity.Tracks) :
  now <= now' -> tracks_inv now tracks -> tracks_inv now' tracks.
Proof.
  intros Hle H. eapply Forall_impl; [exact H |].
  intros p Hp. now apply (track_inv_mono now).
Qed.

Lemma get_track_inv (now : Q) (tid : Z) (tracks : EnhancedProximity.Tracks) :
  tracks_inv now tracks -> track_inv now (EnhancedProximity.get_track tid tracks).
Proof.
  induction tracks as [| [k tr] rest IH]; intros H; simpl.
  - reflexivity.
  - apply Forall_cons in H as [Htr Hrest].
    destruct (k =? tid)%Z; [exact Htr | now apply IH].
Qed.

Lemma set_track_inv (now : Q) (tid : Z) (tr : EnhancedProximity.Track)
    (tracks : EnhancedProximity.Tracks) :
  track_inv now tr -> tracks_inv now tracks ->
  tracks_inv now (EnhancedProximity.set_track tid tr tracks).
Proof.
  intros Htr. induction tracks as [| [k old] rest IH]; intros H; simpl.
  - repeat constructor. exact Htr.
  - apply Forall_cons in H as [Hold Hrest].
    destruct (k =? tid)%Z; constructor; auto. now apply IH.
Qed.

Lemma head_snoc {A : Type} (l : list A) (x : A) :
  head (l ++ [x]) = Some (default x (head l)).
Proof. destruct l; reflexivity. Qed.

Lemma record_sample_inv (now : Q) (tr : EnhancedProximity.Track) (frame_idx : Z)
    (s : EnhancedProximity.Sample) :
  track_inv now tr -> now <= EnhancedProximity.time s ->
  track_inv (EnhancedProximity.time s) (EnhancedProximity.record_sample tr frame_idx s).
Proof.
  unfold track_inv, EnhancedProximity.record_sample. simpl.
  rewrite last_snoc, head_snoc. intros Hinv Hnow.
  destruct (head (EnhancedProximity.history tr)) as [s0 |] eqn:Eh; simpl.
  - destruct (last (EnhancedProximity.history tr)) as [sl |] eqn:El.
    + destruct Hinv as (H1 & H2 & H3). split; [lra | split; [lra |]].
      intros tp Htp. apply H3 in Htp. lra.
    + apply last_None in El. rewrite El in Eh. discriminate.
  - rewrite Hinv. split; [lra | split; [lra | discriminate]].
Qed.

Lemma evaluate_danger_inv (self : EnhancedProximity.Detector)
    (tr tr' : EnhancedProximity.Track) (s : EnhancedProximity.Sample)
    (now dist : Q) (box_h : Z) (frontal : bool) :
  EnhancedProximity.evaluate_danger self tr now dist box_h frontal = Py.Return tr' ->
  last (EnhancedProximity.history tr) = Some s ->
  EnhancedProximity.time s = now ->
  track_inv now tr ->
  track_inv now tr'.
Proof.
  intros Hev Hlast <- Hinv.
  apply evaluate_danger_spec in Hev as [Hh [-> | (_ & _ & Hpeak & _)]]; [exact Hinv |].
  unfold track_inv in *. rewrite Hh, Hlast in *.
  destruct (head (EnhancedProximity.history tr)) as [s0 |] eqn:Eh.
  - destruct Hinv as (H1 & H2 & _). split; [exact H1 | split; [exact H2 |]].
    intros tp Htp. rewrite Hpeak in Htp. injection Htp as <-. lra.
  - destruct (EnhancedProximity.history tr); discriminate.
Qed.

Lemma sample_of_time (self : EnhancedProximity.Detector) (time_sec : Q)
    (d : EnhancedProximity.Detection) :
  EnhancedProximity.time (sample_of self time_sec d) = time_sec.
Proof.
  unfold sample_of. destruct (EnhancedProximity.xyxy d) as [[[x1 y1] x2] y2]. reflexivity.
Qed.

Lemma observe_inv (self : EnhancedProximity.Detector) (frame_idx : Z) (now : Q)
    (tracks tracks' : EnhancedProximity.Tracks) (d : EnhancedProximity.Detection) :
  EnhancedProximity.observe self frame_idx now tracks d = Py.Return tracks' ->
  tracks_inv now tracks -> tracks_inv now tracks'.
Proof.
  intros Hobs Hinv.
  destruct (observe_spec _ _ _ _ _ _ Hobs) as [-> | (tid & tr' & _ & -> & Hcase)];
    [exact Hinv |].
  apply set_track_inv; [| exact Hinv].
  pose proof (sample_of_time self now d) as Ht.
  pose proof (record_sample_inv now (EnhancedProximity.get_track tid tracks) frame_idx
                (sample_of self now d) (get_track_inv now tid tracks Hinv)) as Hrec.
  rewrite Ht in Hrec. specialize (Hrec ltac:(lra)).
  destruct Hcase as [[_ ->] | [_ Hev]]; [exact Hrec |].
  eapply evaluate_danger_inv; [exact Hev | apply last_snoc | exact Ht | exact Hrec].
Qed.

Lemma observe_all_inv (self : EnhancedProximity.Detector) (frame_idx : Z) (now : Q)
    (dets : list EnhancedProximity.Detection) (tracks tracks' : EnhancedProximity.Tracks) :
  EnhancedProximity.foldM (EnhancedProximity.observe self frame_idx now) tracks dets
    = Py.Return tracks' ->
  tracks_inv now tracks -> tracks_inv now tracks'.
Proof.
  revert tracks. induction dets as [| d dets IH]; intros tracks Hrun Hinv.
  - injection Hrun as <-. exact Hinv.
  - simpl in Hrun. apply bind_Return_inv in Hrun as (t1 & Hobs & Hrest).
    apply (IH t1 Hrest). eapply observe_inv; eauto.
Qed.

Lemma to_encounter_ordered (self : EnhancedProximity.Detector) (now : Q)
    (tr : EnhancedProximity.Track) (e : EnhancedProximity.Encounter) :
  track_inv now tr ->
  EnhancedProximity.to_encounter self tr = Py.Return (Some e) ->
  ordered_encounter e.
Proof.
  unfold EnhancedProximity.to_encounter, track_inv. intros Hinv.
  destruct (negb _); [discriminate |].
  destruct (Nat.ltb_spec (length (EnhancedProximity.history tr))
                         EnhancedProximity.MIN_TRACK_FRAMES) as [| Hlen]; [discriminate |].
  intros H. apply bind_Return_inv in H as (norm & _ & [= <-]).
  unfold ordered_encounter. simpl.
  destruct (head (EnhancedProximity.history tr)) as [s0 |] eqn:Eh.
  2:{ unfold EnhancedProximity.MIN_TRACK_FRAMES in Hlen.
      destruct (EnhancedProximity.history tr); [simpl in Hlen; lia | discriminate]. }
  destruct (last (EnhancedProximity.history tr)) as [sl |] eqn:El.
  2:{ apply last_None in El. rewrite El in Eh. discriminate. }
  destruct Hinv as (H1 & _ & H3). simpl.
  split; apply round_n_mono.
  - destruct (EnhancedProximity.peak_time tr) as [tp |]; simpl; [apply (H3 tp eq_refl) | lra].
  - destruct (EnhancedProximity.peak_time tr) as [tp |]; simpl; [apply (H3 tp eq_refl) | lra].
Qed.

Section ProximityLoop.
Context {frame : Type}.
Variable model_track : list frame -> frame -> list EnhancedProximity.Detection.
Variable self : EnhancedProximity.Detector.

Lemma collect_ordered (now : Q) (tracks : EnhancedProximity.Tracks)
    (encs : list EnhancedProximity.Encounter) :
  tracks_inv now tracks ->
  EnhancedProximity.collect self tracks = Py.Return encs ->
  Forall ordered_encounter encs.
Proof.
  revert encs. induction tracks as [| [k tr] rest IH]; intros encs Hinv Hrun.
  - injection Hrun as <-. constructor.
  - apply Forall_cons in Hinv as [Htr Hrest]. simpl in Hrun.
    apply bind_Return_inv in Hrun as (enc & Henc & Hrun).
    apply bind_Return_inv in Hrun as (encs' & Hencs & [= <-]).
    specialize (IH encs' Hrest Hencs).
    destruct enc as [e |]; [| exact IH].
    constructor; [| exact IH]. eapply to_encounter_ordered; eauto.
Qed.

Hypothesis fps_pos : 0 < EnhancedProximity.fps self.

Lemma detect_frame_inv (st st' : @EnhancedProximity.Loop frame) (fr : frame) :
  EnhancedProximity.detect_frame model_track self st fr = Py.Return st' ->
  detect_inv self st -> detect_inv self st'.
Proof.
  unfold EnhancedProximity.detect_frame, detect_inv. intros Hrun Hinv.
  pose proof (frame_time_mono _ fps_pos (EnhancedProximity.frame_idx st)) as Hmono.
  apply (tracks_inv_mono _ _ _ Hmono) in Hinv.
  destruct (negb _).
  - injection Hrun as <-. exact Hinv.
  - apply bind_Return_inv in Hrun as (tracks & Hobs & [= <-]). simpl.
    eapply observe_all_inv; eauto.
Qed.

Lemma detect_loop_inv (frames : list frame) (st st' : @EnhancedProximity.Loop frame) :
  EnhancedProximity.foldM (EnhancedProximity.detect_frame model_track self) st frames
    = Py.Return st' ->
  detect_inv self st -> detect_inv self st'.
Proof.
  revert st. induction frames as [| fr frames IH]; intros st Hrun Hinv.
  - injection Hrun as <-. exact Hinv.
  - simpl in Hrun. apply bind_Return_inv in Hrun as (st1 & Hfr & Hrest).
    apply (IH st1 Hrest). eapply detect_frame_inv; eauto.
Qed.

Lemma detect_encounters_ordered (frames : list frame) (r : EnhancedProximity.Encounters) :
  EnhancedProximity.detect_encounters model_track self frames = Py.Return r ->
  Forall ordered_encounter (EnhancedProximity.close_encounters r).
Proof.
  unfold EnhancedProximity.detect_encounters. intros Hrun.
  apply bind_Return_inv in Hrun as (st & Hloop & Hrun).
  apply bind_Return_inv in Hrun as (encs & Hcol & [= <-]). simpl.
  eapply collect_ordered; [| exact Hcol].
  eapply detect_loop_inv; [exact Hloop |]. constructor.
Qed.

(** With a frame height other than zero nothing divides by zero: the
    detection loop returns. *)
Hypothesis height_nonzero : EnhancedProximity.height self <> 0%Z.

Lemma div_height_total (a : Q) :
  Py.div a (inject_Z (EnhancedProximity.height self))
  = Py.Return (a / inject_Z (EnhancedProximity.height self)).
Proof.
  unfold Py.div. destruct (Qeq_bool _ 0) eqn:E; [| reflexivity].
  apply Qeq_bool_iff in E. unfold Qeq in E. simpl in E. lia.
Qed.

Lemma foldM_total {A B : Type} (f : A -> B -> Py.Result A) (xs : list B) (acc : A) :
  (forall a x, exists a', f a x = Py.Return a') ->
  exists acc', EnhancedProximity.foldM f acc xs = Py.Return acc'.
Proof.
  intros Hf. revert acc. induction xs as [| x xs IH]; intros acc; simpl.
  - eauto.
  - destruct (Hf acc x) as [a' ->]. apply IH.
Qed.

Lemma observe_total (frame_idx : Z) (time_sec : Q) (tracks : EnhancedProximity.Tracks)
    (d : EnhancedProximity.Detection) :
  exists tracks', EnhancedProximity.observe self frame_idx time_sec tracks d
                  = Py.Return tracks'.
Proof.
  unfold EnhancedProximity.observe, EnhancedProximity.evaluate_danger.
  destruct (negb _); [eauto |].
  destruct (EnhancedProximity.xyxy d) as [[[x1 y1] x2] y2].
  destruct (_ <? _); [eauto |].
  destruct (EnhancedProximity.id d); [| eauto].
  destruct (_ <=? _)%nat; [| cbn; eauto].
  destruct (_ && _ && _ && _); [| cbn; eauto].
  rewrite div_height_total. cbn. destruct (_ <? _); cbn; eauto.
Qed.

Lemma collect_total (tracks : EnhancedProximity.Tracks) :
  exists encs, EnhancedProximity.collect self tracks = Py.Return encs.
Proof.
  induction tracks as [| [k tr] rest [encs IH]]; simpl; [eauto |].
  unfold EnhancedProximity.to_encounter.
  destruct (negb _); [cbn; rewrite IH; cbn; eauto |].
  destruct (_ <? _)%nat; [cbn; rewrite IH; cbn; eauto |].
  rewrite div_height_total. cbn. rewrite IH. cbn. eauto.
Qed.

Lemma detect_encounters_total (frames : list frame) :
  exists r, EnhancedProximity.detect_encounters model_track self frames = Py.Return r.
Proof.
  unfold EnhancedProximity.detect_encounters.
  destruct (foldM_total (EnhancedProximity.detect_frame model_track self) frames
              {| EnhancedProximity.vehicle_tracks := []; EnhancedProximity.tracked := [];
                 EnhancedProximity.frame_idx := 0 |}) as [st ->].
  - intros st fr. unfold EnhancedProximity.detect_frame.
    destruct (negb _); [cbn; eauto |].
    destruct (foldM_total
                (EnhancedProximity.observe self (EnhancedProximity.frame_idx st + 1)
                   (inject_Z (EnhancedProximity.frame_idx st + 1) / EnhancedProximity.fps self))
                (model_track (EnhancedProximity.tracked st) fr)
                (EnhancedProximity.vehicle_tracks st)) as [tr ->];
      [intros; apply observe_total | cbn; eauto].
  - cbn. destruct (collect_total (EnhancedProximity.vehicle_tracks st)) as [encs ->].
    cbn. eauto.
Qed.

End ProximityLoop.

(** ** The order of the times of every finalized event *)

(** C8.  For a capture whose reported frame rate is not negative, every
    event of [run_close_encounters] -- those of [events] once the stream
    has ended, closed by the machine or force-closed, and those it returns
    after the duration filter and the merge pass -- and every encounter
    that [detect_close_encounters_enhanced] returns has
    [start_time <= peak_time <= end_time].  Both return for a capture that
    opens, the second one provided the frame height is not zero. *)
Theorem event_times_ordered {frame : Type} (has_yolo : bool)
    (band_observation : list frame -> frame -> nat -> Q * Q)
    (model_track : list frame -> frame -> list EnhancedProximity.Detection)
    (cap : Cv2.VideoCapture frame) :
  0 <= Cv2.CAP_PROP_FPS cap ->
  (forall f0 rest, Cv2.stream cap = f0 :: rest ->
     let st := foldl (MainV2.ce_frame band_observation (Cv2.fps_or_30 cap)
                        (MainV2.sampling_step (Cv2.fps_or_30 cap) MainV2.PROC_HZ_CE))
                     (MainV2.loop_init f0) rest in
     Forall ordered
       (MainV2.force_close (MainV2.machine st) (default 0 (last (MainV2.times st))))) /\
  (forall r, MainV2.run_close_encounters has_yolo band_observation cap = Py.Return r ->
             Forall ordered (MainV2.close_encounters r)) /\
  (Cv2.isOpened cap = true ->
     exists r, MainV2.run_close_encounters has_yolo band_observation cap = Py.Return r) /\
  (forall r, EnhancedProximity.detect_close_encounters_enhanced has_yolo model_track cap
             = Py.Return r ->
             Forall ordered_encounter (EnhancedProximity.close_encounters r)) /\
  (Cv2.isOpened cap = true -> Py.int (Cv2.CAP_PROP_FRAME_HEIGHT cap) <> 0%Z ->
     exists r, EnhancedProximity.detect_close_encounters_enhanced has_yolo model_track cap
               = Py.Return r).
Proof.
  intros Hfps. pose proof (fps_or_30_pos cap Hfps) as Hpos.
  split; [| split; [| split; [| split]]].
  - intros f0 rest _.
    apply (ce_events_chronological band_observation (Cv2.fps_or_30 cap) _ Hpos f0 rest).
  - unfold MainV2.run_close_encounters. intros r.
    destruct has_yolo; simpl; [| intros [= <-]; constructor].
    destruct (Cv2.isOpened cap); simpl; [| discriminate].
    destruct (Cv2.stream cap) as [| f0 rest]; intros [= <-]; simpl; [constructor |].
    apply (ce_result_chronological band_observation (Cv2.fps_or_30 cap) _ Hpos f0 rest).
  - intros Hopen. unfold MainV2.run_close_encounters. rewrite Hopen.
    destruct has_yolo; simpl; [| eauto].
    destruct (Cv2.stream cap); eauto.
  - unfold EnhancedProximity.detect_close_encounters_enhanced, EnhancedProximity.init.
    intros r. destruct has_yolo; simpl; [| intros [= <-]; constructor].
    destruct (Cv2.isOpened cap); simpl; [| discriminate].
    apply detect_encounters_ordered. exact Hpos.
  - intros Hopen Hh.
    unfold EnhancedProximity.detect_close_encounters_enhanced, EnhancedProximity.init.
    rewrite Hopen. destruct has_yolo; simpl; [| cbn; eauto].
    apply detect_encounters_total. exact Hh.
Qed.

Lemma event_times_ordered_witness :
  (exists r e,
     MainV2.run_close_encounters true (fun _ fr _ => (fr, 0)) short_drive = Py.Return r /\
     MainV2.close_encounters r = [e] /\ ordered e) /\
  (exists r e,
     EnhancedProximity.detect_close_encounters_enhanced true (fun _ _ => [car_ahead])
       short_drive = Py.Return r /\
     EnhancedProximity.close_encounters r = [e] /\ ordered_encounter e).
Proof.
  destruct (event_times_ordered true (fun _ fr _ => (fr, 0)) (fun _ _ => [car_ahead])
              short_drive) as (_ & Hce & _ & Henh & _).
  { vm_compute. discriminate. }
  split.
  - destruct (MainV2.run_close_encounters true _ short_drive) as [r |] eqn:E;
      [| vm_compute in E; discriminate E].
    specialize (Hce r eq_refl). vm_compute in E. injection E as <-.
    eexists. eexists. split; [reflexivity |]. split; [reflexivity |].
    exact (Forall_inv Hce).
  - destruct (EnhancedProximity.detect_close_encounters_enhanced true _ short_drive)
      as [r |] eqn:E; [| vm_compute in E; discriminate E].
    specialize (Henh r eq_refl). vm_compute in E. injection E as <-.
    eexists. eexists. split; [reflexivity |]. split; [reflexivity |].
    exact (Forall_inv Henh).
Defined.

(** ** Speed: sorting and percentiles *)

Lemma insert_sorted_perm (x : Q) (l : list Q) : Py.insert_sorted x l ≡ₚ x :: l.
Proof.
  induction l as [| y l IH]; simpl; [reflexivity |].
  destruct (x <=? y); [reflexivity |].
  rewrite IH. apply Permutation_swap.
Qed.

Lemma sort_perm (l : list Q) : Py.sort l ≡ₚ l.
Proof.
  induction l as [| x l IH]; simpl; [reflexivity |].
  rewrite insert_sorted_perm, IH. reflexivity.
Qed.

Lemma sort_length (l : list Q) : length (Py.sort l) = length l.
Proof. apply Permutation_length, sort_perm. Qed.

Lemma insert_sorted_sorted (x : Q) (l : list Q) :
  StronglySorted Qle l -> StronglySorted Qle (Py.insert_sorted x l).
Proof.
  induction l as [| y l IH]; intros Hs; simpl.
  - repeat constructor.
  - apply StronglySorted_inv in Hs as [Hs Hy].
    destruct (Qleb_spec x y) as [Hxy | Hxy].
    + constructor; [constructor; assumption |].
      constructor; [exact Hxy |].
      eapply Forall_impl; [exact Hy |]. intros z Hz. simpl in Hz. lra.
    + constructor; [now apply IH |].
      rewrite (insert_sorted_perm x l). constructor; [lra | exact Hy].
Qed.

Lemma sort_sorted (l : list Q) : StronglySorted Qle (Py.sort l).
Proof.
  induction l as [| x l IH]; simpl; [constructor | now apply insert_sorted_sorted].
Qed.

Lemma sorted_nth_le (s : list Q) (i j : nat) :
  StronglySorted Qle s -> (i <= j)%nat -> (j < length s)%nat ->
  nth i s 0 <= nth j s 0.
Proof.
  intros Hs. revert i j. induction Hs as [| x s Hs IH Hx]; intros i j Hij Hj.
  - simpl in Hj. lia.
  - destruct i as [| i], j as [| j]; simpl in *; try lia.
    + lra.
    + rewrite List.Forall_forall in Hx. apply Hx, nth_In. lia.
    + apply IH; lia.
Qed.

Lemma percentile_interpolate (a : list Q) (p : Q) :
  Py.percentile a p
  = interpolate (Py.sort a) (p / 100 * inject_Z (Z.of_nat (length (Py.sort a) - 1))).
Proof. reflexivity. Qed.

Lemma rank_floor (pos : Q) :
  0 <= pos ->
  inject_Z (Z.of_nat (Z.to_nat (Qfloor pos))) <= pos
  < inject_Z (Z.of_nat (Z.to_nat (Qfloor pos))) + 1.
Proof.
  intros Hpos.
  assert (H0 : (0 <= Qfloor pos)%Z).
  { change 0%Z with (Qfloor 0). now apply Qfloor_resp_le. }
  rewrite Z2Nat.id by exact H0. apply Qfloor_bounds.
Qed.

Lemma rank_floor_le (pos : Q) (m : nat) :
  0 <= pos -> pos <= inject_Z (Z.of_nat m) -> (Z.to_nat (Qfloor pos) <= m)%nat.
Proof.
  intros H0 Hm.
  apply Qfloor_resp_le in Hm. rewrite Qfloor_Z in Hm.
  assert (H0' : (0 <= Qfloor pos)%Z).
  { change 0%Z with (Qfloor 0). now apply Qfloor_resp_le. }
  lia.
Qed.

Section Interpolate.
Variable s : list Q.
Hypothesis s_sorted : StronglySorted Qle s.
Hypothesis s_nonempty : (0 < length s)%nat.

Abbreviation top := (inject_Z (Z.of_nat (length s - 1))).

Lemma interpolate_bounds (pos : Q) :
  0 <= pos <= top ->
  nth (Z.to_nat (Qfloor pos)) s 0 <= interpolate s pos
  <= nth (Nat.min (Z.to_nat (Qfloor pos) + 1) (length s - 1)) s 0.
Proof.
  intros [H0 Hm]. unfold interpolate.
  pose proof (rank_floor pos H0) as [Hlo Hhi].
  pose proof (rank_floor_le pos _ H0 Hm) as Hle.
  set (lo := Z.to_nat (Qfloor pos)) in *.
  set (hi := Nat.min (lo + 1) (length s - 1)).
  assert (Hs : nth lo s 0 <= nth hi s 0) by (apply sorted_nth_le; [exact s_sorted | lia | lia]).
  split; nra.
Qed.

Lemma interpolate_mono (pos1 pos2 : Q) :
  0 <= pos1 -> pos1 <= pos2 -> pos2 <= top ->
  interpolate s pos1 <= interpolate s pos2.
Proof.
  intros H0 H12 Hm.
  pose proof (interpolate_bounds pos1 ltac:(lra)) as [_ Hup].
  pose proof (interpolate_bounds pos2 ltac:(lra)) as [Hdown _].
  pose proof (rank_floor pos1 H0) as [Hlo1 Hhi1].
  pose proof (rank_floor pos2 ltac:(lra)) as [Hlo2 Hhi2].
  pose proof (rank_floor_le pos2 (length s - 1) ltac:(lra) Hm) as Hle2.
  assert (Hf : (Z.to_nat (Qfloor pos1) <= Z.to_nat (Qfloor pos2))%nat).
  { apply Z2Nat.inj_le;
      [change 0%Z with (Qfloor 0); apply Qfloor_resp_le; lra
      | change 0%Z with (Qfloor 0); apply Qfloor_resp_le; lra
      | apply Qfloor_resp_le, H12]. }
  destruct (decide (Z.to_nat (Qfloor pos1) = Z.to_nat (Qfloor pos2))) as [Heq | Hne].
  - unfold interpolate. rewrite <- Heq in *.
    set (lo := Z.to_nat (Qfloor pos1)) in *.
    set (hi := Nat.min (lo + 1) (length s - 1)).
    assert (Hs : nth lo s 0 <= nth hi s 0)
      by (apply sorted_nth_le; [exact s_sorted | lia | lia]).
    nra.
  - assert (Hs : nth (Nat.min (Z.to_nat (Qfloor pos1) + 1) (length s - 1)) s 0
                 <= nth (Z.to_nat (Qfloor pos2)) s 0)
      by (apply sorted_nth_le; [exact s_sorted | lia | lia]).
    lra.
Qed.

(** Some entry of the array lies between the Tukey fences
    [q1 - 1.5 iqr] and [q3 + 1.5 iqr]. *)
Lemma fences_keep_one :
  let q1 := interpolate s (25 / 100 * top) in
  let q3 := interpolate s (75 / 100 * top) in
  let iqr := q3 - q1 in
  exists x, In x s /\ q1 - 1.5 * iqr <= x <= q3 + 1.5 * iqr.
Proof.
  intros q1 q3 iqr.
  assert (Htop : 0 <= top).
  { change 0 with (inject_Z 0). rewrite <- Zle_Qle. lia. }
  set (pos1 := 25 / 100 * top) in *. set (pos3 := 75 / 100 * top) in *.
  assert (Hp1 : pos1 == (1 # 4) * top) by (unfold pos1; field).
  assert (Hp3 : pos3 == (3 # 4) * top) by (unfold pos3; field).
  assert (H1 : 0 <= pos1 <= top) by lra.
  assert (H3 : 0 <= pos3 <= top) by lra.
  assert (H13 : pos1 <= pos3) by lra.
  pose proof (interpolate_mono pos1 pos3 ltac:(lra) H13 ltac:(lra)) as Hq.
  fold q1 q3 in Hq.
  pose proof (interpolate_bounds pos1 H1) as [Hlo1 Hup1]. fold q1 in Hlo1, Hup1.
  pose proof (interpolate_bounds pos3 H3) as [Hlo3 Hup3]. fold q3 in Hlo3, Hup3.
  pose proof (rank_floor pos1 ltac:(lra)) as [Hf1 Hc1].
  pose proof (rank_floor_le pos1 (length s - 1) ltac:(lra) ltac:(lra)) as Hle1.
  pose proof (rank_floor_le pos3 (length s - 1) ltac:(lra) ltac:(lra)) as Hle3.
  assert (Hf : (Z.to_nat (Qfloor pos1) <= Z.to_nat (Qfloor pos3))%nat).
  { apply Z2Nat.inj_le;
      [change 0%Z with (Qfloor 0); apply Qfloor_resp_le; lra
      | change 0%Z with (Qfloor 0); apply Qfloor_resp_le; lra
      | apply Qfloor_resp_le, H13]. }
  exists (nth (Z.to_nat (Qfloor pos3)) s 0).
  split; [apply nth_In; lia |]. subst iqr.
  split; [| lra].
  destruct (decide (Z.to_nat (Qfloor pos1) = Z.to_nat (Qfloor pos3))) as [Heq | Hne].
  - rewrite <- Heq in *.
    assert (Hq1 : q1 = interpolate s pos1) by reflexivity.
    assert (Hq3 : q3 = interpolate s pos3) by reflexivity.
    unfold interpolate in Hq1, Hq3. rewrite <- Heq in Hq3.
    set (lo := Z.to_nat (Qfloor pos1)) in *.
    set (hi := Nat.min (lo + 1) (length s - 1)) in *.
    assert (Hs : nth lo s 0 <= nth hi s 0)
      by (apply sorted_nth_le; [exact s_sorted | lia | lia]).
    assert (Hlo0 : 0 <= inject_Z (Z.of_nat lo)).
    { change 0 with (inject_Z 0). rewrite <- Zle_Qle. lia. }
    rewrite Hq1, Hq3. nra.
  - assert (Hs : nth (Nat.min (Z.to_nat (Qfloor pos1) + 1) (length s - 1)) s 0
                 <= nth (Z.to_nat (Qfloor pos3)) s 0)
      by (apply sorted_nth_le; [exact s_sorted | lia | lia]).
    lra.
Qed.

End Interpolate.

(** ** Speed: the samples and their aggregation *)

Lemma sum_bounds (l : list Q) (lo hi : Q) :
  Forall (fun v => lo <= v <= hi) l ->
  inject_Z (Z.of_nat (length l)) * lo <= Py.sum l <= inject_Z (Z.of_nat (length l)) * hi.
Proof.
  induction 1 as [| v l Hv Hl IH]; simpl length; unfold Py.sum in *; simpl foldr.
  - change (inject_Z (Z.of_nat 0)) with 0. lra.
  - rewrite Nat2Z.inj_succ, <- Z.add_1_r, inject_Z_plus. change (inject_Z 1) with 1. lra.
Qed.

Lemma mean_bounds (l : list Q) (lo hi : Q) :
  l <> [] -> Forall (fun v => lo <= v <= hi) l -> lo <= Py.mean l <= hi.
Proof.
  intros Hne Hall. pose proof (sum_bounds l lo hi Hall) as [H1 H2].
  unfold Py.mean.
  assert (Hn : 0 < inject_Z (Z.of_nat (length l))).
  { change 0 with (inject_Z 0). rewrite <- Zlt_Qlt. destruct l; [congruence | simpl; lia]. }
  split.
  - apply Qle_shift_div_l; [exact Hn | lra].
  - apply Qle_shift_div_r; [exact Hn | lra].
Qed.

Lemma frame_speed_plausible (valid_flows : list Q) (meters_per_pixel fps : Q) (rate : Z) :
  plausible (MainV2.frame_speed valid_flows meters_per_pixel fps rate).
Proof.
  unfold plausible, MainV2.frame_speed.
  match goal with |- _ <= Py.clip ?v _ _ <= _ =>
    pose proof (clip_bounds v MainV2.min_speed MainV2.max_speed) as H end.
  unfold MainV2.min_speed, MainV2.max_speed in *. lra.
Qed.

Lemma survivors_nonempty (samples : list Q) : samples <> [] -> survivors samples <> [].
Proof.
  intros Hne. unfold survivors. rewrite !percentile_interpolate.
  pose proof (sort_sorted samples) as Hs.
  assert (Hlen : (0 < length (Py.sort samples))%nat).
  { rewrite sort_length. destruct samples; [congruence | simpl; lia]. }
  destruct (fences_keep_one (Py.sort samples) Hs Hlen) as (x & Hin & Hlo & Hhi).
  apply (Permutation_in _ (sort_perm samples)) in Hin.
  intros Hnil.
  assert (Hx : In x []).
  { rewrite <- Hnil. apply filter_In. split; [exact Hin |].
    apply andb_true_iff. split; apply Qleb_true; assumption. }
  destruct Hx.
Qed.

(** For plausible samples the clamped fences of the source keep what the
    plain fences keep. *)
Lemma aggregate_speeds_spec (samples : list Q) :
  Forall plausible samples ->
  samples <> [] ->
  MainV2.aggregate_speeds samples = Py.mean (survivors samples).
Proof.
  intros Hall Hne. unfold MainV2.aggregate_speeds.
  destruct samples as [| v0 rest] eqn:E; [congruence |]. rewrite <- E in *.
  cbv zeta.
  set (q1 := Py.percentile samples 25). set (q3 := Py.percentile samples 75).
  assert (Hfilter :
    List.filter (fun v => (Py.max MainV2.min_speed (q1 - 1.5 * (q3 - q1)) <=? v)
                          && (v <=? Py.min MainV2.max_speed (q3 + 1.5 * (q3 - q1)))) samples
    = survivors samples).
  { unfold survivors. fold q1 q3. apply filter_ext_in. intros v Hv.
    rewrite List.Forall_forall in Hall. specialize (Hall v Hv). unfold plausible in Hall.
    unfold Py.max, Py.min, MainV2.min_speed, MainV2.max_speed.
    f_equal; qcases; try reflexivity; exfalso; lra. }
  rewrite Hfilter.
  pose proof (survivors_nonempty samples Hne) as Hs.
  destruct (survivors samples); [congruence | reflexivity].
Qed.

Lemma survivors_plausible (samples : list Q) :
  Forall plausible samples -> Forall plausible (survivors samples).
Proof.
  intros Hall. rewrite List.Forall_forall in *. intros v Hv.
  apply filter_In in Hv as [Hv _]. auto.
Qed.

Section SpeedLoop.
Context {frame : Type}.
Variable shape0 : frame -> Z.
Variable roi_size : frame -> Z -> Z -> Z.
Variable flow_magnitudes : frame -> frame -> Z -> Z -> option (list Q).
Variables meters_per_pixel roi_top roi_bottom fps : Q.
Variable rate : Z.

Abbreviation speed_step :=
  (MainV2.speed_frame shape0 roi_size flow_magnitudes meters_per_pixel roi_top roi_bottom
     fps rate).

(** A frame adds at most one sample: the speed of the positive flow
    magnitudes between the previous sampled frame and this one. *)
Lemma speed_frame_samples (st : @MainV2.SpeedLoop frame) (fr : frame) :
  MainV2.all_frame_speeds_kmph (speed_step st fr) = MainV2.all_frame_speeds_kmph st
  \/ exists prev a b magnitude,
       MainV2.prev_gray_frame st = Some prev /\
       flow_magnitudes prev fr a b = Some magnitude /\
       let valid_flows := List.filter (fun m => 0 <? m) magnitude in
       valid_flows <> [] /\
       Forall (fun m => 0 < m) valid_flows /\
       MainV2.all_frame_speeds_kmph (speed_step st fr)
       = MainV2.all_frame_speeds_kmph st
         ++ [Py.clip (Py.percentile valid_flows 75 * meters_per_pixel
                      * (fps / inject_Z rate) * 3.6) 0.0 150.0].
Proof.
  unfold MainV2.speed_frame, MainV2.speed_sample.
  destruct (negb _); [auto |].
  destruct (MainV2.prev_gray_frame st) as [prev |]; [| auto].
  destruct (_ || _); [auto |].
  destruct (flow_magnitudes prev fr _ _) as [magnitude |] eqn:Ef; [| auto].
  destruct (Nat.ltb_spec 0 (length (List.filter (fun m => 0 <? m) magnitude))) as [Hpos | Hz];
    [| auto].
  right. do 4 eexists. split; [reflexivity |]. split; [exact Ef |]. cbv zeta.
  split; [intros Hnil; rewrite Hnil in Hpos; simpl in Hpos; lia |].
  split; [| reflexivity].
  apply List.Forall_forall. intros m Hm. apply filter_In in Hm as [_ Hm].
  now apply Qltb_true.
Qed.

Lemma speed_frame_plausible (st : @MainV2.SpeedLoop frame) (fr : frame) :
  Forall plausible (MainV2.all_frame_speeds_kmph st) ->
  Forall plausible (MainV2.all_frame_speeds_kmph (speed_step st fr)).
Proof.
  intros Hall.
  destruct (speed_frame_samples st fr) as [-> | (prev & a & b & mag & _ & _ & _ & _ & ->)];
    [exact Hall |].
  apply Forall_app. split; [exact Hall |]. constructor; [| constructor].
  apply (frame_speed_plausible _ meters_per_pixel fps rate).
Qed.

Lemma speed_loop_plausible (frames : list frame) (st : @MainV2.SpeedLoop frame) :
  Forall plausible (MainV2.all_frame_speeds_kmph st) ->
  Forall plausible (MainV2.all_frame_speeds_kmph (foldl speed_step st frames)).
Proof.
  revert st. induction frames as [| fr frames IH]; intros st Hall; simpl.
  - exact Hall.
  - apply IH, speed_frame_plausible, Hall.
Qed.

End SpeedLoop.

(** C5.  In [calculate_average_speed] every frame adds at most one
    sample, the 75th percentile of the strictly positive flow magnitudes
    times [meters_per_pixel * (fps / sample_rate) * 3.6], clamped to
    [0, 150]; the result is the mean of the samples that lie within
    [q1 - 1.5 iqr, q3 + 1.5 iqr], of which there is always at least one,
    and is 0.0 when no sample was collected or the video did not open; in
    every case the result lies in [0, 150]. *)
Theorem average_speed_spec {frame : Type}
    (shape0 : frame -> Z) (roi_size : frame -> Z -> Z -> Z)
    (flow_magnitudes : frame -> frame -> Z -> Z -> option (list Q))
    (cap : Cv2.VideoCapture frame) (meters_per_pixel roi_top roi_bottom : Q) :
  let fps := Cv2.fps_or_30 cap in
  let rate := MainV2.sample_rate fps in
  let step := MainV2.speed_frame shape0 roi_size flow_magnitudes meters_per_pixel
                roi_top roi_bottom fps rate in
  let samples :=
    MainV2.all_frame_speeds_kmph
      (foldl step {| MainV2.frame_count := 0; MainV2.prev_gray_frame := None;
                     MainV2.all_frame_speeds_kmph := [] |} (Cv2.stream cap)) in
  let result := MainV2.calculate_average_speed shape0 roi_size flow_magnitudes cap
                  meters_per_pixel roi_top roi_bottom in
  (forall st fr,
     MainV2.all_frame_speeds_kmph (step st fr) = MainV2.all_frame_speeds_kmph st
     \/ exists prev a b magnitude,
          MainV2.prev_gray_frame st = Some prev /\
          flow_magnitudes prev fr a b = Some magnitude /\
          let valid_flows := List.filter (fun m => 0 <? m) magnitude in
          valid_flows <> [] /\
          Forall (fun m => 0 < m) valid_flows /\
          MainV2.all_frame_speeds_kmph (step st fr)
          = MainV2.all_frame_speeds_kmph st
            ++ [Py.clip (Py.percentile valid_flows 75 * meters_per_pixel
                         * (fps / inject_Z rate) * 3.6) 0.0 150.0]) /\
  Forall plausible samples /\
  (Cv2.isOpened cap = true -> samples <> [] ->
     survivors samples <> [] /\ result = Py.mean (survivors samples)) /\
  (Cv2.isOpened cap = true -> samples = [] -> result = 0.0) /\
  (Cv2.isOpened cap = false -> result = 0.0) /\
  0 <= result <= 150.
Proof.
  intros fps rate step samples result.
  assert (Hall : Forall plausible samples) by (apply speed_loop_plausible; constructor).
  assert (Hopen : Cv2.isOpened cap = true -> result = MainV2.aggregate_speeds samples).
  { intros H. unfold result, MainV2.calculate_average_speed. rewrite H. reflexivity. }
  assert (Hsome : Cv2.isOpened cap = true -> samples <> [] ->
                  survivors samples <> [] /\ result = Py.mean (survivors samples)).
  { intros H Hne. split; [now apply survivors_nonempty |].
    rewrite (Hopen H). now apply aggregate_speeds_spec. }
  assert (Hnone : Cv2.isOpened cap = true -> samples = [] -> result = 0.0).
  { intros H Hnil. rewrite (Hopen H), Hnil. reflexivity. }
  assert (Hclosed : Cv2.isOpened cap = false -> result = 0.0).
  { intros H. unfold result, MainV2.calculate_average_speed. rewrite H. reflexivity. }
  split; [apply speed_frame_samples |].
  split; [exact Hall |]. split; [exact Hsome |]. split; [exact Hnone |].
  split; [exact Hclosed |].
  destruct (Cv2.isOpened cap) eqn:E.
  - destruct (decide (samples = [])) as [Hnil | Hne].
    + rewrite (Hnone eq_refl Hnil). lra.
    + destruct (Hsome eq_refl Hne) as [Hs ->].
      apply (mean_bounds _ 0 150 Hs). now apply survivors_plausible.
  - rewrite (Hclosed eq_refl). lra.
Qed.

Lemma average_speed_spec_witness :
  MainV2.calculate_average_speed (fun _ => 480%Z) (fun _ _ _ => 1%Z)
    (fun _ fr _ _ => Some fr) flow_clip 0.05 0.6 0.9 == 2.85.
Proof.
  destruct (average_speed_spec (fun _ => 480%Z) (fun _ _ _ => 1%Z)
              (fun _ fr _ _ => Some fr) flow_clip 0.05 0.6 0.9)
    as (_ & _ & Hmean & _).
  destruct Hmean as [_ ->]; [reflexivity | vm_compute; discriminate |].
  vm_compute. reflexivity.
Defined.
